(** * dstkit.geohash: a shallow embedding and its verified properties

    The Python module [dstkit/geohash.py] encodes a latitude/longitude pair
    as a base-32 geohash string ([encode]), recovers the bounding box of a
    geohash ([get_bounds]), its centre ([decode]) and its outline
    ([get_polygon], [get_geojson]).

    Python floats are IEEE 754 binary64 numbers.  They are modelled by the
    Standard Library's [spec_float] with the binary64 parameters, so every
    addition, division and comparison below is the correctly rounded IEEE
    operation, not an idealised real-number one.

    Python strings are sequences of Unicode code points, and [str.lower]
    is the full Unicode lower-casing, with its case data and its rule
    for the Greek final sigma. *)

From Stdlib Require Import ZArith NArith List String Ascii Bool Lia SpecFloat.
Import ListNotations.
Local Open Scope Z_scope.

(* ================================================================== *)
(** * Binary64 floating point *)
(* ================================================================== *)

Module F64.

Definition prec : Z := 53.
Definition emax : Z := 1024.

Definition float : Type := spec_float.

Definition add : float -> float -> float := SFadd prec emax.
Definition div : float -> float -> float := SFdiv prec emax.
Definition neg : float -> float := SFopp.

(** Python's comparison operators on floats. *)
Definition le (x y : float) : bool := SFleb x y.
Definition lt (x y : float) : bool := SFltb x y.
Definition ge (x y : float) : bool := SFleb y x.
Definition eq (x y : float) : bool := SFeqb x y.

(** The float denoted by an integer literal followed by a dot
    ([2.], [90.0]): exact for the small integers used by the code. *)
Definition of_Z (z : Z) : float := binary_normalize prec emax z 0 false.

Definition nan : float := S754_nan.

(** A member of the binary64 format. *)
Definition valid (x : float) : bool := valid_binary prec emax x.

(** Zero or a (sub)normal number: neither an infinity nor a NaN. *)
Definition finite (x : float) : bool :=
  match x with
  | S754_zero _ | S754_finite _ _ _ => true
  | _ => false
  end.

(** Every finite binary64 number is an integer multiple of [2^-1074].
    [ival x] is that integer: the value of [x] is [ival x * 2^-1074]. *)
Definition ival (x : float) : Z :=
  match x with
  | S754_finite s m e => cond_Zopp s (Zpos m * 2 ^ (e + 1074))
  | _ => 0
  end.

(** An integer number of [2^-1074] units that fits a 53-bit mantissa. *)
Definition representable (a : Z) : Prop :=
  exists m k, 0 <= k /\ Z.abs m < 2 ^ 53 /\ a = m * 2 ^ k.

(** [x] is a finite member of the format and denotes [v * 2^-1074]. *)
Definition good (x : float) (v : Z) : Prop :=
  valid x = true /\ finite x = true /\ ival x = v.

(** [v] is [n] rounded to a neighbouring binary64 number: no representable
    number lies strictly between them. *)
Definition faithful (n v : Z) : Prop :=
  (forall a, representable a -> a <= n -> a <= v) /\
  (forall a, representable a -> n <= a -> v <= a).

(** The last stage of [binary_round_aux]: wrap a shifted mantissa. *)
Definition pack (s : bool) (mrs : shr_record) (e : Z) : float :=
  match shr_m mrs with
  | Z0 => S754_zero s
  | Zpos m => if e <=? emax - prec then S754_finite s m e else S754_infinity s
  | Zneg _ => S754_nan
  end.

End F64.

Abbreviation float := F64.float.

(* ================================================================== *)
(** * Python values: exceptions, strings, numpy helpers *)
(* ================================================================== *)

Inductive exn : Type :=
| ValueError (msg : string)
| IndexError (msg : string).

Inductive result (A : Type) : Type :=
| Ok (a : A)
| Raise (e : exn).
Arguments Ok {A} a.
Arguments Raise {A} e.

Definition bind {A B : Type} (r : result A) (k : A -> result B) : result B :=
  match r with
  | Ok a => k a
  | Raise e => Raise e
  end.

Notation "x <- c ;; k" := (bind c (fun x => k))
  (at level 61, c at next level, right associativity).

(** The two error kinds of the specification are the two [ValueError]s
    the module raises. *)
Definition InvalidCharacter : exn := ValueError "Invalid geohash.".
Definition InvalidPrecision : exn :=
  ValueError "precision must be an integer between 1 and 12".

(** A Python [str] is a sequence of Unicode code points. *)
Definition codepoint : Type := N.
Definition str : Type := list codepoint.

(** The [str] written as a literal of ASCII characters. *)
Definition text (s : string) : str :=
  map N_of_ascii (list_ascii_of_string s).

(** [s.find(c)] for a one-character needle [c]: the index of its first
    occurrence, or [-1]. *)
Fixpoint find_from (s : str) (c : codepoint) (i : Z) : Z :=
  match s with
  | [] => -1
  | a :: s' => if N.eqb a c then i else find_from s' c (i + 1)
  end.

Definition find (s : str) (c : codepoint) : Z := find_from s c 0.

(** [s[i]]: negative indices count from the end, anything out of range
    raises [IndexError]. *)
Definition getitem (s : str) (i : Z) : result codepoint :=
  let n := Z.of_nat (List.length s) in
  let j := if i <? 0 then i + n else i in
  if (j <? 0) || (n <=? j) then Raise (IndexError "string index out of range")
  else match nth_error s (Z.to_nat j) with
       | Some c => Ok c
       | None => Raise (IndexError "string index out of range")
       end.

(** The case data of the Unicode Character Database that [str.lower]
    consults, in version 14.0.0 (CPython 3.11). *)
Module Unicode.

(** The code points whose full lower-case mapping is not themselves, each
    with its mapping.  One mapping has two code points: U+0130. *)
Definition lowercase_mapping : list (codepoint * list codepoint) :=
  [
   (65, [97]); (66, [98]); (67, [99]); (68, [100]); (69, [101]); (70, [102]);
   (71, [103]); (72, [104]); (73, [105]); (74, [106]); (75, [107]);
   (76, [108]); (77, [109]); (78, [110]); (79, [111]); (80, [112]);
   (81, [113]); (82, [114]); (83, [115]); (84, [116]); (85, [117]);
   (86, [118]); (87, [119]); (88, [120]); (89, [121]); (90, [122]);
   (192, [224]); (193, [225]); (194, [226]); (195, [227]); (196, [228]);
   (197, [229]); (198, [230]); (199, [231]); (200, [232]); (201, [233]);
   (202, [234]); (203, [235]); (204, [236]); (205, [237]); (206, [238]);
   (207, [239]); (208, [240]); (209, [241]); (210, [242]); (211, [243]);
   (212, [244]); (213, [245]); (214, [246]); (216, [248]); (217, [249]);
   (218, [250]); (219, [251]); (220, [252]); (221, [253]); (222, [254]);
   (256, [257]); (258, [259]); (260, [261]); (262, [263]); (264, [265]);
   (266, [267]); (268, [269]); (270, [271]); (272, [273]); (274, [275]);
   (276, [277]); (278, [279]); (280, [281]); (282, [283]); (284, [285]);
   (286, [287]); (288, [289]); (290, [291]); (292, [293]); (294, [295]);
   (296, [297]); (298, [299]); (300, [301]); (302, [303]); (304, [105; 775]);
   (306, [307]); (308, [309]); (310, [311]); (313, [314]); (315, [316]);
   (317, [318]); (319, [320]); (321, [322]); (323, [324]); (325, [326]);
   (327, [328]); (330, [331]); (332, [333]); (334, [335]); (336, [337]);
   (338, [339]); (340, [341]); (342, [343]); (344, [345]); (346, [347]);
   (348, [349]); (350, [351]); (352, [353]); (354, [355]); (356, [357]);
   (358, [359]); (360, [361]); (362, [363]); (364, [365]); (366, [367]);
   (368, [369]); (370, [371]); (372, [373]); (374, [375]); (376, [255]);
   (377, [378]); (379, [380]); (381, [382]); (385, [595]); (386, [387]);
   (388, [389]); (390, [596]); (391, [392]); (393, [598]); (394, [599]);
   (395, [396]); (398, [477]); (399, [601]); (400, [603]); (401, [402]);
   (403, [608]); (404, [611]); (406, [617]); (407, [616]); (408, [409]);
   (412, [623]); (413, [626]); (415, [629]); (416, [417]); (418, [419]);
   (420, [421]); (422, [640]); (423, [424]); (425, [643]); (428, [429]);
   (430, [648]); (431, [432]); (433, [650]); (434, [651]); (435, [436]);
   (437, [438]); (439, [658]); (440, [441]); (444, [445]); (452, [454]);
   (453, [454]); (455, [457]); (456, [457]); (458, [460]); (459, [460]);
   (461, [462]); (463, [464]); (465, [466]); (467, [468]); (469, [470]);
   (471, [472]); (473, [474]); (475, [476]); (478, [479]); (480, [481]);
   (482, [483]); (484, [485]); (486, [487]); (488, [489]); (490, [491]);
   (492, [493]); (494, [495]); (497, [499]); (498, [499]); (500, [501]);
   (502, [405]); (503, [447]); (504, [505]); (506, [507]); (508, [509]);
   (510, [511]); (512, [513]); (514, [515]); (516, [517]); (518, [519]);
   (520, [521]); (522, [523]); (524, [525]); (526, [527]); (528, [529]);
   (530, [531]); (532, [533]); (534, [535]); (536, [537]); (538, [539]);
   (540, [541]); (542, [543]); (544, [414]); (546, [547]); (548, [549]);
   (550, [551]); (552, [553]); (554, [555]); (556, [557]); (558, [559]);
   (560, [561]); (562, [563]); (570, [11365]); (571, [572]); (573, [410]);
   (574, [11366]); (577, [578]); (579, [384]); (580, [649]); (581, [652]);
   (582, [583]); (584, [585]); (586, [587]); (588, [589]); (590, [591]);
   (880, [881]); (882, [883]); (886, [887]); (895, [1011]); (902, [940]);
   (904, [941]); (905, [942]); (906, [943]); (908, [972]); (910, [973]);
   (911, [974]); (913, [945]); (914, [946]); (915, [947]); (916, [948]);
   (917, [949]); (918, [950]); (919, [951]); (920, [952]); (921, [953]);
   (922, [954]); (923, [955]); (924, [956]); (925, [957]); (926, [958]);
   (927, [959]); (928, [960]); (929, [961]); (931, [963]); (932, [964]);
   (933, [965]); (934, [966]); (935, [967]); (936, [968]); (937, [969]);
   (938, [970]); (939, [971]); (975, [983]); (984, [985]); (986, [987]);
   (988, [989]); (990, [991]); (992, [993]); (994, [995]); (996, [997]);
   (998, [999]); (1000, [1001]); (1002, [1003]); (1004, [1005]);
   (1006, [1007]); (1012, [952]); (1015, [1016]); (1017, [1010]);
   (1018, [1019]); (1021, [891]); (1022, [892]); (1023, [893]);
   (1024, [1104]); (1025, [1105]); (1026, [1106]); (1027, [1107]);
   (1028, [1108]); (1029, [1109]); (1030, [1110]); (1031, [1111]);
   (1032, [1112]); (1033, [1113]); (1034, [1114]); (1035, [1115]);
   (1036, [1116]); (1037, [1117]); (1038, [1118]); (1039, [1119]);
   (1040, [1072]); (1041, [1073]); (1042, [1074]); (1043, [1075]);
   (1044, [1076]); (1045, [1077]); (1046, [1078]); (1047, [1079]);
   (1048, [1080]); (1049, [1081]); (1050, [1082]); (1051, [1083]);
   (1052, [1084]); (1053, [1085]); (1054, [1086]); (1055, [1087]);
   (1056, [1088]); (1057, [1089]); (1058, [1090]); (1059, [1091]);
   (1060, [1092]); (1061, [1093]); (1062, [1094]); (1063, [1095]);
   (1064, [1096]); (1065, [1097]); (1066, [1098]); (1067, [1099]);
   (1068, [1100]); (1069, [1101]); (1070, [1102]); (1071, [1103]);
   (1120, [1121]); (1122, [1123]); (1124, [1125]); (1126, [1127]);
   (1128, [1129]); (1130, [1131]); (1132, [1133]); (1134, [1135]);
   (1136, [1137]); (1138, [1139]); (1140, [1141]); (1142, [1143]);
   (1144, [1145]); (1146, [1147]); (1148, [1149]); (1150, [1151]);
   (1152, [1153]); (1162, [1163]); (1164, [1165]); (1166, [1167]);
   (1168, [1169]); (1170, [1171]); (1172, [1173]); (1174, [1175]);
   (1176, [1177]); (1178, [1179]); (1180, [1181]); (1182, [1183]);
   (1184, [1185]); (1186, [1187]); (1188, [1189]); (1190, [1191]);
   (1192, [1193]); (1194, [1195]); (1196, [1197]); (1198, [1199]);
   (1200, [1201]); (1202, [1203]); (1204, [1205]); (1206, [1207]);
   (1208, [1209]); (1210, [1211]); (1212, [1213]); (1214, [1215]);
   (1216, [1231]); (1217, [1218]); (1219, [1220]); (1221, [1222]);
   (1223, [1224]); (1225, [1226]); (1227, [1228]); (1229, [1230]);
   (1232, [1233]); (1234, [1235]); (1236, [1237]); (1238, [1239]);
   (1240, [1241]); (1242, [1243]); (1244, [1245]); (1246, [1247]);
   (1248, [1249]); (1250, [1251]); (1252, [1253]); (1254, [1255]);
   (1256, [1257]); (1258, [1259]); (1260, [1261]); (1262, [1263]);
   (1264, [1265]); (1266, [1267]); (1268, [1269]); (1270, [1271]);
   (1272, [1273]); (1274, [1275]); (1276, [1277]); (1278, [1279]);
   (1280, [1281]); (1282, [1283]); (1284, [1285]); (1286, [1287]);
   (1288, [1289]); (1290, [1291]); (1292, [1293]); (1294, [1295]);
   (1296, [1297]); (1298, [1299]); (1300, [1301]); (1302, [1303]);
   (1304, [1305]); (1306, [1307]); (1308, [1309]); (1310, [1311]);
   (1312, [1313]); (1314, [1315]); (1316, [1317]); (1318, [1319]);
   (1320, [1321]); (1322, [1323]); (1324, [1325]); (1326, [1327]);
   (1329, [1377]); (1330, [1378]); (1331, [1379]); (1332, [1380]);
   (1333, [1381]); (1334, [1382]); (1335, [1383]); (1336, [1384]);
   (1337, [1385]); (1338, [1386]); (1339, [1387]); (1340, [1388]);
   (1341, [1389]); (1342, [1390]); (1343, [1391]); (1344, [1392]);
   (1345, [1393]); (1346, [1394]); (1347, [1395]); (1348, [1396]);
   (1349, [1397]); (1350, [1398]); (1351, [1399]); (1352, [1400]);
   (1353, [1401]); (1354, [1402]); (1355, [1403]); (1356, [1404]);
   (1357, [1405]); (1358, [1406]); (1359, [1407]); (1360, [1408]);
   (1361, [1409]); (1362, [1410]); (1363, [1411]); (1364, [1412]);
   (1365, [1413]); (1366, [1414]); (4256, [11520]); (4257, [11521]);
   (4258, [11522]); (4259, [11523]); (4260, [11524]); (4261, [11525]);
   (4262, [11526]); (4263, [11527]); (4264, [11528]); (4265, [11529]);
   (4266, [11530]); (4267, [11531]); (4268, [11532]); (4269, [11533]);
   (4270, [11534]); (4271, [11535]); (4272, [11536]); (4273, [11537]);
   (4274, [11538]); (4275, [11539]); (4276, [11540]); (4277, [11541]);
   (4278, [11542]); (4279, [11543]); (4280, [11544]); (4281, [11545]);
   (4282, [11546]); (4283, [11547]); (4284, [11548]); (4285, [11549]);
   (4286, [11550]); (4287, [11551]); (4288, [11552]); (4289, [11553]);
   (4290, [11554]); (4291, [11555]); (4292, [11556]); (4293, [11557]);
   (4295, [11559]); (4301, [11565]); (5024, [43888]); (5025, [43889]);
   (5026, [43890]); (5027, [43891]); (5028, [43892]); (5029, [43893]);
   (5030, [43894]); (5031, [43895]); (5032, [43896]); (5033, [43897]);
   (5034, [43898]); (5035, [43899]); (5036, [43900]); (5037, [43901]);
   (5038, [43902]); (5039, [43903]); (5040, [43904]); (5041, [43905]);
   (5042, [43906]); (5043, [43907]); (5044, [43908]); (5045, [43909]);
   (5046, [43910]); (5047, [43911]); (5048, [43912]); (5049, [43913]);
   (5050, [43914]); (5051, [43915]); (5052, [43916]); (5053, [43917]);
   (5054, [43918]); (5055, [43919]); (5056, [43920]); (5057, [43921]);
   (5058, [43922]); (5059, [43923]); (5060, [43924]); (5061, [43925]);
   (5062, [43926]); (5063, [43927]); (5064, [43928]); (5065, [43929]);
   (5066, [43930]); (5067, [43931]); (5068, [43932]); (5069, [43933]);
   (5070, [43934]); (5071, [43935]); (5072, [43936]); (5073, [43937]);
   (5074, [43938]); (5075, [43939]); (5076, [43940]); (5077, [43941]);
   (5078, [43942]); (5079, [43943]); (5080, [43944]); (5081, [43945]);
   (5082, [43946]); (5083, [43947]); (5084, [43948]); (5085, [43949]);
   (5086, [43950]); (5087, [43951]); (5088, [43952]); (5089, [43953]);
   (5090, [43954]); (5091, [43955]); (5092, [43956]); (5093, [43957]);
   (5094, [43958]); (5095, [43959]); (5096, [43960]); (5097, [43961]);
   (5098, [43962]); (5099, [43963]); (5100, [43964]); (5101, [43965]);
   (5102, [43966]); (5103, [43967]); (5104, [5112]); (5105, [5113]);
   (5106, [5114]); (5107, [5115]); (5108, [5116]); (5109, [5117]);
   (7312, [4304]); (7313, [4305]); (7314, [4306]); (7315, [4307]);
   (7316, [4308]); (7317, [4309]); (7318, [4310]); (7319, [4311]);
   (7320, [4312]); (7321, [4313]); (7322, [4314]); (7323, [4315]);
   (7324, [4316]); (7325, [4317]); (7326, [4318]); (7327, [4319]);
   (7328, [4320]); (7329, [4321]); (7330, [4322]); (7331, [4323]);
   (7332, [4324]); (7333, [4325]); (7334, [4326]); (7335, [4327]);
   (7336, [4328]); (7337, [4329]); (7338, [4330]); (7339, [4331]);
   (7340, [4332]); (7341, [4333]); (7342, [4334]); (7343, [4335]);
   (7344, [4336]); (7345, [4337]); (7346, [4338]); (7347, [4339]);
   (7348, [4340]); (7349, [4341]); (7350, [4342]); (7351, [4343]);
   (7352, [4344]); (7353, [4345]); (7354, [4346]); (7357, [4349]);
   (7358, [4350]); (7359, [4351]); (7680, [7681]); (7682, [7683]);
   (7684, [7685]); (7686, [7687]); (7688, [7689]); (7690, [7691]);
   (7692, [7693]); (7694, [7695]); (7696, [7697]); (7698, [7699]);
   (7700, [7701]); (7702, [7703]); (7704, [7705]); (7706, [7707]);
   (7708, [7709]); (7710, [7711]); (7712, [7713]); (7714, [7715]);
   (7716, [7717]); (7718, [7719]); (7720, [7721]); (7722, [7723]);
   (7724, [7725]); (7726, [7727]); (7728, [7729]); (7730, [7731]);
   (7732, [7733]); (7734, [7735]); (7736, [7737]); (7738, [7739]);
   (7740, [7741]); (7742, [7743]); (7744, [7745]); (7746, [7747]);
   (7748, [7749]); (7750, [7751]); (7752, [7753]); (7754, [7755]);
   (7756, [7757]); (7758, [7759]); (7760, [7761]); (7762, [7763]);
   (7764, [7765]); (7766, [7767]); (7768, [7769]); (7770, [7771]);
   (7772, [7773]); (7774, [7775]); (7776, [7777]); (7778, [7779]);
   (7780, [7781]); (7782, [7783]); (7784, [7785]); (7786, [7787]);
   (7788, [7789]); (7790, [7791]); (7792, [7793]); (7794, [7795]);
   (7796, [7797]); (7798, [7799]); (7800, [7801]); (7802, [7803]);
   (7804, [7805]); (7806, [7807]); (7808, [7809]); (7810, [7811]);
   (7812, [7813]); (7814, [7815]); (7816, [7817]); (7818, [7819]);
   (7820, [7821]); (7822, [7823]); (7824, [7825]); (7826, [7827]);
   (7828, [7829]); (7838, [223]); (7840, [7841]); (7842, [7843]);
   (7844, [7845]); (7846, [7847]); (7848, [7849]); (7850, [7851]);
   (7852, [7853]); (7854, [7855]); (7856, [7857]); (7858, [7859]);
   (7860, [7861]); (7862, [7863]); (7864, [7865]); (7866, [7867]);
   (7868, [7869]); (7870, [7871]); (7872, [7873]); (7874, [7875]);
   (7876, [7877]); (7878, [7879]); (7880, [7881]); (7882, [7883]);
   (7884, [7885]); (7886, [7887]); (7888, [7889]); (7890, [7891]);
   (7892, [7893]); (7894, [7895]); (7896, [7897]); (7898, [7899]);
   (7900, [7901]); (7902, [7903]); (7904, [7905]); (7906, [7907]);
   (7908, [7909]); (7910, [7911]); (7912, [7913]); (7914, [7915]);
   (7916, [7917]); (7918, [7919]); (7920, [7921]); (7922, [7923]);
   (7924, [7925]); (7926, [7927]); (7928, [7929]); (7930, [7931]);
   (7932, [7933]); (7934, [7935]); (7944, [7936]); (7945, [7937]);
   (7946, [7938]); (7947, [7939]); (7948, [7940]); (7949, [7941]);
   (7950, [7942]); (7951, [7943]); (7960, [7952]); (7961, [7953]);
   (7962, [7954]); (7963, [7955]); (7964, [7956]); (7965, [7957]);
   (7976, [7968]); (7977, [7969]); (7978, [7970]); (7979, [7971]);
   (7980, [7972]); (7981, [7973]); (7982, [7974]); (7983, [7975]);
   (7992, [7984]); (7993, [7985]); (7994, [7986]); (7995, [7987]);
   (7996, [7988]); (7997, [7989]); (7998, [7990]); (7999, [7991]);
   (8008, [8000]); (8009, [8001]); (8010, [8002]); (8011, [8003]);
   (8012, [8004]); (8013, [8005]); (8025, [8017]); (8027, [8019]);
   (8029, [8021]); (8031, [8023]); (8040, [8032]); (8041, [8033]);
   (8042, [8034]); (8043, [8035]); (8044, [8036]); (8045, [8037]);
   (8046, [8038]); (8047, [8039]); (8072, [8064]); (8073, [8065]);
   (8074, [8066]); (8075, [8067]); (8076, [8068]); (8077, [8069]);
   (8078, [8070]); (8079, [8071]); (8088, [8080]); (8089, [8081]);
   (8090, [8082]); (8091, [8083]); (8092, [8084]); (8093, [8085]);
   (8094, [8086]); (8095, [8087]); (8104, [8096]); (8105, [8097]);
   (8106, [8098]); (8107, [8099]); (8108, [8100]); (8109, [8101]);
   (8110, [8102]); (8111, [8103]); (8120, [8112]); (8121, [8113]);
   (8122, [8048]); (8123, [8049]); (8124, [8115]); (8136, [8050]);
   (8137, [8051]); (8138, [8052]); (8139, [8053]); (8140, [8131]);
   (8152, [8144]); (8153, [8145]); (8154, [8054]); (8155, [8055]);
   (8168, [8160]); (8169, [8161]); (8170, [8058]); (8171, [8059]);
   (8172, [8165]); (8184, [8056]); (8185, [8057]); (8186, [8060]);
   (8187, [8061]); (8188, [8179]); (8486, [969]); (8490, [107]);
   (8491, [229]); (8498, [8526]); (8544, [8560]); (8545, [8561]);
   (8546, [8562]); (8547, [8563]); (8548, [8564]); (8549, [8565]);
   (8550, [8566]); (8551, [8567]); (8552, [8568]); (8553, [8569]);
   (8554, [8570]); (8555, [8571]); (8556, [8572]); (8557, [8573]);
   (8558, [8574]); (8559, [8575]); (8579, [8580]); (9398, [9424]);
   (9399, [9425]); (9400, [9426]); (9401, [9427]); (9402, [9428]);
   (9403, [9429]); (9404, [9430]); (9405, [9431]); (9406, [9432]);
   (9407, [9433]); (9408, [9434]); (9409, [9435]); (9410, [9436]);
   (9411, [9437]); (9412, [9438]); (9413, [9439]); (9414, [9440]);
   (9415, [9441]); (9416, [9442]); (9417, [9443]); (9418, [9444]);
   (9419, [9445]); (9420, [9446]); (9421, [9447]); (9422, [9448]);
   (9423, [9449]); (11264, [11312]); (11265, [11313]); (11266, [11314]);
   (11267, [11315]); (11268, [11316]); (11269, [11317]); (11270, [11318]);
   (11271, [11319]); (11272, [11320]); (11273, [11321]); (11274, [11322]);
   (11275, [11323]); (11276, [11324]); (11277, [11325]); (11278, [11326]);
   (11279, [11327]); (11280, [11328]); (11281, [11329]); (11282, [11330]);
   (11283, [11331]); (11284, [11332]); (11285, [11333]); (11286, [11334]);
   (11287, [11335]); (11288, [11336]); (11289, [11337]); (11290, [11338]);
   (11291, [11339]); (11292, [11340]); (11293, [11341]); (11294, [11342]);
   (11295, [11343]); (11296, [11344]); (11297, [11345]); (11298, [11346]);
   (11299, [11347]); (11300, [11348]); (11301, [11349]); (11302, [11350]);
   (11303, [11351]); (11304, [11352]); (11305, [11353]); (11306, [11354]);
   (11307, [11355]); (11308, [11356]); (11309, [11357]); (11310, [11358]);
   (11311, [11359]); (11360, [11361]); (11362, [619]); (11363, [7549]);
   (11364, [637]); (11367, [11368]); (11369, [11370]); (11371, [11372]);
   (11373, [593]); (11374, [625]); (11375, [592]); (11376, [594]);
   (11378, [11379]); (11381, [11382]); (11390, [575]); (11391, [576]);
   (11392, [11393]); (11394, [11395]); (11396, [11397]); (11398, [11399]);
   (11400, [11401]); (11402, [11403]); (11404, [11405]); (11406, [11407]);
   (11408, [11409]); (11410, [11411]); (11412, [11413]); (11414, [11415]);
   (11416, [11417]); (11418, [11419]); (11420, [11421]); (11422, [11423]);
   (11424, [11425]); (11426, [11427]); (11428, [11429]); (11430, [11431]);
   (11432, [11433]); (11434, [11435]); (11436, [11437]); (11438, [11439]);
   (11440, [11441]); (11442, [11443]); (11444, [11445]); (11446, [11447]);
   (11448, [11449]); (11450, [11451]); (11452, [11453]); (11454, [11455]);
   (11456, [11457]); (11458, [11459]); (11460, [11461]); (11462, [11463]);
   (11464, [11465]); (11466, [11467]); (11468, [11469]); (11470, [11471]);
   (11472, [11473]); (11474, [11475]); (11476, [11477]); (11478, [11479]);
   (11480, [11481]); (11482, [11483]); (11484, [11485]); (11486, [11487]);
   (11488, [11489]); (11490, [11491]); (11499, [11500]); (11501, [11502]);
   (11506, [11507]); (42560, [42561]); (42562, [42563]); (42564, [42565]);
   (42566, [42567]); (42568, [42569]); (42570, [42571]); (42572, [42573]);
   (42574, [42575]); (42576, [42577]); (42578, [42579]); (42580, [42581]);
   (42582, [42583]); (42584, [42585]); (42586, [42587]); (42588, [42589]);
   (42590, [42591]); (42592, [42593]); (42594, [42595]); (42596, [42597]);
   (42598, [42599]); (42600, [42601]); (42602, [42603]); (42604, [42605]);
   (42624, [42625]); (42626, [42627]); (42628, [42629]); (42630, [42631]);
   (42632, [42633]); (42634, [42635]); (42636, [42637]); (42638, [42639]);
   (42640, [42641]); (42642, [42643]); (42644, [42645]); (42646, [42647]);
   (42648, [42649]); (42650, [42651]); (42786, [42787]); (42788, [42789]);
   (42790, [42791]); (42792, [42793]); (42794, [42795]); (42796, [42797]);
   (42798, [42799]); (42802, [42803]); (42804, [42805]); (42806, [42807]);
   (42808, [42809]); (42810, [42811]); (42812, [42813]); (42814, [42815]);
   (42816, [42817]); (42818, [42819]); (42820, [42821]); (42822, [42823]);
   (42824, [42825]); (42826, [42827]); (42828, [42829]); (42830, [42831]);
   (42832, [42833]); (42834, [42835]); (42836, [42837]); (42838, [42839]);
   (42840, [42841]); (42842, [42843]); (42844, [42845]); (42846, [42847]);
   (42848, [42849]); (42850, [42851]); (42852, [42853]); (42854, [42855]);
   (42856, [42857]); (42858, [42859]); (42860, [42861]); (42862, [42863]);
   (42873, [42874]); (42875, [42876]); (42877, [7545]); (42878, [42879]);
   (42880, [42881]); (42882, [42883]); (42884, [42885]); (42886, [42887]);
   (42891, [42892]); (42893, [613]); (42896, [42897]); (42898, [42899]);
   (42902, [42903]); (42904, [42905]); (42906, [42907]); (42908, [42909]);
   (42910, [42911]); (42912, [42913]); (42914, [42915]); (42916, [42917]);
   (42918, [42919]); (42920, [42921]); (42922, [614]); (42923, [604]);
   (42924, [609]); (42925, [620]); (42926, [618]); (42928, [670]);
   (42929, [647]); (42930, [669]); (42931, [43859]); (42932, [42933]);
   (42934, [42935]); (42936, [42937]); (42938, [42939]); (42940, [42941]);
   (42942, [42943]); (42944, [42945]); (42946, [42947]); (42948, [42900]);
   (42949, [642]); (42950, [7566]); (42951, [42952]); (42953, [42954]);
   (42960, [42961]); (42966, [42967]); (42968, [42969]); (42997, [42998]);
   (65313, [65345]); (65314, [65346]); (65315, [65347]); (65316, [65348]);
   (65317, [65349]); (65318, [65350]); (65319, [65351]); (65320, [65352]);
   (65321, [65353]); (65322, [65354]); (65323, [65355]); (65324, [65356]);
   (65325, [65357]); (65326, [65358]); (65327, [65359]); (65328, [65360]);
   (65329, [65361]); (65330, [65362]); (65331, [65363]); (65332, [65364]);
   (65333, [65365]); (65334, [65366]); (65335, [65367]); (65336, [65368]);
   (65337, [65369]); (65338, [65370]); (66560, [66600]); (66561, [66601]);
   (66562, [66602]); (66563, [66603]); (66564, [66604]); (66565, [66605]);
   (66566, [66606]); (66567, [66607]); (66568, [66608]); (66569, [66609]);
   (66570, [66610]); (66571, [66611]); (66572, [66612]); (66573, [66613]);
   (66574, [66614]); (66575, [66615]); (66576, [66616]); (66577, [66617]);
   (66578, [66618]); (66579, [66619]); (66580, [66620]); (66581, [66621]);
   (66582, [66622]); (66583, [66623]); (66584, [66624]); (66585, [66625]);
   (66586, [66626]); (66587, [66627]); (66588, [66628]); (66589, [66629]);
   (66590, [66630]); (66591, [66631]); (66592, [66632]); (66593, [66633]);
   (66594, [66634]); (66595, [66635]); (66596, [66636]); (66597, [66637]);
   (66598, [66638]); (66599, [66639]); (66736, [66776]); (66737, [66777]);
   (66738, [66778]); (66739, [66779]); (66740, [66780]); (66741, [66781]);
   (66742, [66782]); (66743, [66783]); (66744, [66784]); (66745, [66785]);
   (66746, [66786]); (66747, [66787]); (66748, [66788]); (66749, [66789]);
   (66750, [66790]); (66751, [66791]); (66752, [66792]); (66753, [66793]);
   (66754, [66794]); (66755, [66795]); (66756, [66796]); (66757, [66797]);
   (66758, [66798]); (66759, [66799]); (66760, [66800]); (66761, [66801]);
   (66762, [66802]); (66763, [66803]); (66764, [66804]); (66765, [66805]);
   (66766, [66806]); (66767, [66807]); (66768, [66808]); (66769, [66809]);
   (66770, [66810]); (66771, [66811]); (66928, [66967]); (66929, [66968]);
   (66930, [66969]); (66931, [66970]); (66932, [66971]); (66933, [66972]);
   (66934, [66973]); (66935, [66974]); (66936, [66975]); (66937, [66976]);
   (66938, [66977]); (66940, [66979]); (66941, [66980]); (66942, [66981]);
   (66943, [66982]); (66944, [66983]); (66945, [66984]); (66946, [66985]);
   (66947, [66986]); (66948, [66987]); (66949, [66988]); (66950, [66989]);
   (66951, [66990]); (66952, [66991]); (66953, [66992]); (66954, [66993]);
   (66956, [66995]); (66957, [66996]); (66958, [66997]); (66959, [66998]);
   (66960, [66999]); (66961, [67000]); (66962, [67001]); (66964, [67003]);
   (66965, [67004]); (68736, [68800]); (68737, [68801]); (68738, [68802]);
   (68739, [68803]); (68740, [68804]); (68741, [68805]); (68742, [68806]);
   (68743, [68807]); (68744, [68808]); (68745, [68809]); (68746, [68810]);
   (68747, [68811]); (68748, [68812]); (68749, [68813]); (68750, [68814]);
   (68751, [68815]); (68752, [68816]); (68753, [68817]); (68754, [68818]);
   (68755, [68819]); (68756, [68820]); (68757, [68821]); (68758, [68822]);
   (68759, [68823]); (68760, [68824]); (68761, [68825]); (68762, [68826]);
   (68763, [68827]); (68764, [68828]); (68765, [68829]); (68766, [68830]);
   (68767, [68831]); (68768, [68832]); (68769, [68833]); (68770, [68834]);
   (68771, [68835]); (68772, [68836]); (68773, [68837]); (68774, [68838]);
   (68775, [68839]); (68776, [68840]); (68777, [68841]); (68778, [68842]);
   (68779, [68843]); (68780, [68844]); (68781, [68845]); (68782, [68846]);
   (68783, [68847]); (68784, [68848]); (68785, [68849]); (68786, [68850]);
   (71840, [71872]); (71841, [71873]); (71842, [71874]); (71843, [71875]);
   (71844, [71876]); (71845, [71877]); (71846, [71878]); (71847, [71879]);
   (71848, [71880]); (71849, [71881]); (71850, [71882]); (71851, [71883]);
   (71852, [71884]); (71853, [71885]); (71854, [71886]); (71855, [71887]);
   (71856, [71888]); (71857, [71889]); (71858, [71890]); (71859, [71891]);
   (71860, [71892]); (71861, [71893]); (71862, [71894]); (71863, [71895]);
   (71864, [71896]); (71865, [71897]); (71866, [71898]); (71867, [71899]);
   (71868, [71900]); (71869, [71901]); (71870, [71902]); (71871, [71903]);
   (93760, [93792]); (93761, [93793]); (93762, [93794]); (93763, [93795]);
   (93764, [93796]); (93765, [93797]); (93766, [93798]); (93767, [93799]);
   (93768, [93800]); (93769, [93801]); (93770, [93802]); (93771, [93803]);
   (93772, [93804]); (93773, [93805]); (93774, [93806]); (93775, [93807]);
   (93776, [93808]); (93777, [93809]); (93778, [93810]); (93779, [93811]);
   (93780, [93812]); (93781, [93813]); (93782, [93814]); (93783, [93815]);
   (93784, [93816]); (93785, [93817]); (93786, [93818]); (93787, [93819]);
   (93788, [93820]); (93789, [93821]); (93790, [93822]); (93791, [93823]);
   (125184, [125218]); (125185, [125219]); (125186, [125220]);
   (125187, [125221]); (125188, [125222]); (125189, [125223]);
   (125190, [125224]); (125191, [125225]); (125192, [125226]);
   (125193, [125227]); (125194, [125228]); (125195, [125229]);
   (125196, [125230]); (125197, [125231]); (125198, [125232]);
   (125199, [125233]); (125200, [125234]); (125201, [125235]);
   (125202, [125236]); (125203, [125237]); (125204, [125238]);
   (125205, [125239]); (125206, [125240]); (125207, [125241]);
   (125208, [125242]); (125209, [125243]); (125210, [125244]);
   (125211, [125245]); (125212, [125246]); (125213, [125247]);
   (125214, [125248]); (125215, [125249]); (125216, [125250]);
   (125217, [125251])
  ]%N.

(** The ranges of the Case_Ignorable code points. *)
Definition case_ignorable : list (codepoint * codepoint) :=
  [
   (39, 39); (46, 46); (58, 58); (94, 94); (96, 96); (168, 168); (173, 173);
   (175, 175); (180, 180); (183, 184); (688, 879); (884, 885); (890, 890);
   (900, 901); (903, 903); (1155, 1161); (1369, 1369); (1375, 1375);
   (1425, 1469); (1471, 1471); (1473, 1474); (1476, 1477); (1479, 1479);
   (1524, 1524); (1536, 1541); (1552, 1562); (1564, 1564); (1600, 1600);
   (1611, 1631); (1648, 1648); (1750, 1757); (1759, 1768); (1770, 1773);
   (1807, 1807); (1809, 1809); (1840, 1866); (1958, 1968); (2027, 2037);
   (2042, 2042); (2045, 2045); (2070, 2093); (2137, 2139); (2184, 2184);
   (2192, 2193); (2200, 2207); (2249, 2306); (2362, 2362); (2364, 2364);
   (2369, 2376); (2381, 2381); (2385, 2391); (2402, 2403); (2417, 2417);
   (2433, 2433); (2492, 2492); (2497, 2500); (2509, 2509); (2530, 2531);
   (2558, 2558); (2561, 2562); (2620, 2620); (2625, 2626); (2631, 2632);
   (2635, 2637); (2641, 2641); (2672, 2673); (2677, 2677); (2689, 2690);
   (2748, 2748); (2753, 2757); (2759, 2760); (2765, 2765); (2786, 2787);
   (2810, 2815); (2817, 2817); (2876, 2876); (2879, 2879); (2881, 2884);
   (2893, 2893); (2901, 2902); (2914, 2915); (2946, 2946); (3008, 3008);
   (3021, 3021); (3072, 3072); (3076, 3076); (3132, 3132); (3134, 3136);
   (3142, 3144); (3146, 3149); (3157, 3158); (3170, 3171); (3201, 3201);
   (3260, 3260); (3263, 3263); (3270, 3270); (3276, 3277); (3298, 3299);
   (3328, 3329); (3387, 3388); (3393, 3396); (3405, 3405); (3426, 3427);
   (3457, 3457); (3530, 3530); (3538, 3540); (3542, 3542); (3633, 3633);
   (3636, 3642); (3654, 3662); (3761, 3761); (3764, 3772); (3782, 3782);
   (3784, 3789); (3864, 3865); (3893, 3893); (3895, 3895); (3897, 3897);
   (3953, 3966); (3968, 3972); (3974, 3975); (3981, 3991); (3993, 4028);
   (4038, 4038); (4141, 4144); (4146, 4151); (4153, 4154); (4157, 4158);
   (4184, 4185); (4190, 4192); (4209, 4212); (4226, 4226); (4229, 4230);
   (4237, 4237); (4253, 4253); (4348, 4348); (4957, 4959); (5906, 5908);
   (5938, 5939); (5970, 5971); (6002, 6003); (6068, 6069); (6071, 6077);
   (6086, 6086); (6089, 6099); (6103, 6103); (6109, 6109); (6155, 6159);
   (6211, 6211); (6277, 6278); (6313, 6313); (6432, 6434); (6439, 6440);
   (6450, 6450); (6457, 6459); (6679, 6680); (6683, 6683); (6742, 6742);
   (6744, 6750); (6752, 6752); (6754, 6754); (6757, 6764); (6771, 6780);
   (6783, 6783); (6823, 6823); (6832, 6862); (6912, 6915); (6964, 6964);
   (6966, 6970); (6972, 6972); (6978, 6978); (7019, 7027); (7040, 7041);
   (7074, 7077); (7080, 7081); (7083, 7085); (7142, 7142); (7144, 7145);
   (7149, 7149); (7151, 7153); (7212, 7219); (7222, 7223); (7288, 7293);
   (7376, 7378); (7380, 7392); (7394, 7400); (7405, 7405); (7412, 7412);
   (7416, 7417); (7468, 7530); (7544, 7544); (7579, 7679); (8125, 8125);
   (8127, 8129); (8141, 8143); (8157, 8159); (8173, 8175); (8189, 8190);
   (8203, 8207); (8216, 8217); (8228, 8228); (8231, 8231); (8234, 8238);
   (8288, 8292); (8294, 8303); (8305, 8305); (8319, 8319); (8336, 8348);
   (8400, 8432); (11388, 11389); (11503, 11505); (11631, 11631);
   (11647, 11647); (11744, 11775); (11823, 11823); (12293, 12293);
   (12330, 12333); (12337, 12341); (12347, 12347); (12441, 12446);
   (12540, 12542); (40981, 40981); (42232, 42237); (42508, 42508);
   (42607, 42610); (42612, 42621); (42623, 42623); (42652, 42655);
   (42736, 42737); (42752, 42785); (42864, 42864); (42888, 42890);
   (42994, 42996); (43000, 43001); (43010, 43010); (43014, 43014);
   (43019, 43019); (43045, 43046); (43052, 43052); (43204, 43205);
   (43232, 43249); (43263, 43263); (43302, 43309); (43335, 43345);
   (43392, 43394); (43443, 43443); (43446, 43449); (43452, 43453);
   (43471, 43471); (43493, 43494); (43561, 43566); (43569, 43570);
   (43573, 43574); (43587, 43587); (43596, 43596); (43632, 43632);
   (43644, 43644); (43696, 43696); (43698, 43700); (43703, 43704);
   (43710, 43711); (43713, 43713); (43741, 43741); (43756, 43757);
   (43763, 43764); (43766, 43766); (43867, 43871); (43881, 43883);
   (44005, 44005); (44008, 44008); (44013, 44013); (64286, 64286);
   (64434, 64450); (65024, 65039); (65043, 65043); (65056, 65071);
   (65106, 65106); (65109, 65109); (65279, 65279); (65287, 65287);
   (65294, 65294); (65306, 65306); (65342, 65342); (65344, 65344);
   (65392, 65392); (65438, 65439); (65507, 65507); (65529, 65531);
   (66045, 66045); (66272, 66272); (66422, 66426); (67456, 67461);
   (67463, 67504); (67506, 67514); (68097, 68099); (68101, 68102);
   (68108, 68111); (68152, 68154); (68159, 68159); (68325, 68326);
   (68900, 68903); (69291, 69292); (69446, 69456); (69506, 69509);
   (69633, 69633); (69688, 69702); (69744, 69744); (69747, 69748);
   (69759, 69761); (69811, 69814); (69817, 69818); (69821, 69821);
   (69826, 69826); (69837, 69837); (69888, 69890); (69927, 69931);
   (69933, 69940); (70003, 70003); (70016, 70017); (70070, 70078);
   (70089, 70092); (70095, 70095); (70191, 70193); (70196, 70196);
   (70198, 70199); (70206, 70206); (70367, 70367); (70371, 70378);
   (70400, 70401); (70459, 70460); (70464, 70464); (70502, 70508);
   (70512, 70516); (70712, 70719); (70722, 70724); (70726, 70726);
   (70750, 70750); (70835, 70840); (70842, 70842); (70847, 70848);
   (70850, 70851); (71090, 71093); (71100, 71101); (71103, 71104);
   (71132, 71133); (71219, 71226); (71229, 71229); (71231, 71232);
   (71339, 71339); (71341, 71341); (71344, 71349); (71351, 71351);
   (71453, 71455); (71458, 71461); (71463, 71467); (71727, 71735);
   (71737, 71738); (71995, 71996); (71998, 71998); (72003, 72003);
   (72148, 72151); (72154, 72155); (72160, 72160); (72193, 72202);
   (72243, 72248); (72251, 72254); (72263, 72263); (72273, 72278);
   (72281, 72283); (72330, 72342); (72344, 72345); (72752, 72758);
   (72760, 72765); (72767, 72767); (72850, 72871); (72874, 72880);
   (72882, 72883); (72885, 72886); (73009, 73014); (73018, 73018);
   (73020, 73021); (73023, 73029); (73031, 73031); (73104, 73105);
   (73109, 73109); (73111, 73111); (73459, 73460); (78896, 78904);
   (92912, 92916); (92976, 92982); (92992, 92995); (94031, 94031);
   (94095, 94111); (94176, 94177); (94179, 94180); (110576, 110579);
   (110581, 110587); (110589, 110590); (113821, 113822); (113824, 113827);
   (118528, 118573); (118576, 118598); (119143, 119145); (119155, 119170);
   (119173, 119179); (119210, 119213); (119362, 119364); (121344, 121398);
   (121403, 121452); (121461, 121461); (121476, 121476); (121499, 121503);
   (121505, 121519); (122880, 122886); (122888, 122904); (122907, 122913);
   (122915, 122916); (122918, 122922); (123184, 123197); (123566, 123566);
   (123628, 123631); (125136, 125142); (125252, 125259); (127995, 127999);
   (917505, 917505); (917536, 917631); (917760, 917999)
  ]%N.

(** The ranges of the Cased code points that are not Case_Ignorable; the
    property is consulted for such code points only. *)
Definition cased : list (codepoint * codepoint) :=
  [
   (65, 90); (97, 122); (170, 170); (181, 181); (186, 186); (192, 214);
   (216, 246); (248, 442); (444, 447); (452, 659); (661, 687); (880, 883);
   (886, 887); (891, 893); (895, 895); (902, 902); (904, 906); (908, 908);
   (910, 929); (931, 1013); (1015, 1153); (1162, 1327); (1329, 1366);
   (1376, 1416); (4256, 4293); (4295, 4295); (4301, 4301); (4304, 4346);
   (4349, 4351); (5024, 5109); (5112, 5117); (7296, 7304); (7312, 7354);
   (7357, 7359); (7424, 7467); (7531, 7543); (7545, 7578); (7680, 7957);
   (7960, 7965); (7968, 8005); (8008, 8013); (8016, 8023); (8025, 8025);
   (8027, 8027); (8029, 8029); (8031, 8061); (8064, 8116); (8118, 8124);
   (8126, 8126); (8130, 8132); (8134, 8140); (8144, 8147); (8150, 8155);
   (8160, 8172); (8178, 8180); (8182, 8188); (8450, 8450); (8455, 8455);
   (8458, 8467); (8469, 8469); (8473, 8477); (8484, 8484); (8486, 8486);
   (8488, 8488); (8490, 8493); (8495, 8500); (8505, 8505); (8508, 8511);
   (8517, 8521); (8526, 8526); (8544, 8575); (8579, 8580); (9398, 9449);
   (11264, 11387); (11390, 11492); (11499, 11502); (11506, 11507);
   (11520, 11557); (11559, 11559); (11565, 11565); (42560, 42605);
   (42624, 42651); (42786, 42863); (42865, 42887); (42891, 42894);
   (42896, 42954); (42960, 42961); (42963, 42963); (42965, 42969);
   (42997, 42998); (43002, 43002); (43824, 43866); (43872, 43880);
   (43888, 43967); (64256, 64262); (64275, 64279); (65313, 65338);
   (65345, 65370); (66560, 66639); (66736, 66771); (66776, 66811);
   (66928, 66938); (66940, 66954); (66956, 66962); (66964, 66965);
   (66967, 66977); (66979, 66993); (66995, 67001); (67003, 67004);
   (68736, 68786); (68800, 68850); (71840, 71903); (93760, 93823);
   (119808, 119892); (119894, 119964); (119966, 119967); (119970, 119970);
   (119973, 119974); (119977, 119980); (119982, 119993); (119995, 119995);
   (119997, 120003); (120005, 120069); (120071, 120074); (120077, 120084);
   (120086, 120092); (120094, 120121); (120123, 120126); (120128, 120132);
   (120134, 120134); (120138, 120144); (120146, 120485); (120488, 120512);
   (120514, 120538); (120540, 120570); (120572, 120596); (120598, 120628);
   (120630, 120654); (120656, 120686); (120688, 120712); (120714, 120744);
   (120746, 120770); (120772, 120779); (122624, 122633); (122635, 122654);
   (125184, 125251); (127280, 127305); (127312, 127337); (127344, 127369)
  ]%N.

Definition in_ranges (c : codepoint) (ranges : list (codepoint * codepoint))
    : bool :=
  existsb (fun r => (fst r <=? c)%N && (c <=? snd r)%N) ranges.

Definition is_case_ignorable (c : codepoint) : bool :=
  in_ranges c case_ignorable.

Definition is_cased (c : codepoint) : bool := in_ranges c cased.

Fixpoint assoc (c : codepoint) (table : list (codepoint * list codepoint))
    : option (list codepoint) :=
  match table with
  | [] => None
  | (k, v) :: table' => if (k =? c)%N then Some v else assoc c table'
  end.

(** The full lower-case mapping of one code point. *)
Definition to_lower_full (c : codepoint) : list codepoint :=
  match assoc c lowercase_mapping with
  | Some mapped => mapped
  | None => [c]
  end.

(** GREEK CAPITAL LETTER SIGMA and its two lower-case forms. *)
Definition capital_sigma : codepoint := 931%N.
Definition small_sigma : codepoint := 963%N.
Definition small_final_sigma : codepoint := 962%N.

End Unicode.

(** The first code point of [s] that is not case-ignorable. *)
Fixpoint skip_case_ignorable (s : str) : option codepoint :=
  match s with
  | [] => None
  | c :: s' =>
      if Unicode.is_case_ignorable c then skip_case_ignorable s' else Some c
  end.

(** The lower-case form of a capital sigma: the final form when a cased
    code point comes before it and none comes after it, case-ignorable
    code points skipped.  [before] holds the code points before the
    sigma, the nearest first. *)
Definition handle_capital_sigma (before after : str) : codepoint :=
  let final_sigma :=
    match skip_case_ignorable before with
    | Some c =>
        Unicode.is_cased c &&
        match skip_case_ignorable after with
        | Some c' => negb (Unicode.is_cased c')
        | None => true
        end
    | None => false
    end in
  if final_sigma then Unicode.small_final_sigma else Unicode.small_sigma.

(** [s.lower()]: every code point is replaced by its full lower-case
    mapping, the capital sigma by the form its context asks for. *)
Fixpoint lower_from (before s : str) : str :=
  match s with
  | [] => []
  | c :: s' =>
      (if (c =? Unicode.capital_sigma)%N
       then [handle_capital_sigma before s']
       else Unicode.to_lower_full c)
      ++ lower_from (c :: before) s'
  end.

Definition lower (s : str) : str := lower_from [] s.

(** [np.arange(n)] and the reversing slice [[::-1]]. *)
Definition arange (n : nat) : list Z := map Z.of_nat (seq 0 n).

(** [np.mean] of a short list of floats: the left-to-right sum divided by
    the number of elements, in binary64; [nan] for the empty list. *)
Definition np_mean (xs : list float) : float :=
  match xs with
  | [] => F64.nan
  | x :: rest =>
      F64.div (fold_left F64.add rest x) (F64.of_Z (Z.of_nat (List.length xs)))
  end.

(** A [while cond: body] loop.  [fuel] bounds the number of iterations;
    [None] means the bound was reached with the condition still true. *)
Fixpoint while {S : Type} (cond : S -> bool) (body : S -> result S)
    (fuel : nat) (s : S) : option (result S) :=
  if cond s then
    match fuel with
    | O => None
    | Datatypes.S fuel' =>
        match body s with
        | Ok s' => while cond body fuel' s'
        | Raise e => Some (Raise e)
        end
    end
  else Some (Ok s).

(** The state after [n] iterations of a loop body. *)
Fixpoint iterate {S : Type} (n : nat) (body : S -> result S) (s : S)
    : result S :=
  match n with
  | O => Ok s
  | Datatypes.S n' => s' <- body s ;; iterate n' body s'
  end.

(* ================================================================== *)
(** * The module [dstkit.geohash] *)
(* ================================================================== *)

Definition geohash_base32 : str := text "0123456789bcdefghjkmnpqrstuvwxyz".

(** The float literals of the module. *)
Definition f2 : float := F64.of_Z 2.
Definition f90 : float := F64.of_Z 90.
Definition f180 : float := F64.of_Z 180.

(** ** Data *)

(** [{'lat': _, 'lon': _}] *)
Record coord : Type := { lat : float; lon : float }.

(** [{'sw': _, 'ne': _}] *)
Record bounds : Type := { sw : coord; ne : coord }.

(** ** [get_bounds] *)

Module GetBounds.

(** The local variables of [get_bounds]. *)
Record state : Type := {
  even_bit : bool;
  latitude_min : float;
  latitude_max : float;
  longitude_min : float;
  longitude_max : float
}.

Definition init : state :=
  {| even_bit := true;
     latitude_min := F64.neg f90;
     latitude_max := f90;
     longitude_min := F64.neg f180;
     longitude_max := f180 |}.

Definition nvals : list Z := rev (arange 5).

(** The body of [for n in nvals]. *)
Definition bisect (index n : Z) (st : state) : state :=
  let bitN := Z.land (Z.shiftr index n) 1 in
  let st' :=
    if even_bit st then
      let longitude_midpoint :=
        F64.div (F64.add (longitude_min st) (longitude_max st)) f2 in
      if bitN =? 1 then
        {| even_bit := even_bit st;
           latitude_min := latitude_min st;
           latitude_max := latitude_max st;
           longitude_min := longitude_midpoint;
           longitude_max := longitude_max st |}
      else
        {| even_bit := even_bit st;
           latitude_min := latitude_min st;
           latitude_max := latitude_max st;
           longitude_min := longitude_min st;
           longitude_max := longitude_midpoint |}
    else
      let latitude_midpoint :=
        F64.div (F64.add (latitude_min st) (latitude_max st)) f2 in
      if bitN =? 1 then
        {| even_bit := even_bit st;
           latitude_min := latitude_midpoint;
           latitude_max := latitude_max st;
           longitude_min := longitude_min st;
           longitude_max := longitude_max st |}
      else
        {| even_bit := even_bit st;
           latitude_min := latitude_min st;
           latitude_max := latitude_midpoint;
           longitude_min := longitude_min st;
           longitude_max := longitude_max st |} in
  {| even_bit := negb (even_bit st');
     latitude_min := latitude_min st';
     latitude_max := latitude_max st';
     longitude_min := longitude_min st';
     longitude_max := longitude_max st' |}.

(** The body of [for character in geohash]. *)
Definition character_step (st : state) (character : codepoint) : result state :=
  let index := find geohash_base32 character in
  if index =? -1 then Raise (ValueError "Invalid geohash.")
  else Ok (fold_left (fun st n => bisect index n st) nvals st).

Fixpoint for_characters (geohash : str) (st : state) : result state :=
  match geohash with
  | [] => Ok st
  | character :: rest =>
      st' <- character_step st character ;;
      for_characters rest st'
  end.

Definition box (st : state) : bounds :=
  {| sw := {| lat := latitude_min st; lon := longitude_min st |};
     ne := {| lat := latitude_max st; lon := longitude_max st |} |}.

End GetBounds.

Definition get_bounds (geohash : str) : result bounds :=
  let geohash := lower geohash in
  st <- GetBounds.for_characters geohash GetBounds.init ;;
  Ok (GetBounds.box st).

(** ** [get_polygon], [get_geojson], [decode] *)

Definition get_polygon (geohash : str) : result (list (list float)) :=
  bounds <- get_bounds geohash ;;
  Ok [ [lon (sw bounds); lat (sw bounds)];
       [lon (sw bounds); lat (ne bounds)];
       [lon (ne bounds); lat (ne bounds)];
       [lon (ne bounds); lat (sw bounds)];
       [lon (sw bounds); lat (sw bounds)] ].

Record geometry : Type := {
  geometry_type : string;
  coordinates : list (list (list float))
}.

Record feature (V : Type) : Type := {
  feature_type : string;
  properties : list (string * V);
  feature_geometry : geometry
}.
Arguments feature_type {V} _.
Arguments properties {V} _.
Arguments feature_geometry {V} _.

Definition get_geojson {V : Type} (geohash : str)
    (props : list (string * V)) : result (feature V) :=
  let geohash := lower geohash in
  polygon <- get_polygon geohash ;;
  Ok {| feature_type := "Feature";
        properties := map (fun kv => (fst kv, snd kv)) props;
        feature_geometry :=
          {| geometry_type := "Polygon";
             coordinates := [] ++ [polygon] |} |}.

Definition decode (geohash : str) : result (float * float) :=
  bounds <- get_bounds geohash ;;
  let avg_latitude := np_mean [lat (sw bounds); lat (ne bounds)] in
  let avg_longitude := np_mean [lon (sw bounds); lon (ne bounds)] in
  Ok (avg_latitude, avg_longitude).

(** ** [encode] *)

Module Encode.

(** The local variables of [encode]. *)
Record state : Type := {
  index : Z;
  bit : Z;
  even_bit : bool;
  geohash : str;
  lat_min : float;
  lat_max : float;
  lon_min : float;
  lon_max : float
}.

Definition init : state :=
  {| index := 0;
     bit := 0;
     even_bit := true;
     geohash := [];
     lat_min := F64.neg f90;
     lat_max := f90;
     lon_min := F64.neg f180;
     lon_max := f180 |}.

(** The [if even_bit: ... else: ...] statement: one bisection. *)
Definition bisect (latitude longitude : float) (st : state) : state :=
  if even_bit st then
    let lon_mid := F64.div (F64.add (lon_min st) (lon_max st)) f2 in
    if F64.ge longitude lon_mid then
      {| index := index st * 2 + 1; bit := bit st; even_bit := even_bit st;
         geohash := geohash st;
         lat_min := lat_min st; lat_max := lat_max st;
         lon_min := lon_mid; lon_max := lon_max st |}
    else
      {| index := index st * 2; bit := bit st; even_bit := even_bit st;
         geohash := geohash st;
         lat_min := lat_min st; lat_max := lat_max st;
         lon_min := lon_min st; lon_max := lon_mid |}
  else
    let lat_mid := F64.div (F64.add (lat_min st) (lat_max st)) f2 in
    if F64.ge latitude lat_mid then
      {| index := index st * 2 + 1; bit := bit st; even_bit := even_bit st;
         geohash := geohash st;
         lat_min := lat_mid; lat_max := lat_max st;
         lon_min := lon_min st; lon_max := lon_max st |}
    else
      {| index := index st * 2; bit := bit st; even_bit := even_bit st;
         geohash := geohash st;
         lat_min := lat_min st; lat_max := lat_mid;
         lon_min := lon_min st; lon_max := lon_max st |}.

(** The rest of the loop body: toggle the axis, then count the bit or
    emit a character. *)
Definition emit (st : state) : result state :=
  let even_bit' := negb (even_bit st) in
  if bit st <? 4 then
    Ok {| index := index st; bit := bit st + 1; even_bit := even_bit';
          geohash := geohash st;
          lat_min := lat_min st; lat_max := lat_max st;
          lon_min := lon_min st; lon_max := lon_max st |}
  else
    c <- getitem geohash_base32 (index st) ;;
    Ok {| index := 0; bit := 0; even_bit := even_bit';
          geohash := geohash st ++ [c];
          lat_min := lat_min st; lat_max := lat_max st;
          lon_min := lon_min st; lon_max := lon_max st |}.

Definition body (latitude longitude : float) (st : state) : result state :=
  emit (bisect latitude longitude st).

(** [len(geohash) < precision] *)
Definition cond (precision : Z) (st : state) : bool :=
  Z.of_nat (List.length (geohash st)) <? precision.

End Encode.

(** [encode] with the iteration bound of its [while] loop made explicit:
    [None] only when [fuel] iterations did not finish the loop. *)
Definition encode (fuel : nat) (latitude longitude : float) (precision : Z)
    : option (result str) :=
  if (precision <? 1) || (precision >? 12) then
    Some (Raise (ValueError "precision must be an integer between 1 and 12"))
  else
    match while (Encode.cond precision) (Encode.body latitude longitude)
                fuel Encode.init with
    | Some (Ok st) => Some (Ok (Encode.geohash st))
    | Some (Raise e) => Some (Raise e)
    | None => None
    end.

(** The float64 nearest to a decimal literal [n / 10^k]: both integers are
    exact in binary64 and the division is correctly rounded. *)
Definition decimal (n : Z) (k : Z) : float :=
  F64.div (F64.of_Z n) (F64.of_Z (10 ^ k)).

(* ================================================================== *)
(** * The module [dstkit.hexagon] *)
(* ================================================================== *)

(** The module wraps three functions of the h3 library, in the version 3
    interface it is written for.  They are taken as parameters; what is
    modelled is the module's own code: how its functions bind their
    arguments and which calls they make. *)

Module Hexagon.

(** Python values that cross the interface of the module. *)
#[warnings="-register-all"]
Inductive value : Type :=
| VFloat (x : float)
| VInt (z : Z)
| VBool (b : bool)
| VStr (s : string)
| VList (items : list value)
| VDict (items : list (string * value)).

(** The ways Python's argument binding fails, with the function and the
    parameter concerned. *)
Inductive binding_error : Type :=
| UnexpectedKeyword (function name : string)
| MultipleValues (function name : string)
| TooManyPositional (function : string)
| MissingArgument (function name : string).

Inductive error : Type :=
| TypeError (why : binding_error)
| NameError (name : string)
| LibraryError (msg : string).

Inductive outcome (A : Type) : Type :=
| Return (a : A)
| Throw (e : error).
Arguments Return {A} a.
Arguments Throw {A} e.

Definition and_then {A B : Type} (r : outcome A) (k : A -> outcome B)
    : outcome B :=
  match r with
  | Return a => k a
  | Throw e => Throw e
  end.

Notation "x <~ c ;; k" := (and_then c (fun x => k))
  (at level 61, c at next level, right associativity).

(** The arguments of a call [f(a1, ..., an, k1=v1, ..., km=vm)]. *)
Record arguments : Type := {
  positional : list value;
  keywords : list (string * value)
}.

(** A parameter of a [def], with its default value if it has one. *)
Definition parameter : Type := (string * option value)%type.

(** Positional arguments fill the first parameters. *)
Fixpoint fill_positional (params : list parameter) (args : list value)
    : list (string * option value) :=
  match params, args with
  | (name, _) :: params', a :: args' =>
      (name, Some a) :: fill_positional params' args'
  | _, _ => map (fun p => (fst p, None)) params
  end.

(** A keyword argument must name a parameter that has no value yet. *)
Fixpoint set_keyword (function k : string) (v : value)
    (slots : list (string * option value))
    : outcome (list (string * option value)) :=
  match slots with
  | [] => Throw (TypeError (UnexpectedKeyword function k))
  | (name, current) :: rest =>
      if String.eqb name k then
        match current with
        | Some _ => Throw (TypeError (MultipleValues function k))
        | None => Return ((name, Some v) :: rest)
        end
      else
        rest' <~ set_keyword function k v rest ;;
        Return ((name, current) :: rest')
  end.

Fixpoint set_keywords (function : string) (kws : list (string * value))
    (slots : list (string * option value))
    : outcome (list (string * option value)) :=
  match kws with
  | [] => Return slots
  | (k, v) :: kws' =>
      slots' <~ set_keyword function k v slots ;;
      set_keywords function kws' slots'
  end.

(** Parameters left without a value take their default. *)
Fixpoint apply_defaults (function : string) (params : list parameter)
    (slots : list (string * option value))
    : outcome (list (string * value)) :=
  match params, slots with
  | (name, default) :: params', (_, current) :: slots' =>
      match current, default with
      | Some v, _ =>
          env <~ apply_defaults function params' slots' ;;
          Return ((name, v) :: env)
      | None, Some d =>
          env <~ apply_defaults function params' slots' ;;
          Return ((name, d) :: env)
      | None, None => Throw (TypeError (MissingArgument function name))
      end
  | _, _ => Return []
  end.

(** Binding the arguments of a call to the parameters of a [def] without
    [*args] or [**kwargs], in CPython's order: positional arguments,
    keyword arguments, the count of positional arguments, defaults. *)
Definition bind_arguments (function : string) (params : list parameter)
    (a : arguments) : outcome (list (string * value)) :=
  slots <~ set_keywords function (keywords a)
             (fill_positional params (positional a)) ;;
  if (List.length params <? List.length (positional a))%nat then
    Throw (TypeError (TooManyPositional function))
  else apply_defaults function params slots.

(** Reading a local variable. *)
Fixpoint lookup (name : string) (env : list (string * value)) : outcome value :=
  match env with
  | [] => Throw (NameError name)
  | (k, v) :: env' => if String.eqb k name then Return v else lookup name env'
  end.

(** The value a call gives to the parameter at position [i] named
    [name], by position or else by keyword, if it gives one. *)
Fixpoint keyword (name : string) (kws : list (string * value))
    : option value :=
  match kws with
  | [] => None
  | (k, v) :: kws' => if String.eqb name k then Some v else keyword name kws'
  end.

Definition passed (i : nat) (name : string) (a : arguments) : option value :=
  match nth_error (positional a) i with
  | Some v => Some v
  | None => keyword name (keywords a)
  end.

Section WithH3.

(** [h3.geo_to_h3], [h3.h3_to_geo] and [h3.h3_to_geo_boundary] *)
Variable geo_to_h3 h3_to_geo h3_to_geo_boundary : arguments -> outcome value.

(** [def encode(lat, lon, resolution=3)] *)
Definition encode_parameters : list parameter :=
  [("lat"%string, None); ("lon"%string, None);
   ("resolution"%string, Some (VInt 3))].

Definition encode (a : arguments) : outcome value :=
  env <~ bind_arguments "encode" encode_parameters a ;;
  lat <~ lookup "lat" env ;;
  lon <~ lookup "lon" env ;;
  resolution <~ lookup "resolution" env ;;
  geo_to_h3 {| positional := [lat; lon];
               keywords := [("res"%string, resolution)] |}.

(** [def decode(h3_address)] *)
Definition decode (a : arguments) : outcome value :=
  env <~ bind_arguments "decode" [("h3_address"%string, None)] a ;;
  h3_address <~ lookup "h3_address" env ;;
  h3_to_geo {| positional := [h3_address]; keywords := [] |}.

(** [def hexagon_from_h3(h3_address)] *)
Definition hexagon_from_h3 (a : arguments) : outcome value :=
  env <~ bind_arguments "hexagon_from_h3" [("h3_address"%string, None)] a ;;
  h3_address <~ lookup "h3_address" env ;;
  boundary <~ h3_to_geo_boundary
                {| positional := [h3_address];
                   keywords := [("geo_json"%string, VBool true)] |} ;;
  Return (VDict [("type"%string, VStr "Polygon");
                 ("coordinates"%string, VList [boundary])]).

(** [def hexagon_from_location(lat, lon, resolution=3)] *)
Definition hexagon_from_location_parameters : list parameter :=
  [("lat"%string, None); ("lon"%string, None);
   ("resolution"%string, Some (VInt 3))].

Definition hexagon_from_location (a : arguments) : outcome value :=
  env <~ bind_arguments "hexagon_from_location"
           hexagon_from_location_parameters a ;;
  lat <~ lookup "lat" env ;;
  lon <~ lookup "lon" env ;;
  resolution <~ lookup "resolution" env ;;
  address <~ encode {| positional := [lat; lon];
                       keywords := [("res"%string, resolution)] |} ;;
  boundary <~ h3_to_geo_boundary
                {| positional := [address];
                   keywords := [("geo_json"%string, VBool true)] |} ;;
  Return (VDict [("type"%string, VStr "Polygon");
                 ("coordinates"%string, VList [boundary])]).

End WithH3.

End Hexagon.

(* ================================================================== *)
(** * Vocabulary of the properties *)
(* ================================================================== *)

(** The code points of a string, in order. *)
Definition chars (s : str) : list codepoint := s.

(** A character of the 32-symbol alphabet. *)
Definition in_alphabet (c : codepoint) : Prop := In c (chars geohash_base32).

(** A string made of alphabet characters only. *)
Definition alphabet_string (g : str) : Prop := Forall in_alphabet (chars g).

(** A code point that [lower] leaves as it is. *)
Definition stable (c : codepoint) : bool :=
  negb (c =? Unicode.capital_sigma)%N &&
  match Unicode.assoc c Unicode.lowercase_mapping with
  | Some _ => false
  | None => true
  end.

(** U+212A KELVIN SIGN, whose lower-case form is the letter [k]. *)
Definition kelvin_sign : codepoint := 8490%N.

(** The code points whose lower-case form is an alphabet symbol: the 32
    symbols, the capital letters among them, and the Kelvin sign. *)
Definition accepted (c : codepoint) : Prop :=
  In c (chars geohash_base32 ++ text "BCDEFGHJKMNPQRSTUVWXYZ" ++ [kelvin_sign]).

(** [(lo + hi) / 2.] *)
Definition midpoint (lo hi : float) : float := F64.div (F64.add lo hi) f2.

(** The point lies in the box, edges included. *)
Definition contains (b : bounds) (latitude longitude : float) : Prop :=
  F64.le (lat (sw b)) latitude = true /\
  F64.le latitude (lat (ne b)) = true /\
  F64.le (lon (sw b)) longitude = true /\
  F64.le longitude (lon (ne b)) = true.

Definition ordered (b : bounds) : Prop :=
  F64.le (lat (sw b)) (lat (ne b)) = true /\
  F64.le (lon (sw b)) (lon (ne b)) = true.

Definition on_globe (b : bounds) : Prop :=
  F64.le (F64.neg f90) (lat (sw b)) = true /\
  F64.le (lat (ne b)) f90 = true /\
  F64.le (F64.neg f180) (lon (sw b)) = true /\
  F64.le (lon (ne b)) f180 = true.

(** [child] lies in [parent]. *)
Definition inside (child parent : bounds) : Prop :=
  F64.le (lat (sw parent)) (lat (sw child)) = true /\
  F64.le (lat (ne child)) (lat (ne parent)) = true /\
  F64.le (lon (sw parent)) (lon (sw child)) = true /\
  F64.le (lon (ne child)) (lon (ne parent)) = true.

(** [child] lies in [parent] and is smaller along both axes. *)
Definition strictly_inside (child parent : bounds) : Prop :=
  inside child parent /\
  (F64.lt (lat (sw parent)) (lat (sw child)) = true \/
   F64.lt (lat (ne child)) (lat (ne parent)) = true) /\
  (F64.lt (lon (sw parent)) (lon (sw child)) = true \/
   F64.lt (lon (ne child)) (lon (ne parent)) = true).

(** One bisection of [get_bounds] with its bit given as a boolean. *)
Definition narrow (b : bool) (st : GetBounds.state) : GetBounds.state :=
  GetBounds.bisect (Z.b2z b) 0 st.

(** The box variables of [encode], seen as a state of [get_bounds]. *)
Definition view (st : Encode.state) : GetBounds.state :=
  {| GetBounds.even_bit := Encode.even_bit st;
     GetBounds.latitude_min := Encode.lat_min st;
     GetBounds.latitude_max := Encode.lat_max st;
     GetBounds.longitude_min := Encode.lon_min st;
     GetBounds.longitude_max := Encode.lon_max st |}.

(** The comparison [encode] makes on the active axis. *)
Definition decide (latitude longitude : float) (g : GetBounds.state) : bool :=
  if GetBounds.even_bit g then
    F64.ge longitude
      (midpoint (GetBounds.longitude_min g) (GetBounds.longitude_max g))
  else
    F64.ge latitude
      (midpoint (GetBounds.latitude_min g) (GetBounds.latitude_max g)).

(** The loop invariant of [encode] on its bit counter and accumulator. *)
Definition accumulator_ok (st : Encode.state) : Prop :=
  0 <= Encode.bit st <= 4 /\ 0 <= Encode.index st < 2 ^ Encode.bit st.

(** Both ends are finite members of the format, in order, inside
    [[-W, W]] (in units of [2^-1074]). *)
Definition interval (W : Z) (lo hi : float) : Prop :=
  exists vlo vhi,
    F64.good lo vlo /\ F64.good hi vhi /\ - W <= vlo /\ vlo <= vhi /\ vhi <= W.

Definition Within (g : GetBounds.state) : Prop :=
  interval (F64.ival f90) (GetBounds.latitude_min g) (GetBounds.latitude_max g) /\
  interval (F64.ival f180) (GetBounds.longitude_min g) (GetBounds.longitude_max g).

(** After [d] exact bisections an axis holds two consecutive even
    multiples of the step [45 * 2^(E - d)]. *)
Definition grid (E d : Z) (lo hi : float) : Prop :=
  exists j,
    F64.good lo (45 * 2 ^ (E - d) * j) /\
    F64.good hi (45 * 2 ^ (E - d) * (j + 2)) /\
    Z.abs j <= 2 ^ d /\ Z.abs (j + 2) <= 2 ^ d.

(** The state of [get_bounds] after [t] bits, all computed exactly. *)
Definition Aligned (g : GetBounds.state) (t : Z) : Prop :=
  exists dl da,
    0 <= da /\ dl + da = t /\
    dl = da + (if GetBounds.even_bit g then 0 else 1) /\
    grid 1076 dl (GetBounds.longitude_min g) (GetBounds.longitude_max g) /\
    grid 1075 da (GetBounds.latitude_min g) (GetBounds.latitude_max g).

(** Widths of a box, in units of [2^-1074]. *)
Definition width_lat (g : GetBounds.state) : Z :=
  F64.ival (GetBounds.latitude_max g) - F64.ival (GetBounds.latitude_min g).

Definition width_lon (g : GetBounds.state) : Z :=
  F64.ival (GetBounds.longitude_max g) - F64.ival (GetBounds.longitude_min g).

(** The box of [g'] lies in the box of [g] (in units of [2^-1074]). *)
Definition nested (g g' : GetBounds.state) : Prop :=
  F64.ival (GetBounds.latitude_min g) <= F64.ival (GetBounds.latitude_min g') /\
  F64.ival (GetBounds.latitude_max g') <= F64.ival (GetBounds.latitude_max g) /\
  F64.ival (GetBounds.longitude_min g) <= F64.ival (GetBounds.longitude_min g') /\
  F64.ival (GetBounds.longitude_max g') <= F64.ival (GetBounds.longitude_max g).

(* ================================================================== *)
(** * Bit paths *)
(* ================================================================== *)

(** The comparisons [encode] makes in its first [n] iterations, starting
    from the box [g]. *)
Fixpoint decisions (latitude longitude : float) (n : nat)
    (g : GetBounds.state) : list bool :=
  match n with
  | O => []
  | Datatypes.S n' =>
      let d := decide latitude longitude g in
      d :: decisions latitude longitude n' (narrow d g)
  end.

(** The box [get_bounds] reaches from [g] by reading the given bits. *)
Definition follow (bits : list bool) (g : GetBounds.state) : GetBounds.state :=
  fold_left (fun st b => narrow b st) bits g.

(** The accumulator [index] of [encode] after the given bits. *)
Definition index_of_bits (bits : list bool) : Z :=
  fold_left (fun i b => i * 2 + Z.b2z b) bits 0.

(** The bits [get_bounds] reads from an alphabet index, in loop order. *)
Definition bits_of_index (index : Z) : list bool :=
  map (fun n => Z.land (Z.shiftr index n) 1 =? 1) GetBounds.nvals.

Definition bits_of_string (g : str) : list bool :=
  flat_map (fun c => bits_of_index (find geohash_base32 c)) (chars g).

(** [geohash_base32[i]], with a placeholder where Python would raise. *)
Definition alphabet_char (i : Z) : codepoint :=
  match getitem geohash_base32 i with
  | Ok c => c
  | Raise _ => 48%N
  end.

(** The [n] characters spelt by the given bits, five bits each. *)
Fixpoint string_of_bits (n : nat) (bits : list bool) : str :=
  match n with
  | O => []
  | Datatypes.S n' =>
      alphabet_char (index_of_bits (firstn 5 bits))
        :: string_of_bits n' (skipn 5 bits)
  end.

(** The point lies in the box, south and west edges included, north and
    east edges excluded. *)
Definition in_cell (b : bounds) (latitude longitude : float) : Prop :=
  F64.le (lat (sw b)) latitude = true /\
  F64.lt latitude (lat (ne b)) = true /\
  F64.le (lon (sw b)) longitude = true /\
  F64.lt longitude (lon (ne b)) = true.

(** [x] brought back into [[-W, W]]; a NaN, which no comparison accepts,
    goes to [-W]. *)
Definition clamp (W x : float) : float :=
  if F64.ge x (F64.neg W) then (if F64.ge x W then W else x) else F64.neg W.

(* ================================================================== *)
(** * Evaluation on concrete inputs *)
(* ================================================================== *)

Example f2_value : f2 = S754_finite false 4503599627370496 (-51).
Proof. reflexivity. Qed.

Example f90_value : f90 = S754_finite false 6333186975989760 (-46).
Proof. reflexivity. Qed.

Example f180_value : f180 = S754_finite false 6333186975989760 (-45).
Proof. reflexivity. Qed.

Example decimal_lat : decimal 5764911 5 = S754_finite false 8113390947320023 (-47).
Proof. vm_compute. reflexivity. Qed.

Example decimal_lon : decimal 1040744 5 = S754_finite false 5858867863235099 (-49).
Proof. vm_compute. reflexivity. Qed.

Example encode_known : encode 30 (decimal 5764911 5) (decimal 1040744 5) 6 = Some (Ok (text "u4pruy")).
Proof. vm_compute. reflexivity. Qed.

Example bounds_known : get_bounds (text "u4pruy") =
  Ok {| sw := {| lat := S754_finite false 8112849624760320 (-47);
                 lon := S754_finite false 5856961002209280 (-49) |};
        ne := {| lat := S754_finite false 8113622718873600 (-47);
                 lon := S754_finite false 5863145755115520 (-49) |} |}.
Proof. vm_compute. reflexivity. Qed.

Example bounds_empty : get_bounds (text "") =
  Ok {| sw := {| lat := F64.neg f90; lon := F64.neg f180 |};
        ne := {| lat := f90; lon := f180 |} |}.
Proof. reflexivity. Qed.

Example bounds_case_insensitive : get_bounds (text "U4PRUYDQ") = get_bounds (text "u4pruydq").
Proof. vm_compute. reflexivity. Qed.

Example bounds_kelvin :
  get_bounds (text "9Q8YY" ++ [kelvin_sign]) = get_bounds (text "9q8yyk").
Proof. vm_compute. reflexivity. Qed.

Example lower_dotted_capital_i : lower [304%N] = [105%N; 775%N].
Proof. vm_compute. reflexivity. Qed.

Example lower_final_sigma :
  lower [927; 916; 927; 931; 32; 931; 927; 933]%N
  = [959; 948; 959; 962; 32; 963; 959; 965]%N.
Proof. vm_compute. reflexivity. Qed.

Example bounds_invalid : get_bounds (text "u4a") = Raise (ValueError "Invalid geohash.").
Proof. vm_compute. reflexivity. Qed.

Example decode_known : decode (text "u4pruy") =
  Ok (S754_finite false 8113236171816960 (-47),
      S754_finite false 5860053378662400 (-49)).
Proof. vm_compute. reflexivity. Qed.

Example encode_precision_0 :
  encode 0 (S754_zero false) (S754_zero false) 0 = Some (Raise InvalidPrecision).
Proof. reflexivity. Qed.

Example encode_precision_13 :
  encode 65 (S754_zero false) (S754_zero false) 13 = Some (Raise InvalidPrecision).
Proof. reflexivity. Qed.

Example encode_origin : encode 5 (S754_zero false) (S754_zero false) 1 = Some (Ok (text "s")).
Proof. vm_compute. reflexivity. Qed.

Example encode_out_of_fuel : encode 4 (S754_zero false) (S754_zero false) 1 = None.
Proof. vm_compute. reflexivity. Qed.

(* ================================================================== *)
(** * Facts about binary64 arithmetic *)
(* ================================================================== *)

Module F64Facts.
Import F64.

Lemma digits2_pos_log2 (p : positive) :
  Zpos (digits2_pos p) = Z.log2 (Zpos p) + 1.
Proof.
  assert (Hs : forall q, digits2_pos q = Pos.size q)
    by (induction q as [q IH|q IH|]; simpl; now rewrite ?IH).
  destruct p as [p|p|]; simpl; rewrite ?Hs; lia.
Qed.

Lemma digits2_pos_bounds (p : positive) :
  2 ^ (Zpos (digits2_pos p) - 1) <= Zpos p < 2 ^ Zpos (digits2_pos p).
Proof.
  rewrite digits2_pos_log2.
  replace (Z.log2 (Zpos p) + 1 - 1) with (Z.log2 (Zpos p)) by lia.
  apply Z.log2_spec. lia.
Qed.

Lemma Zdigits2_pos_log2 (m : Z) : 0 < m -> Zdigits2 m = Z.log2 m + 1.
Proof. destruct m; try lia. intros _. apply digits2_pos_log2. Qed.

Lemma Zdigits2_mono (a b : Z) : 0 <= a <= b -> Zdigits2 a <= Zdigits2 b.
Proof.
  intros [Ha Hab].
  destruct (Z.eq_dec a 0) as [->|Hna].
  - destruct b; simpl; lia.
  - rewrite !Zdigits2_pos_log2 by lia.
    pose proof (Z.log2_le_mono a b Hab). lia.
Qed.

Lemma Zdigits2_lt_pow2 (a n : Z) : 0 <= a < 2 ^ n -> 0 <= n -> Zdigits2 a <= n.
Proof.
  intros [Ha Hlt] Hn.
  destruct (Z.eq_dec a 0) as [->|Hna]; [simpl; lia|].
  rewrite Zdigits2_pos_log2 by lia.
  assert (Z.log2 a < n) by (apply Z.log2_lt_pow2; lia). lia.
Qed.

Lemma Zdigits2_ge_pow2 (a n : Z) : 2 ^ n <= a -> 0 <= n -> n + 1 <= Zdigits2 a.
Proof.
  intros Hle Hn.
  assert (0 < 2 ^ n) by (apply Z.pow_pos_nonneg; lia).
  rewrite Zdigits2_pos_log2 by lia.
  assert (n <= Z.log2 a) by (apply Z.log2_le_pow2; lia). lia.
Qed.

Lemma Zdigits2_mul_pow2 (a k : Z) :
  0 < a -> 0 <= k -> Zdigits2 (a * 2 ^ k) = Zdigits2 a + k.
Proof.
  intros Ha Hk.
  assert (0 < 2 ^ k) by (apply Z.pow_pos_nonneg; lia).
  rewrite !Zdigits2_pos_log2 by nia.
  rewrite Z.log2_mul_pow2 by lia. lia.
Qed.

(** ** Right shifts *)

Lemma iter_pos_nat {A : Type} (f : A -> A) (p : positive) (x : A) :
  iter_pos f p x = Nat.iter (Pos.to_nat p) f x.
Proof.
  assert (Hadd : forall n m y, Nat.iter (n + m) f y = Nat.iter n f (Nat.iter m f y)).
  { induction n; simpl; intros; [reflexivity | now rewrite IHn]. }
  assert (Hcomm : forall n y, Nat.iter n f (f y) = f (Nat.iter n f y)).
  { induction n; simpl; intros; [reflexivity | now rewrite IHn]. }
  revert x. induction p as [p IH|p IH|]; intros x; cbn [iter_pos].
  - rewrite !IH, Pos2Nat.inj_xI.
    replace (S (2 * Pos.to_nat p))%nat with (Pos.to_nat p + S (Pos.to_nat p))%nat by lia.
    rewrite Hadd. cbn [Nat.iter nat_rect]. fold (Nat.iter (Pos.to_nat p) f x).
    now rewrite Hcomm.
  - rewrite !IH, Pos2Nat.inj_xO.
    replace (2 * Pos.to_nat p)%nat with (Pos.to_nat p + Pos.to_nat p)%nat by lia.
    now rewrite Hadd.
  - reflexivity.
Qed.

Lemma shr_1_nonneg (m : Z) (r s : bool) :
  0 <= m ->
  shr_1 {| shr_m := m; shr_r := r; shr_s := s |} =
  {| shr_m := m / 2; shr_r := Z.odd m; shr_s := r || s |}.
Proof.
  intros Hm. rewrite <- Z.div2_div.
  destruct m as [|[p|p|]|p]; try lia; reflexivity.
Qed.

Lemma shr_iter (n : nat) (m : Z) :
  0 <= m ->
  exists r s,
    Nat.iter n shr_1 {| shr_m := m; shr_r := false; shr_s := false |} =
    {| shr_m := m / 2 ^ Z.of_nat n; shr_r := r; shr_s := s |} /\
    (m mod 2 ^ Z.of_nat n = 0 -> r = false /\ s = false).
Proof.
  intros Hm. induction n as [|n IH].
  - exists false, false. simpl. rewrite Z.div_1_r. auto.
  - destruct IH as (r & s & Heq & Hex).
    assert (Hp : 0 < 2 ^ Z.of_nat n) by (apply Z.pow_pos_nonneg; lia).
    assert (Hq : 0 <= m / 2 ^ Z.of_nat n) by (apply Z.div_pos; lia).
    simpl Nat.iter. rewrite Heq, shr_1_nonneg by assumption.
    exists (Z.odd (m / 2 ^ Z.of_nat n)), (r || s). split.
    + f_equal. rewrite Nat2Z.inj_succ, Z.pow_succ_r by lia.
      rewrite Z.div_div by lia. f_equal. lia.
    + rewrite Nat2Z.inj_succ, Z.pow_succ_r by lia. intros Hmod.
      assert (Hdm := Z.div_mod m (2 * 2 ^ Z.of_nat n) ltac:(lia)).
      rewrite Hmod, Z.add_0_r in Hdm.
      set (t := m / (2 * 2 ^ Z.of_nat n)) in *.
      assert (Hm2 : m = (2 * t) * 2 ^ Z.of_nat n) by lia.
      assert (Hmod' : m mod 2 ^ Z.of_nat n = 0)
        by (rewrite Hm2; apply Z.mod_mul; lia).
      destruct (Hex Hmod') as [-> ->].
      assert (Hdiv : m / 2 ^ Z.of_nat n = 2 * t)
        by (rewrite Hm2; apply Z.div_mul; lia).
      rewrite Hdiv, Z.odd_mul. auto.
Qed.


(** ** The rounding step [binary_round_aux] *)


Lemma fexp_eq (e : Z) : fexp prec emax e = Z.max (e - 53) (-1074).
Proof. reflexivity. Qed.

Lemma pow2_pos (k : Z) : 0 <= k -> 0 < 2 ^ k.
Proof. intros. apply Z.pow_pos_nonneg; lia. Qed.

Lemma good_finite (s : bool) (p : positive) (e : Z) :
  fexp prec emax (Zpos (digits2_pos p) + e) = e -> e <= 971 ->
  good (S754_finite s p e) (cond_Zopp s (Zpos p * 2 ^ (e + 1074))).
Proof.
  intros Hc He. repeat split.
  unfold valid, valid_binary, bounded, canonical_mantissa.
  rewrite Hc, Z.eqb_refl. simpl. apply Z.leb_le. exact He.
Qed.


Lemma bra_unfold (s : bool) (m e : Z) (l : location) :
  binary_round_aux prec emax s m e l =
  let p1 := shr_fexp prec emax m e l in
  let p2 := shr_fexp prec emax
              (round_nearest_even (shr_m (fst p1)) (loc_of_shr_record (fst p1)))
              (snd p1) loc_Exact in
  pack s (fst p2) (snd p2).
Proof.
  unfold binary_round_aux, pack.
  destruct (shr_fexp prec emax m e l) as [mrs' e']. cbn [fst snd].
  destruct (shr_fexp prec emax _ e' loc_Exact) as [mrs'' e'']. reflexivity.
Qed.

Lemma bra_finish (s : bool) (m1 E : Z) :
  0 <= m1 <= 2 ^ 53 -> -1074 <= E < 971 ->
  (m1 < 2 ^ 53 -> fexp prec emax (Zdigits2 m1 + E) = E) ->
  let p2 := shr_fexp prec emax m1 E loc_Exact in
  good (pack s (fst p2) (snd p2)) (cond_Zopp s (m1 * 2 ^ (E + 1074))).
Proof.
  intros Hm HE Hcanon.
  destruct (Z.eq_dec m1 (2 ^ 53)) as [->|Hne].
  - unfold shr_fexp. change (Zdigits2 (2 ^ 53)) with 54.
    replace (fexp prec emax (54 + E) - E) with 1 by (rewrite fexp_eq; lia).
    cbn [shr iter_pos shr_record_of_loc]. change (2 ^ 53) with 9007199254740992.
    cbn [shr_1 fst snd pack shr_m orb].
    replace (E + 1 <=? emax - prec) with true
      by (symmetry; apply Z.leb_le; unfold emax, prec; lia).
    replace (9007199254740992 * 2 ^ (E + 1074))
      with (4503599627370496 * 2 ^ (E + 1 + 1074)).
    + apply good_finite; [|lia]. rewrite fexp_eq. simpl digits2_pos. lia.
    + replace (E + 1 + 1074) with (Z.succ (E + 1074)) by lia.
      rewrite Z.pow_succ_r by lia. lia.
  - assert (Hlt : m1 < 2 ^ 53) by lia. specialize (Hcanon Hlt).
    unfold shr_fexp. rewrite Hcanon, Z.sub_diag.
    cbn [shr shr_record_of_loc fst snd]. unfold pack. cbn [shr_m].
    destruct m1 as [|p|p]; try lia.
    + repeat split. now destruct s.
    + replace (E <=? emax - prec) with true
        by (symmetry; apply Z.leb_le; unfold emax, prec; lia).
      apply good_finite; [exact Hcanon|lia].
Qed.

Lemma rne_cases (m : Z) (l : location) :
  round_nearest_even m l = m \/
  (round_nearest_even m l = m + 1 /\ l <> loc_Exact).
Proof.
  destruct l as [|[| |]]; simpl; auto.
  - destruct (Z.even m); auto. right. split; [reflexivity|discriminate].
  - right. split; [reflexivity|discriminate].
Qed.

Lemma loc_shr_record_of_loc (m : Z) (l : location) :
  loc_of_shr_record (shr_record_of_loc m l) = l /\
  shr_m (shr_record_of_loc m l) = m.
Proof. destruct l as [|[| |]]; split; reflexivity. Qed.

(** [binary_round_aux] on a non-negative mantissa that has to lose [k]
    low bits: the result is the quotient or its successor, in the format,
    and it is the quotient itself when the lost bits are all zero. *)
Lemma bra_spec (s : bool) (m e : Z) (l : location) (k : Z) :
  0 <= m -> -1074 <= e ->
  fexp prec emax (Zdigits2 m + e) - e = k -> 0 <= k ->
  k = 0 \/ l = loc_Exact ->
  e + k < 971 ->
  exists m1,
    (m1 = m / 2 ^ k \/
     (m1 = m / 2 ^ k + 1 /\ (l = loc_Exact -> m mod 2 ^ k <> 0))) /\
    (k = 0 -> m1 = round_nearest_even m l) /\
    good (binary_round_aux prec emax s m e l)
         (cond_Zopp s (m1 * 2 ^ (e + k + 1074))).
Proof.
  intros Hm He Hk Hk0 Hl Hov.
  rewrite bra_unfold. cbv zeta.
  destruct (Z.eq_dec k 0) as [->|Hkne].
  - (* nothing to shift *)
    assert (Hp1 : shr_fexp prec emax m e l = (shr_record_of_loc m l, e)).
    { unfold shr_fexp. rewrite Hk. reflexivity. }
    rewrite Hp1. cbn [fst snd].
    destruct (loc_shr_record_of_loc m l) as [-> ->].
    exists (round_nearest_even m l).
    rewrite Z.pow_0_r, Z.div_1_r, Z.add_0_r.
    assert (Hd53 : Zdigits2 m <= 53) by (rewrite fexp_eq in Hk; lia).
    assert (Hm53 : m < 2 ^ 53).
    { destruct (Z.eq_dec m 0) as [->|]; [lia|].
      rewrite Zdigits2_pos_log2 in Hd53 by lia.
      apply Z.log2_lt_pow2; lia. }
    split; [|split; [reflexivity|]].
    + destruct (rne_cases m l) as [->|[-> Hnl]]; [now left|right].
      split; [reflexivity|]. intros; contradiction.
    + apply bra_finish; [|lia|].
      * destruct (rne_cases m l) as [->|[-> _]]; lia.
      * intros Hlt. rewrite fexp_eq in *.
        destruct (rne_cases m l) as [Hr|[Hr _]]; rewrite Hr in *; [lia|].
        assert (Zdigits2 m <= Zdigits2 (m + 1)) by (apply Zdigits2_mono; lia).
        assert (Zdigits2 (m + 1) <= 53) by (apply Zdigits2_lt_pow2; lia).
        lia.
  - (* [k] low bits are shifted out *)
    destruct Hl as [Hl|Hl]; [contradiction|subst l].
    assert (Hmpos : 0 < m).
    { destruct (Z.eq_dec m 0) as [->|]; [|lia].
      simpl in Hk. rewrite fexp_eq in Hk. lia. }
    assert (Hd : Zdigits2 m = k + 53) by (rewrite fexp_eq in Hk; lia).
    destruct k as [|p|p]; try lia.
    destruct (shr_iter (Pos.to_nat p) m Hm) as (r & t & Hit & Hex).
    rewrite positive_nat_Z in Hit, Hex.
    assert (Hp1 : shr_fexp prec emax m e loc_Exact =
                  ({| shr_m := m / 2 ^ Zpos p; shr_r := r; shr_s := t |}, e + Zpos p)).
    { unfold shr_fexp. rewrite Hk. cbn [shr shr_record_of_loc].
      now rewrite iter_pos_nat, Hit. }
    rewrite Hp1. cbn [fst snd shr_m].
    set (q := m / 2 ^ Zpos p) in *.
    set (l' := loc_of_shr_record {| shr_m := q; shr_r := r; shr_s := t |}).
    assert (H2p : 0 < 2 ^ Zpos p) by (apply pow2_pos; lia).
    assert (Hq : 2 ^ 52 <= q < 2 ^ 53).
    { rewrite Zdigits2_pos_log2 in Hd by lia.
      destruct (Z.log2_spec m Hmpos) as [Hlo Hhi].
      replace (Z.log2 m) with (52 + Zpos p) in Hlo by lia.
      replace (Z.succ (Z.log2 m)) with (53 + Zpos p) in Hhi by lia.
      rewrite Z.pow_add_r in Hlo, Hhi by lia.
      unfold q. split.
      - apply Z.div_le_lower_bound; lia.
      - apply Z.div_lt_upper_bound; lia. }
    exists (round_nearest_even q l'). split; [|split; [lia|]].
    + destruct (rne_cases q l') as [->|[-> Hnl]]; [now left|right].
      split; [reflexivity|]. intros _ Hmod. apply Hnl.
      destruct (Hex Hmod) as [-> ->]. reflexivity.
    + apply bra_finish; [|lia|].
      * destruct (rne_cases q l') as [->|[-> _]]; lia.
      * intros Hlt. rewrite fexp_eq.
        assert (Hdq : Zdigits2 (round_nearest_even q l') = 53).
        { destruct (rne_cases q l') as [Hr|[Hr _]]; rewrite Hr in *.
          - assert (Zdigits2 q <= 53) by (apply Zdigits2_lt_pow2; lia).
            assert (52 + 1 <= Zdigits2 q) by (apply Zdigits2_ge_pow2; lia).
            lia.
          - assert (Zdigits2 (q + 1) <= 53) by (apply Zdigits2_lt_pow2; lia).
            assert (52 + 1 <= Zdigits2 (q + 1)) by (apply Zdigits2_ge_pow2; lia).
            lia. }
        rewrite Hdq. lia.
Qed.


(** ** Faithful rounding *)


Lemma faithful_refl (n : Z) : faithful n n.
Proof. split; auto. Qed.

Lemma representable_opp (a : Z) : representable a -> representable (- a).
Proof.
  intros (m & k & Hk & Hm & ->). exists (- m), k.
  repeat split; [lia | lia | ring].
Qed.

Lemma faithful_opp (n v : Z) : faithful n v -> faithful (- n) (- v).
Proof.
  intros [Hlo Hhi]. split; intros a Ha Han.
  - specialize (Hhi (- a) (representable_opp a Ha)). lia.
  - specialize (Hlo (- a) (representable_opp a Ha)). lia.
Qed.

Lemma representable_double (a : Z) : representable a -> representable (2 * a).
Proof.
  intros (m & k & Hk & Hm & ->). exists m, (k + 1).
  repeat split; [lia | lia |]. rewrite Z.pow_add_r by lia. ring.
Qed.

(** A representable number is a multiple of [2^t] or smaller than
    [2^52 * 2^t] in magnitude. *)
Lemma representable_grid (a t : Z) :
  representable a -> 0 <= t ->
  (exists c, a = c * 2 ^ t) \/ Z.abs a < 2 ^ 52 * 2 ^ t.
Proof.
  intros (m & k & Hk & Hm & ->) Ht.
  destruct (Z_le_gt_dec t k) as [Hle|Hgt].
  - left. exists (m * 2 ^ (k - t)).
    rewrite <- Z.mul_assoc, <- Z.pow_add_r by lia. do 2 f_equal. lia.
  - right. rewrite Z.abs_mul, (Z.abs_eq (2 ^ k)) by (apply Z.pow_nonneg; lia).
    replace t with ((t - 1 - k) + k + 1) by lia.
    rewrite !Z.pow_add_r by lia.
    assert (0 < 2 ^ k) by (apply pow2_pos; lia).
    assert (1 <= 2 ^ (t - 1 - k)) by (pose proof (pow2_pos (t - 1 - k)); lia).
    change (2 ^ 1) with 2. change (2 ^ 52) with 4503599627370496.
    change (2 ^ 53) with 9007199254740992 in Hm. nia.
Qed.

Lemma faithful_grid (n q K N : Z) :
  0 < K -> (exists t, 0 <= t /\ K = 2 ^ t) -> 2 ^ 52 <= q ->
  q * K <= n < (q + 1) * K ->
  N = q * K \/ (N = (q + 1) * K /\ q * K < n) ->
  faithful n N.
Proof.
  intros HK (t & Ht & HKt) Hq Hn HN. split; intros a Ha Han.
  - enough (a <= q * K) by (destruct HN as [->|[-> _]]; lia).
    destruct (representable_grid a t Ha Ht) as [[c ->]|Hsmall]; rewrite <- HKt in *.
    + assert (c < q + 1) by nia. nia.
    + change (2 ^ 52) with 4503599627370496 in *. nia.
  - destruct HN as [->|[-> Hlt]]; [lia|].
    destruct (representable_grid a t Ha Ht) as [[c ->]|Hsmall]; rewrite <- HKt in *.
    + assert (q < c) by nia. nia.
    + change (2 ^ 52) with 4503599627370496 in *. nia.
Qed.

Lemma shl_align_spec (mx : positive) (ex ex' : Z) :
  snd (shl_align mx ex ex') = Z.min ex ex' /\
  Zpos (fst (shl_align mx ex ex')) = Zpos mx * 2 ^ (ex - Z.min ex ex').
Proof.
  unfold shl_align. destruct (ex' - ex) as [|d|d] eqn:Hd; cbn [fst snd].
  - split; [lia|]. replace (ex - Z.min ex ex') with 0 by lia. simpl; lia.
  - split; [lia|]. replace (ex - Z.min ex ex') with 0 by lia. simpl; lia.
  - split; [lia|]. replace (ex - Z.min ex ex') with (Zpos d) by lia.
    change (Pos.iter xO mx d) with (shift_pos d mx).
    rewrite shift_pos_correct, Z.pow_pos_fold. ring.
Qed.

(** [binary_round] rounds faithfully. *)
Lemma binary_round_spec (s : bool) (m : positive) (e : Z) :
  -1074 <= e -> Zpos (digits2_pos m) + e < 1023 ->
  exists N,
    good (binary_round prec emax s m e) (cond_Zopp s N) /\
    faithful (Zpos m * 2 ^ (e + 1074)) N.
Proof.
  intros He Hov. unfold binary_round.
  set (E0 := fexp prec emax (Zpos (digits2_pos m) + e)).
  destruct (shl_align_spec m e E0) as [Hsnd Hfst].
  destruct (shl_align m e E0) as [mz ez]. cbn [fst snd] in *.
  assert (HE0 : E0 = Z.max (Zpos (digits2_pos m) + e - 53) (-1074)) by reflexivity.
  assert (Hdz : Zdigits2 (Zpos mz) = Zpos (digits2_pos m) + (e - ez)).
  { rewrite Hfst, Zdigits2_mul_pow2, Hsnd by lia. reflexivity. }
  destruct (bra_spec s (Zpos mz) ez loc_Exact (E0 - ez))
    as (m1 & Hm1 & Hk0 & Hgood); try lia.
  { rewrite Hdz. replace (Zpos (digits2_pos m) + (e - ez) + ez)
      with (Zpos (digits2_pos m) + e) by lia. reflexivity. }
  { now right. }
  exists (m1 * 2 ^ (ez + (E0 - ez) + 1074)). split; [exact Hgood|].
  destruct (Z.eq_dec (E0 - ez) 0) as [Hz|Hnz].
  - (* exact *)
    rewrite (Hk0 Hz), Hz. cbn [round_nearest_even]. rewrite Hfst.
    rewrite <- Z.mul_assoc, <- Z.pow_add_r by lia.
    replace (e - Z.min e E0 + (ez + 0 + 1074)) with (e + 1074) by lia.
    apply faithful_refl.
  - (* [E0 - ez] bits are rounded away *)
    assert (Hmin : Z.min e E0 = e) by lia. rewrite Hmin in *. subst ez.
    rewrite Z.sub_diag in Hfst.
    rewrite Z.mul_1_r in Hfst. rewrite Hfst in *.
    set (k := E0 - e) in *. assert (Hk : 0 < k) by lia.
    set (q := Zpos m / 2 ^ k) in *.
    assert (H2k : 0 < 2 ^ k) by (apply pow2_pos; lia).
    assert (Hu : 0 < 2 ^ (e + 1074)) by (apply pow2_pos; lia).
    assert (HK : 2 ^ (e + k + 1074) = 2 ^ k * 2 ^ (e + 1074)).
    { rewrite <- Z.pow_add_r by lia. f_equal. lia. }
    assert (Hdm := Z.div_mod (Zpos m) (2 ^ k) ltac:(lia)). fold q in Hdm.
    assert (Hmod := Z.mod_pos_bound (Zpos m) (2 ^ k) H2k).
    assert (Hq : 2 ^ 52 <= q).
    { assert (Hd : Zpos (digits2_pos m) = k + 53) by lia.
      destruct (digits2_pos_bounds m) as [Hlo _].
      rewrite Hd in Hlo. replace (k + 53 - 1) with (52 + k) in Hlo by lia.
      rewrite Z.pow_add_r in Hlo by lia.
      unfold q. apply Z.div_le_lower_bound; lia. }
    apply faithful_grid with (q := q) (K := 2 ^ (e + k + 1074)).
    + apply pow2_pos; lia.
    + exists (e + k + 1074). split; [lia|reflexivity].
    + exact Hq.
    + rewrite HK. nia.
    + rewrite HK. destruct Hm1 as [->|[-> Hne]]; [now left|right].
      split; [reflexivity|]. specialize (Hne eq_refl). nia.
Qed.


(** ** Finite members of the format *)

Lemma good_inv_finite (s : bool) (m : positive) (e v : Z) :
  good (S754_finite s m e) v ->
  -1074 <= e <= 971 /\ Zpos m < 2 ^ 53 /\
  (-1074 < e -> 2 ^ 52 <= Zpos m) /\
  v = cond_Zopp s (Zpos m * 2 ^ (e + 1074)).
Proof.
  intros (Hv & _ & Hi).
  unfold valid, valid_binary, bounded, canonical_mantissa in Hv.
  apply andb_prop in Hv. destruct Hv as [Hc Hb].
  apply Z.eqb_eq in Hc. apply Z.leb_le in Hb. rewrite fexp_eq in Hc.
  change (emax - prec) with 971 in Hb.
  destruct (digits2_pos_bounds m) as [Hlo Hhi].
  assert (Hd : Zpos (digits2_pos m) <= 53) by lia.
  repeat split; try lia.
  - eapply Z.lt_le_trans; [exact Hhi|]. apply Z.pow_le_mono_r; lia.
  - intros He. replace (Zpos (digits2_pos m)) with 53 in Hlo by lia. exact Hlo.
  - now rewrite <- Hi.
Qed.

Lemma good_zero_or_finite (x : float) (v : Z) :
  good x v ->
  (exists s, x = S754_zero s /\ v = 0) \/
  (exists s m e, x = S754_finite s m e).
Proof.
  intros (Hv & Hf & Hi). destruct x; try discriminate.
  - left. eexists. split; [reflexivity|]. now rewrite <- Hi.
  - right. eauto.
Qed.

Lemma good_representable (x : float) (v : Z) : good x v -> representable v.
Proof.
  intros H. destruct (good_zero_or_finite x v H) as [(s & -> & ->)|(s & m & e & ->)].
  - exists 0, 0. repeat split; simpl; lia.
  - destruct (good_inv_finite s m e v H) as (He & Hm & _ & ->).
    exists (cond_Zopp s (Zpos m)), (e + 1074).
    repeat split; [lia | destruct s; cbn [cond_Zopp]; lia | destruct s; cbn [cond_Zopp]; ring].
Qed.

Lemma good_zero (s : bool) : good (S754_zero s) 0.
Proof. repeat split. Qed.

Lemma pow2_digits_bound (p : positive) (t B : Z) :
  0 <= t -> Zpos p * 2 ^ t < 2 ^ B -> Zpos (digits2_pos p) + t <= B.
Proof.
  intros Ht Hlt.
  destruct (Z_lt_le_dec B 0) as [HB|HB].
  - rewrite (Z.pow_neg_r 2 B) in Hlt by lia. pose proof (pow2_pos t Ht). nia.
  - change (Zpos (digits2_pos p)) with (Zdigits2 (Zpos p)).
    rewrite <- Zdigits2_mul_pow2 by lia.
    apply Zdigits2_lt_pow2; [|lia]. pose proof (pow2_pos t Ht). nia.
Qed.

(** ** Addition *)

Lemma binary_normalize_spec (z e : Z) :
  -1074 <= e -> Z.abs z * 2 ^ (e + 1074) < 2 ^ 2096 ->
  exists v, good (binary_normalize prec emax z e false) v /\
            faithful (z * 2 ^ (e + 1074)) v.
Proof.
  intros He Hb. destruct z as [|p|p]; cbn [binary_normalize].
  - exists 0. split; [apply good_zero|apply faithful_refl].
  - destruct (binary_round_spec false p e He) as (N & Hg & Hf).
    { pose proof (pow2_digits_bound p (e + 1074) 2096 ltac:(lia) Hb). lia. }
    exists N. split; assumption.
  - destruct (binary_round_spec true p e He) as (N & Hg & Hf).
    { pose proof (pow2_digits_bound p (e + 1074) 2096 ltac:(lia) Hb). lia. }
    exists (- N). split; [exact Hg|].
    replace (Z.neg p * 2 ^ (e + 1074)) with (- (Zpos p * 2 ^ (e + 1074))) by lia.
    now apply faithful_opp.
Qed.

Lemma add_spec (x y : float) (vx vy : Z) :
  good x vx -> good y vy ->
  Z.abs vx < 2 ^ 2095 -> Z.abs vy < 2 ^ 2095 ->
  exists v, good (add x y) v /\ faithful (vx + vy) v.
Proof.
  intros Hx Hy Bx By.
  destruct (good_zero_or_finite x vx Hx) as [(sx & -> & ->)|(sx & mx & ex & ->)];
  destruct (good_zero_or_finite y vy Hy) as [(sy & -> & ->)|(sy & my & ey & ->)].
  - exists 0. split; [|apply faithful_refl].
    destruct sx, sy; apply good_zero.
  - exists vy. split; [exact Hy|apply faithful_refl].
  - exists vx. rewrite Z.add_0_r. split; [exact Hx|apply faithful_refl].
  - destruct (good_inv_finite _ _ _ _ Hx) as (Hex & _ & _ & Hvx).
    destruct (good_inv_finite _ _ _ _ Hy) as (Hey & _ & _ & Hvy).
    unfold add. cbn [SFadd].
    destruct (shl_align_spec mx ex (Z.min ex ey)) as [_ Hax].
    destruct (shl_align_spec my ey (Z.min ex ey)) as [_ Hay].
    rewrite Hax, Hay.
    replace (Z.min ex (Z.min ex ey)) with (Z.min ex ey) by lia.
    replace (Z.min ey (Z.min ex ey)) with (Z.min ex ey) by lia.
    set (ez := Z.min ex ey).
    set (z := cond_Zopp sx (Zpos mx * 2 ^ (ex - ez)) +
              cond_Zopp sy (Zpos my * 2 ^ (ey - ez))).
    assert (Hsum : vx + vy = z * 2 ^ (ez + 1074)).
    { subst vx vy z. rewrite Z.mul_add_distr_r.
      replace (ex + 1074) with ((ex - ez) + (ez + 1074)) by lia.
      replace (ey + 1074) with ((ey - ez) + (ez + 1074)) by lia.
      rewrite (Z.pow_add_r 2 (ex - ez) (ez + 1074)),
              (Z.pow_add_r 2 (ey - ez) (ez + 1074)) by lia.
      destruct sx, sy; cbn [cond_Zopp]; ring. }
    rewrite Hsum. apply binary_normalize_spec; [lia|].
    assert (Hu : 0 < 2 ^ (ez + 1074)) by (apply pow2_pos; lia).
    replace (Z.abs z * 2 ^ (ez + 1074)) with (Z.abs (vx + vy))
      by (rewrite Hsum, Z.abs_mul, (Z.abs_eq (2 ^ _)); lia).
    change (2 ^ 2096) with (2 * 2 ^ 2095). lia.
Qed.


(** ** Division by two *)


Lemma div_eucl_eq (a b q r : Z) :
  0 < b -> Z.div_eucl a b = (q, r) -> a = b * q + r /\ 0 <= r < b.
Proof.
  intros Hb H. pose proof (Z_div_mod a b ltac:(lia)) as Hdm.
  rewrite H in Hdm. exact Hdm.
Qed.

Lemma half_spec (x : float) (vx : Z) :
  good x vx ->
  exists v, good (div x f2) v /\
    (2 * v = vx \/ (Z.odd vx = true /\ (2 * v = vx - 1 \/ 2 * v = vx + 1))).
Proof.
  intros Hx.
  destruct (good_zero_or_finite x vx Hx) as [(sx & -> & ->)|(sx & mx & ex & ->)].
  - exists 0. split; [apply good_zero|now left].
  - destruct (good_inv_finite _ _ _ _ Hx) as (Hex & Hmx & Hnorm & Hvx).
    change f2 with (S754_finite false 4503599627370496 (-51)).
    unfold div. cbn [SFdiv]. rewrite Bool.xorb_false_r.
    unfold SFdiv_core_binary. cbv zeta.
    change (Zdigits2 4503599627370496) with 53.
    assert (Hd : Zdigits2 (Zpos mx) <= 53)
      by (apply Zdigits2_lt_pow2; lia).
    assert (Hdn : -1074 < ex -> Zdigits2 (Zpos mx) = 53).
    { intros He. specialize (Hnorm He).
      pose proof (Zdigits2_ge_pow2 (Zpos mx) 52 Hnorm ltac:(lia)). lia. }
    destruct (Z_le_gt_dec (-1072) ex) as [HA|HA];
      [|destruct (Z.eq_dec ex (-1073)) as [HB|HB]].
    + (* the exponent drops by one *)
      rewrite fexp_eq, (Hdn ltac:(lia)).
      replace (Z.min (Z.max (53 + ex - (53 + -51) - 53) (-1074)) (ex - -51))
        with (ex - 2) by lia.
      replace (ex - -51 - (ex - 2)) with 53 by lia.
      rewrite Z.shiftl_mul_pow2 by lia.
      destruct (Z.div_eucl _ _) as [q r] eqn:Hqr.
      apply div_eucl_eq in Hqr; [|lia].
      change (2 ^ 53) with 9007199254740992 in Hqr.
      assert (Hq : q = 2 * Zpos mx) by lia. assert (Hr : r = 0) by lia.
      subst q r. change (new_location 4503599627370496 0) with loc_Exact.
      destruct (bra_spec sx (2 * Zpos mx) (ex - 2) loc_Exact 1)
        as (m1 & Hm1 & _ & Hg); try lia.
      { rewrite fexp_eq.
        replace (2 * Zpos mx) with (Zpos mx * 2 ^ 1) by (simpl; lia).
        rewrite Zdigits2_mul_pow2, (Hdn ltac:(lia)) by lia. lia. }
      { now right. }
      exists (cond_Zopp sx (m1 * 2 ^ (ex - 2 + 1 + 1074))). split; [exact Hg|].
      left. assert (Hm1' : m1 = Zpos mx).
      { change (2 ^ 1) with 2 in Hm1. destruct Hm1 as [->|[_ Hne]].
        - rewrite Z.mul_comm. apply Z.div_mul. lia.
        - exfalso. apply Hne; [reflexivity|].
          rewrite Z.mul_comm. apply Z.mod_mul. lia. }
      subst m1 vx. replace (ex + 1074) with (Z.succ (ex - 2 + 1 + 1074)) by lia.
      rewrite Z.pow_succ_r by lia. destruct sx; cbn [cond_Zopp]; ring.
    + (* the result is the smallest normal exponent *)
      subst ex. rewrite fexp_eq, (Hdn ltac:(lia)).
      change (Z.min _ _) with (-1074). change (-1073 - -51 - -1074) with 52.
      rewrite Z.shiftl_mul_pow2 by lia.
      destruct (Z.div_eucl _ _) as [q r] eqn:Hqr.
      apply div_eucl_eq in Hqr; [|lia].
      change (2 ^ 52) with 4503599627370496 in Hqr.
      assert (Hq : q = Zpos mx) by lia. assert (Hr : r = 0) by lia.
      subst q r. change (new_location 4503599627370496 0) with loc_Exact.
      destruct (bra_spec sx (Zpos mx) (-1074) loc_Exact 0)
        as (m1 & _ & Hm1 & Hg); try lia.
      { rewrite fexp_eq, (Hdn ltac:(lia)). lia. }
      exists (cond_Zopp sx (m1 * 2 ^ (-1074 + 0 + 1074))). split; [exact Hg|].
      left. rewrite (Hm1 eq_refl). cbn [round_nearest_even]. subst vx.
      change (2 ^ (-1074 + 0 + 1074)) with 1. change (2 ^ (-1073 + 1074)) with 2.
      destruct sx; cbn [cond_Zopp]; ring.
    + (* subnormal operand: the last bit may be rounded *)
      assert (ex = -1074) by lia. subst ex. rewrite fexp_eq.
      replace (Z.min _ _) with (-1074) by lia.
      change (-1074 - -51 - -1074) with 51.
      rewrite Z.shiftl_mul_pow2 by lia.
      destruct (Z.div_eucl _ _) as [q r] eqn:Hqr.
      apply div_eucl_eq in Hqr; [|lia].
      change (2 ^ 51) with 2251799813685248 in Hqr.
      assert (Hq0 : 0 <= q) by lia.
      assert (Hq53 : q < 2 ^ 53) by lia.
      destruct (bra_spec sx q (-1074) (new_location 4503599627370496 r) 0)
        as (m1 & _ & Hm1 & Hg); try lia.
      { rewrite fexp_eq.
        pose proof (Zdigits2_lt_pow2 q 53 ltac:(lia) ltac:(lia)).
        assert (0 <= Zdigits2 q) by (destruct q; simpl; lia). lia. }
      exists (cond_Zopp sx (m1 * 2 ^ (-1074 + 0 + 1074))). split; [exact Hg|].
      rewrite (Hm1 eq_refl). subst vx.
      change (2 ^ (-1074 + 0 + 1074)) with 1. change (2 ^ (-1074 + 1074)) with 1.
      rewrite !Z.mul_1_r.
      assert (Hr : r = 0 \/ r = 2251799813685248) by lia.
      destruct Hr as [-> | ->].
      * left. change (new_location 4503599627370496 0) with loc_Exact.
        cbn [round_nearest_even]. destruct sx; cbn [cond_Zopp]; lia.
      * right.
        change (new_location 4503599627370496 2251799813685248)
          with (loc_Inexact Eq).
        assert (Hodd : Z.odd (Zpos mx) = true).
        { replace (Zpos mx) with (1 + 2 * q) by lia.
          rewrite Z.odd_add_mul_2. reflexivity. }
        split.
        { destruct sx; cbn [cond_Zopp]; [rewrite Z.odd_opp|]; exact Hodd. }
        cbn [round_nearest_even].
        destruct (Z.even q); destruct sx; cbn [cond_Zopp]; lia.
Qed.


(** ** Comparison *)

Lemma finite_pos_compare (m1 m2 : positive) (e1 e2 v1 v2 : Z) :
  good (S754_finite false m1 e1) v1 -> good (S754_finite false m2 e2) v2 ->
  match e1 ?= e2 with
  | Lt => Lt
  | Gt => Gt
  | Eq => Pos.compare_cont Eq m1 m2
  end = (v1 ?= v2).
Proof.
  intros H1 H2.
  destruct (good_inv_finite _ _ _ _ H1) as (He1 & Hm1 & Hn1 & ->).
  destruct (good_inv_finite _ _ _ _ H2) as (He2 & Hm2 & Hn2 & ->).
  cbn [cond_Zopp]. change (2 ^ 52) with 4503599627370496 in *.
  change (2 ^ 53) with 9007199254740992 in *.
  assert (Hlt : forall ma mb ea eb,
    -1074 <= ea -> ea < eb -> Zpos ma < 9007199254740992 ->
    4503599627370496 <= Zpos mb ->
    Zpos ma * 2 ^ (ea + 1074) < Zpos mb * 2 ^ (eb + 1074)).
  { intros ma mb ea eb Hea Hab Hma Hmb.
    replace (eb + 1074) with ((eb - ea - 1) + 1 + (ea + 1074)) by lia.
    rewrite (Z.pow_add_r 2 (eb - ea - 1 + 1) (ea + 1074)),
            (Z.pow_add_r 2 (eb - ea - 1) 1) by lia.
    change (2 ^ 1) with 2.
    pose proof (pow2_pos (ea + 1074) ltac:(lia)) as HU.
    pose proof (pow2_pos (eb - ea - 1) ltac:(lia)) as HP.
    set (U := 2 ^ (ea + 1074)) in *. set (P := 2 ^ (eb - ea - 1)) in *.
    assert (Zpos ma * U < 9007199254740992 * U)
      by (apply Z.mul_lt_mono_pos_r; lia).
    assert (Zpos mb * 1 <= Zpos mb * P)
      by (apply Z.mul_le_mono_nonneg_l; lia).
    assert (9007199254740992 * U <= (Zpos mb * P * 2) * U)
      by (apply Z.mul_le_mono_nonneg_r; lia).
    lia. }
  destruct (Z.compare_spec e1 e2) as [Heq|Hl|Hg]; symmetry.
  - subst e2. rewrite Pos.compare_cont_spec. cbn [Pos.switch_Eq].
    rewrite <- Zmult_compare_compat_r by (pose proof (pow2_pos (e1 + 1074)); lia).
    change (Zpos m1 ?= Zpos m2) with (m1 ?= m2)%positive.
    destruct (m1 ?= m2)%positive; reflexivity.
  - apply Z.compare_lt_iff. apply Hlt; lia.
  - apply Z.compare_gt_iff. apply Hlt; lia.
Qed.

Lemma good_abs (s : bool) (m : positive) (e v : Z) :
  good (S754_finite s m e) v ->
  good (S754_finite false m e) (Zpos m * 2 ^ (e + 1074)) /\
  v = cond_Zopp s (Zpos m * 2 ^ (e + 1074)) /\
  0 < Zpos m * 2 ^ (e + 1074).
Proof.
  intros H. destruct (good_inv_finite _ _ _ _ H) as (He & _ & _ & Hv).
  destruct H as (Hval & _ & _). repeat split; try assumption.
  pose proof (pow2_pos (e + 1074) ltac:(lia)). nia.
Qed.

Lemma compare_spec (x y : float) (vx vy : Z) :
  good x vx -> good y vy -> SFcompare x y = Some (vx ?= vy).
Proof.
  intros Hx Hy.
  destruct (good_zero_or_finite x vx Hx) as [(sx & -> & ->)|(sx & mx & ex & ->)];
  destruct (good_zero_or_finite y vy Hy) as [(sy & -> & ->)|(sy & my & ey & ->)].
  - reflexivity.
  - destruct (good_abs _ _ _ _ Hy) as (_ & -> & Hpos).
    cbn [SFcompare]. f_equal. symmetry.
    destruct sy; cbn [cond_Zopp];
      [apply Z.compare_gt_iff | apply Z.compare_lt_iff]; lia.
  - destruct (good_abs _ _ _ _ Hx) as (_ & -> & Hpos).
    cbn [SFcompare]. f_equal. symmetry.
    destruct sx; cbn [cond_Zopp];
      [apply Z.compare_lt_iff | apply Z.compare_gt_iff]; lia.
  - destruct (good_abs _ _ _ _ Hx) as (Hax & -> & Hpx).
    destruct (good_abs _ _ _ _ Hy) as (Hay & -> & Hpy).
    pose proof (finite_pos_compare _ _ _ _ _ _ Hax Hay) as Hc.
    cbn [SFcompare]. f_equal.
    destruct sx, sy; cbn [cond_Zopp].
    + rewrite Z.compare_opp, (Z.compare_antisym (Zpos mx * _)), <- Hc.
      destruct (ex ?= ey); reflexivity.
    + symmetry. apply Z.compare_lt_iff. lia.
    + symmetry. apply Z.compare_gt_iff. lia.
    + exact Hc.
Qed.

Lemma le_spec (x y : float) (vx vy : Z) :
  good x vx -> good y vy -> le x y = (vx <=? vy).
Proof.
  intros Hx Hy. unfold le, SFleb. rewrite (compare_spec x y vx vy Hx Hy).
  unfold Z.leb. destruct (vx ?= vy); reflexivity.
Qed.

Lemma lt_spec (x y : float) (vx vy : Z) :
  good x vx -> good y vy -> lt x y = (vx <? vy).
Proof.
  intros Hx Hy. unfold lt, SFltb. rewrite (compare_spec x y vx vy Hx Hy).
  unfold Z.ltb. destruct (vx ?= vy); reflexivity.
Qed.

(** ** The midpoint [(lo + hi) / 2.] *)

Lemma midpoint_spec (lo hi : float) (vlo vhi : Z) :
  good lo vlo -> good hi vhi ->
  Z.abs vlo < 2 ^ 2095 -> Z.abs vhi < 2 ^ 2095 ->
  vlo <= vhi ->
  exists v, good (midpoint lo hi) v /\ vlo <= v <= vhi /\
    (representable (vlo + vhi) -> Z.even (vlo + vhi) = true ->
     2 * v = vlo + vhi).
Proof.
  intros Hlo Hhi Blo Bhi Hle.
  destruct (add_spec lo hi vlo vhi Hlo Hhi Blo Bhi) as (vs & Hs & Hlow & Hupp).
  destruct (half_spec _ vs Hs) as (v & Hv & Hhalf).
  assert (H1 : 2 * vlo <= vs).
  { apply Hlow; [|lia]. apply representable_double.
    eapply good_representable; eassumption. }
  assert (H2 : vs <= 2 * vhi).
  { apply Hupp; [|lia]. apply representable_double.
    eapply good_representable; eassumption. }
  exists v. split; [exact Hv|]. split.
  - destruct Hhalf as [Heq|[Hodd Hor]]; [lia|].
    rewrite Z.odd_spec in Hodd. destruct Hodd as [t ->]. lia.
  - intros Hrep Hev.
    assert (Hvs : vs = vlo + vhi).
    { pose proof (Hlow _ Hrep ltac:(lia)). pose proof (Hupp _ Hrep ltac:(lia)). lia. }
    destruct Hhalf as [Heq|[Hodd _]]; [lia|].
    rewrite Hvs, <- Z.negb_even, Hev in Hodd. discriminate.
Qed.

End F64Facts.

(* ================================================================== *)
(** * Strings and the alphabet *)
(* ================================================================== *)

Lemma chars_app (s1 s2 : str) : chars (s1 ++ s2) = (chars s1 ++ chars s2)%list.
Proof. reflexivity. Qed.

Lemma alphabet_string_cons (c : codepoint) (g : str) :
  alphabet_string (c :: g) <-> in_alphabet c /\ alphabet_string g.
Proof. unfold alphabet_string, chars. apply Forall_cons_iff. Qed.

Lemma alphabet_string_app (g1 g2 : str) :
  alphabet_string (g1 ++ g2) <-> alphabet_string g1 /\ alphabet_string g2.
Proof. unfold alphabet_string. rewrite chars_app. apply Forall_app. Qed.

Lemma find_from_spec (s : str) (c : codepoint) (i : Z) :
  0 <= i ->
  (find_from s c i = -1 <-> ~ In c (chars s)) /\
  (find_from s c i <> -1 -> i <= find_from s c i).
Proof.
  unfold chars. revert i. induction s as [|a s IH]; intros i Hi; simpl.
  - split; [tauto | congruence].
  - destruct (N.eqb_spec a c) as [->|Hne].
    + split; [|lia]. split; [lia | intros H; exfalso; apply H; now left].
    + destruct (IH (i + 1) ltac:(lia)) as [Hiff Hge]. split.
      * rewrite Hiff. tauto.
      * intros H. specialize (Hge H). lia.
Qed.

Lemma find_alphabet (c : codepoint) : find geohash_base32 c <> -1 <-> in_alphabet c.
Proof.
  unfold find, in_alphabet.
  destruct (find_from_spec geohash_base32 c 0 ltac:(lia)) as [Hiff _].
  split.
  - intros H. destruct (in_dec N.eq_dec c (chars geohash_base32)); [assumption|].
    exfalso. apply H, Hiff. assumption.
  - intros Hin H. apply Hiff in H. contradiction.
Qed.

Lemma in_alphabet_dec (c : codepoint) : {in_alphabet c} + {~ in_alphabet c}.
Proof. apply in_dec, N.eq_dec. Qed.

(** Membership of a literal string in the alphabet, by enumeration. *)
Ltac literal_alphabet :=
  unfold alphabet_string, in_alphabet, chars; vm_compute;
  repeat (constructor; [tauto|]); constructor.

(** ** [lower] *)

Lemma lower_from_cons (before : str) (c : codepoint) (s : str) :
  lower_from before (c :: s) =
  (if (c =? Unicode.capital_sigma)%N
   then [handle_capital_sigma before s]
   else Unicode.to_lower_full c) ++ lower_from (c :: before) s.
Proof. reflexivity. Qed.

Lemma assoc_in (c : codepoint) (table : list (codepoint * list codepoint))
    (mapped : list codepoint) :
  Unicode.assoc c table = Some mapped -> In (c, mapped) table.
Proof.
  induction table as [|[k v] table IH]; cbn [Unicode.assoc]; [discriminate|].
  destruct (N.eqb_spec k c) as [->|Hne].
  - intros H. injection H as <-. now left.
  - intros H. right. auto.
Qed.

Lemma stable_spec (c : codepoint) :
  stable c = true ->
  (c =? Unicode.capital_sigma)%N = false /\ Unicode.to_lower_full c = [c].
Proof.
  unfold stable, Unicode.to_lower_full. intros H.
  apply andb_true_iff in H. destruct H as [H1 H2].
  apply negb_true_iff in H1. split; [exact H1|].
  destruct (Unicode.assoc c Unicode.lowercase_mapping); [discriminate | reflexivity].
Qed.

(** [lower] leaves a string of stable code points as it is. *)
Lemma lower_from_stable (s : str) :
  forall before, forallb stable s = true -> lower_from before s = s.
Proof.
  induction s as [|c s IH]; intros before H; [reflexivity|].
  cbn [forallb] in H. apply andb_true_iff in H. destruct H as [Hc Hs].
  destruct (stable_spec c Hc) as [H1 H2].
  rewrite lower_from_cons, H1, H2, (IH _ Hs). reflexivity.
Qed.

Lemma mapping_stable :
  forallb (fun kv => forallb stable (snd kv)) Unicode.lowercase_mapping = true.
Proof. vm_compute. reflexivity. Qed.

(** Every lower-case mapping consists of stable code points. *)
Lemma to_lower_full_stable (c : codepoint) :
  forallb stable (Unicode.to_lower_full c) = true.
Proof.
  unfold Unicode.to_lower_full.
  destruct (Unicode.assoc c Unicode.lowercase_mapping) as [mapped|] eqn:E.
  - apply assoc_in in E.
    apply (proj1 (forallb_forall _ _) mapping_stable (c, mapped) E).
  - cbn [forallb]. unfold stable. rewrite E, andb_true_r, andb_true_r.
    apply negb_true_iff. destruct (N.eqb_spec c Unicode.capital_sigma) as [->|]; [|reflexivity].
    vm_compute in E. discriminate.
Qed.

Lemma handle_capital_sigma_cases (before after : str) :
  handle_capital_sigma before after = Unicode.small_final_sigma \/
  handle_capital_sigma before after = Unicode.small_sigma.
Proof.
  unfold handle_capital_sigma.
  destruct (match skip_case_ignorable before with Some _ => _ | None => _ end);
    [left | right]; reflexivity.
Qed.

Lemma lower_from_is_stable (s : str) :
  forall before, forallb stable (lower_from before s) = true.
Proof.
  induction s as [|c s IH]; intros before; [reflexivity|].
  rewrite lower_from_cons, forallb_app, IH, andb_true_r.
  destruct (c =? Unicode.capital_sigma)%N; [|apply to_lower_full_stable].
  destruct (handle_capital_sigma_cases before s) as [-> | ->]; vm_compute; reflexivity.
Qed.

Lemma lower_idempotent (g : str) : lower (lower g) = lower g.
Proof. unfold lower. apply lower_from_stable, lower_from_is_stable. Qed.

Lemma alphabet_stable (c : codepoint) : in_alphabet c -> stable c = true.
Proof.
  unfold in_alphabet, chars. intros H. vm_compute in H.
  repeat (destruct H as [<-|H]; [vm_compute; reflexivity|]). contradiction.
Qed.

Lemma lower_alphabet (g : str) : alphabet_string g -> lower g = g.
Proof.
  intros Hg. apply lower_from_stable. apply forallb_forall.
  intros c Hc. apply alphabet_stable.
  apply (proj1 (Forall_forall _ _) Hg c Hc).
Qed.

(** Away from the capital sigma [lower] works code point by code point. *)
Lemma lower_from_sigma_free (s : str) :
  forall before, ~ In Unicode.capital_sigma s ->
    lower_from before s = flat_map Unicode.to_lower_full s.
Proof.
  induction s as [|c s IH]; intros before H; [reflexivity|].
  rewrite lower_from_cons. cbn [flat_map].
  destruct (N.eqb_spec c Unicode.capital_sigma) as [->|Hne].
  - exfalso. apply H. now left.
  - rewrite IH; [reflexivity|]. intros Hin. apply H. now right.
Qed.

(** What [lower] makes of one code point of its input is in its output. *)
Lemma lower_from_in (s : str) (c x : codepoint) :
  forall before, In c s ->
    In x (if (c =? Unicode.capital_sigma)%N
          then [Unicode.small_final_sigma; Unicode.small_sigma]
          else Unicode.to_lower_full c) ->
    (c =? Unicode.capital_sigma)%N = false ->
    In x (lower_from before s).
Proof.
  induction s as [|a s IH]; intros before Hc Hx Hne; [contradiction|].
  rewrite lower_from_cons. apply in_or_app. destruct Hc as [->|Hc].
  - left. rewrite Hne in *. exact Hx.
  - right. now apply IH.
Qed.

(** A capital sigma leaves a small sigma, which is no alphabet symbol. *)
Lemma lower_from_sigma (s : str) :
  forall before, In Unicode.capital_sigma s ->
    exists x, In x (lower_from before s) /\ ~ in_alphabet x.
Proof.
  induction s as [|a s IH]; intros before H; [contradiction|].
  rewrite lower_from_cons. destruct (N.eqb_spec a Unicode.capital_sigma) as [->|Hne].
  - exists (handle_capital_sigma before s). split; [now left|].
    destruct (handle_capital_sigma_cases before s) as [-> | ->];
      unfold in_alphabet, chars; vm_compute; intuition discriminate.
  - destruct H as [->|H]; [contradiction|].
    destruct (IH (a :: before) H) as (x & Hx & Hbad).
    exists x. split; [apply in_or_app; now right | exact Hbad].
Qed.

(** Every code point of the output comes from one of the input. *)
Lemma lower_from_origin (s : str) (x : codepoint) :
  forall before, In x (lower_from before s) ->
    exists c, In c s /\
      In x (if (c =? Unicode.capital_sigma)%N
            then [Unicode.small_final_sigma; Unicode.small_sigma]
            else Unicode.to_lower_full c).
Proof.
  induction s as [|a s IH]; intros before H; [contradiction|].
  rewrite lower_from_cons in H. apply in_app_or in H. destruct H as [H|H].
  - exists a. split; [now left|].
    destruct (a =? Unicode.capital_sigma)%N; [|exact H].
    destruct H as [<-|[]].
    destruct (handle_capital_sigma_cases before s) as [-> | ->]; simpl; tauto.
  - destruct (IH _ H) as (c & Hc & Hx). exists c. split; [now right | exact Hx].
Qed.

Lemma getitem_alphabet (i : Z) :
  0 <= i < 32 ->
  exists c, getitem geohash_base32 i = Ok c /\ in_alphabet c /\
            find geohash_base32 c = i.
Proof.
  intros Hi. replace i with (Z.of_nat (Z.to_nat i)) by lia.
  assert (Hn : (Z.to_nat i < 32)%nat) by lia.
  revert Hn. generalize (Z.to_nat i) as n. intros n Hn.
  do 32 (destruct n as [|n];
         [eexists; split; [reflexivity|]; split;
          [unfold in_alphabet, chars; simpl; tauto | reflexivity]|]).
  lia.
Qed.

(* ================================================================== *)
(** * The loops of [get_bounds] *)
(* ================================================================== *)

Lemma bisect_narrow (index n : Z) (st : GetBounds.state) :
  GetBounds.bisect index n st = narrow (Z.land (Z.shiftr index n) 1 =? 1) st.
Proof.
  unfold narrow, GetBounds.bisect.
  destruct (Z.land (Z.shiftr index n) 1 =? 1); reflexivity.
Qed.

Lemma narrow_even_bit (b : bool) (g : GetBounds.state) :
  GetBounds.even_bit (narrow b g) = negb (GetBounds.even_bit g).
Proof.
  unfold narrow, GetBounds.bisect.
  destruct (GetBounds.even_bit g), b; reflexivity.
Qed.

Lemma narrow_longitude (b : bool) (g : GetBounds.state) :
  GetBounds.even_bit g = true ->
  GetBounds.latitude_min (narrow b g) = GetBounds.latitude_min g /\
  GetBounds.latitude_max (narrow b g) = GetBounds.latitude_max g /\
  GetBounds.longitude_min (narrow b g) =
    (if b then midpoint (GetBounds.longitude_min g) (GetBounds.longitude_max g)
     else GetBounds.longitude_min g) /\
  GetBounds.longitude_max (narrow b g) =
    (if b then GetBounds.longitude_max g
     else midpoint (GetBounds.longitude_min g) (GetBounds.longitude_max g)).
Proof.
  intros He. unfold narrow, GetBounds.bisect. rewrite He.
  destruct b; repeat split.
Qed.

Lemma narrow_latitude (b : bool) (g : GetBounds.state) :
  GetBounds.even_bit g = false ->
  GetBounds.longitude_min (narrow b g) = GetBounds.longitude_min g /\
  GetBounds.longitude_max (narrow b g) = GetBounds.longitude_max g /\
  GetBounds.latitude_min (narrow b g) =
    (if b then midpoint (GetBounds.latitude_min g) (GetBounds.latitude_max g)
     else GetBounds.latitude_min g) /\
  GetBounds.latitude_max (narrow b g) =
    (if b then GetBounds.latitude_max g
     else midpoint (GetBounds.latitude_min g) (GetBounds.latitude_max g)).
Proof.
  intros He. unfold narrow, GetBounds.bisect. rewrite He.
  destruct b; repeat split.
Qed.

Lemma character_step_alphabet (st : GetBounds.state) (c : codepoint) :
  in_alphabet c ->
  exists b4 b3 b2 b1 b0,
    GetBounds.character_step st c =
    Ok (narrow b0 (narrow b1 (narrow b2 (narrow b3 (narrow b4 st))))).
Proof.
  intros Hc. apply find_alphabet in Hc. unfold GetBounds.character_step.
  apply Z.eqb_neq in Hc. rewrite Hc.
  change GetBounds.nvals with [4; 3; 2; 1; 0]. cbn [fold_left].
  rewrite !bisect_narrow. do 5 eexists. reflexivity.
Qed.

Lemma character_step_invalid (st : GetBounds.state) (c : codepoint) :
  ~ in_alphabet c -> GetBounds.character_step st c = Raise InvalidCharacter.
Proof.
  intros Hc. unfold GetBounds.character_step.
  destruct (Z.eqb_spec (find geohash_base32 c) (-1)) as [_|Hne]; [reflexivity|].
  apply find_alphabet in Hne. contradiction.
Qed.

Lemma for_characters_app (g1 g2 : str) (st : GetBounds.state) :
  GetBounds.for_characters (g1 ++ g2) st =
  (st' <- GetBounds.for_characters g1 st ;; GetBounds.for_characters g2 st').
Proof.
  revert st. induction g1 as [|c g1 IH]; intros st; simpl; [reflexivity|].
  destruct (GetBounds.character_step st c); simpl; [apply IH | reflexivity].
Qed.

(** The loop fails exactly on a character outside the alphabet, and with
    no other error. *)
Lemma for_characters_raise (g : str) (st : GetBounds.state) :
  (GetBounds.for_characters g st = Raise InvalidCharacter <->
   exists c, In c (chars g) /\ ~ in_alphabet c) /\
  (forall e, GetBounds.for_characters g st = Raise e -> e = InvalidCharacter) /\
  (alphabet_string g -> exists st', GetBounds.for_characters g st = Ok st').
Proof.
  revert st. induction g as [|a g IH]; intros st; cbn [GetBounds.for_characters].
  - repeat split.
    + discriminate.
    + intros (c & [] & _).
    + discriminate.
    + eauto.
  - destruct (in_alphabet_dec a) as [Ha|Ha].
    + destruct (character_step_alphabet st a Ha) as (b4 & b3 & b2 & b1 & b0 & ->).
      cbn [bind]. destruct (IH (narrow b0 (narrow b1 (narrow b2 (narrow b3 (narrow b4 st))))))
        as (Hiff & Herr & Hok).
      repeat split.
      * intros H. apply Hiff in H. destruct H as (c & Hin & Hc).
        exists c. split; [now right | assumption].
      * intros (c & [<-|Hin] & Hc); [contradiction|]. apply Hiff. eauto.
      * exact Herr.
      * rewrite alphabet_string_cons. intros [_ Hg]. auto.
    + rewrite (character_step_invalid st a Ha). cbn [bind]. repeat split.
      * intros _. exists a. split; [now left | assumption].
      * intros e H. now inversion H.
      * rewrite alphabet_string_cons. tauto.
Qed.

Lemma get_bounds_alphabet (g : str) :
  alphabet_string g ->
  exists st, GetBounds.for_characters g GetBounds.init = Ok st /\
             get_bounds g = Ok (GetBounds.box st).
Proof.
  intros Hg. destruct (for_characters_raise g GetBounds.init) as (_ & _ & Hok).
  destruct (Hok Hg) as [st Hst]. exists st. split; [assumption|].
  unfold get_bounds. now rewrite (lower_alphabet g Hg), Hst.
Qed.

(* ================================================================== *)
(** * The box stays ordered and on the globe *)
(* ================================================================== *)

Import F64Facts.

Lemma good_f90 : F64.good f90 (F64.ival f90).
Proof. repeat split. Qed.

Lemma good_neg_f90 : F64.good (F64.neg f90) (- F64.ival f90).
Proof. repeat split. Qed.

Lemma good_f180 : F64.good f180 (F64.ival f180).
Proof. repeat split. Qed.

Lemma good_neg_f180 : F64.good (F64.neg f180) (- F64.ival f180).
Proof. repeat split. Qed.

Lemma ival_f90 : F64.ival f90 = 45 * 2 ^ 1075.
Proof. vm_compute. reflexivity. Qed.

Lemma ival_f180 : F64.ival f180 = 45 * 2 ^ 1076.
Proof. vm_compute. reflexivity. Qed.

Lemma pow2_le (a b : Z) : 0 <= a <= b -> 2 ^ a <= 2 ^ b.
Proof. intros. apply Z.pow_le_mono_r; lia. Qed.

Lemma globe_small : F64.ival f90 < 2 ^ 2095 /\ F64.ival f180 < 2 ^ 2095.
Proof.
  rewrite ival_f90, ival_f180.
  split; apply Z.ltb_lt; vm_compute; reflexivity.
Qed.

Lemma interval_midpoint (W : Z) (lo hi : float) (b : bool) :
  W < 2 ^ 2095 -> interval W lo hi ->
  interval W (if b then midpoint lo hi else lo) (if b then hi else midpoint lo hi).
Proof.
  intros HW (vlo & vhi & Hlo & Hhi & H1 & H2 & H3).
  destruct (midpoint_spec lo hi vlo vhi Hlo Hhi) as (v & Hv & Hbetween & _);
    try lia.
  destruct b.
  - exists v, vhi. split; [exact Hv|]. split; [exact Hhi|]. lia.
  - exists vlo, v. split; [exact Hlo|]. split; [exact Hv|]. lia.
Qed.

Lemma init_within : Within GetBounds.init.
Proof.
  split.
  - exists (- F64.ival f90), (F64.ival f90).
    split; [exact good_neg_f90|]. split; [exact good_f90|].
    rewrite ival_f90. pose proof (pow2_pos 1075). lia.
  - exists (- F64.ival f180), (F64.ival f180).
    split; [exact good_neg_f180|]. split; [exact good_f180|].
    rewrite ival_f180. pose proof (pow2_pos 1076). lia.
Qed.

Lemma narrow_within (b : bool) (g : GetBounds.state) :
  Within g -> Within (narrow b g).
Proof.
  intros [Hlat Hlon]. destruct globe_small as [H90 H180].
  destruct (GetBounds.even_bit g) eqn:He.
  - destruct (narrow_longitude b g He) as (E1 & E2 & E3 & E4).
    split; [rewrite E1, E2; exact Hlat|].
    rewrite E3, E4. now apply interval_midpoint.
  - destruct (narrow_latitude b g He) as (E1 & E2 & E3 & E4).
    split; [|rewrite E1, E2; exact Hlon].
    rewrite E3, E4. now apply interval_midpoint.
Qed.

Lemma within_box (g : GetBounds.state) :
  Within g -> ordered (GetBounds.box g) /\ on_globe (GetBounds.box g).
Proof.
  intros [(a & b & Ha & Hb & A1 & A2 & A3) (c & d & Hc & Hd & C1 & C2 & C3)].
  unfold ordered, on_globe. cbn [GetBounds.box sw ne lat lon].
  rewrite (le_spec _ _ _ _ Ha Hb), (le_spec _ _ _ _ Hc Hd),
          (le_spec _ _ _ _ good_neg_f90 Ha), (le_spec _ _ _ _ Hb good_f90),
          (le_spec _ _ _ _ good_neg_f180 Hc), (le_spec _ _ _ _ Hd good_f180).
  repeat split; apply Z.leb_le; assumption.
Qed.

(** Any sequence of bisections, whatever the bits, keeps the invariant. *)
Lemma bisections_within (steps : list (Z * Z)) (g : GetBounds.state) :
  Within g ->
  Within (fold_left (fun st p => GetBounds.bisect (fst p) (snd p) st) steps g).
Proof.
  revert g. induction steps as [|[index n] steps IH]; intros g Hg; simpl.
  - exact Hg.
  - apply IH. rewrite bisect_narrow. now apply narrow_within.
Qed.

Lemma for_characters_within (g : str) (st st' : GetBounds.state) :
  Within st -> GetBounds.for_characters g st = Ok st' -> Within st'.
Proof.
  revert st. induction g as [|c g IH]; intros st Hst; simpl.
  - intros H. inversion H. now subst.
  - destruct (in_alphabet_dec c) as [Hc|Hc].
    + destruct (character_step_alphabet st c Hc) as (b4 & b3 & b2 & b1 & b0 & ->).
      simpl. apply IH. now do 5 apply narrow_within.
    + rewrite (character_step_invalid st c Hc). discriminate.
Qed.

(* ================================================================== *)
(** * Comparisons of arbitrary floats *)
(* ================================================================== *)

Lemma SFcompare_antisym (a b : float) :
  SFcompare b a = option_map CompOpp (SFcompare a b).
Proof.
  destruct a as [sa|sa| |sa ma ea], b as [sb|sb| |sb mb eb]; simpl;
    try reflexivity;
    try (destruct sa; reflexivity); try (destruct sb; reflexivity);
    try (destruct sa, sb; reflexivity).
  f_equal. rewrite (Z.compare_antisym ea eb).
  pose proof (Pos.compare_cont_antisym ma mb Eq) as Hp. cbn [CompOpp] in Hp.
  rewrite <- Hp.
  destruct sa, sb; try reflexivity;
    destruct (ea ?= eb); cbn [CompOpp]; rewrite ?CompOpp_involutive; reflexivity.
Qed.

Lemma le_defined (a b : float) : F64.le a b = true -> a <> S754_nan /\ b <> S754_nan.
Proof.
  unfold F64.le, SFleb. destruct a, b; simpl; try discriminate;
    intros _; split; discriminate.
Qed.

Lemma le_total (a b : float) :
  a <> S754_nan -> b <> S754_nan -> F64.le a b = false -> F64.le b a = true.
Proof.
  intros Ha Hb. unfold F64.le, SFleb. rewrite (SFcompare_antisym a b).
  destruct (SFcompare a b) as [[| |]|] eqn:Hc; simpl; try discriminate; try reflexivity.
  destruct a, b; simpl in Hc; congruence.
Qed.

Lemma good_not_nan (x : float) (v : Z) : F64.good x v -> x <> S754_nan.
Proof. intros (_ & Hf & _) ->. discriminate. Qed.

Lemma eq_ge (a b : float) : F64.eq a b = true -> F64.ge a b = true.
Proof.
  unfold F64.eq, F64.ge, SFeqb, SFleb. rewrite (SFcompare_antisym a b).
  destruct (SFcompare a b) as [[| |]|]; simpl; congruence.
Qed.

(* ================================================================== *)
(** * The loop of [encode] *)
(* ================================================================== *)

Lemma bisect_view (latitude longitude : float) (st : Encode.state) :
  let d := decide latitude longitude (view st) in
  let st1 := Encode.bisect latitude longitude st in
  Encode.index st1 = Encode.index st * 2 + Z.b2z d /\
  Encode.bit st1 = Encode.bit st /\
  Encode.geohash st1 = Encode.geohash st /\
  Encode.even_bit st1 = Encode.even_bit st /\
  narrow d (view st) =
  {| GetBounds.even_bit := negb (Encode.even_bit st1);
     GetBounds.latitude_min := Encode.lat_min st1;
     GetBounds.latitude_max := Encode.lat_max st1;
     GetBounds.longitude_min := Encode.lon_min st1;
     GetBounds.longitude_max := Encode.lon_max st1 |}.
Proof.
  destruct st as [i k e g a b c d0].
  unfold decide, narrow, view, Encode.bisect, GetBounds.bisect, midpoint.
  cbn [Encode.index Encode.bit Encode.even_bit Encode.geohash Encode.lat_min
       Encode.lat_max Encode.lon_min Encode.lon_max GetBounds.even_bit
       GetBounds.latitude_min GetBounds.latitude_max GetBounds.longitude_min
       GetBounds.longitude_max].
  destruct e.
  - destruct (F64.ge longitude (F64.div (F64.add c d0) f2)); cbn; repeat split; lia.
  - destruct (F64.ge latitude (F64.div (F64.add a b) f2)); cbn; repeat split; lia.
Qed.

(** An iteration that only counts the bit. *)
Lemma body_count (latitude longitude : float) (st : Encode.state) :
  Encode.bit st < 4 ->
  exists st',
    Encode.body latitude longitude st = Ok st' /\
    Encode.index st' =
      Encode.index st * 2 + Z.b2z (decide latitude longitude (view st)) /\
    Encode.bit st' = Encode.bit st + 1 /\
    Encode.geohash st' = Encode.geohash st /\
    view st' = narrow (decide latitude longitude (view st)) (view st).
Proof.
  intros Hb.
  destruct (bisect_view latitude longitude st) as (Hi & Hk & Hg & He & Hv).
  unfold Encode.body, Encode.emit. rewrite Hk.
  apply Z.ltb_lt in Hb. rewrite Hb.
  eexists. split; [reflexivity|].
  cbn [Encode.index Encode.bit Encode.geohash]. rewrite Hv.
  repeat split; assumption.
Qed.

(** An iteration that emits a character. *)
Lemma body_emit (latitude longitude : float) (st : Encode.state) (c : codepoint) :
  ~ Encode.bit st < 4 ->
  getitem geohash_base32
    (Encode.index st * 2 + Z.b2z (decide latitude longitude (view st))) = Ok c ->
  exists st',
    Encode.body latitude longitude st = Ok st' /\
    Encode.index st' = 0 /\ Encode.bit st' = 0 /\
    Encode.geohash st' = (Encode.geohash st ++ [c]) /\
    view st' = narrow (decide latitude longitude (view st)) (view st).
Proof.
  intros Hb Hc.
  destruct (bisect_view latitude longitude st) as (Hi & Hk & Hg & He & Hv).
  unfold Encode.body, Encode.emit. rewrite Hk, Hi, Hc.
  apply Z.ltb_nlt in Hb. rewrite Hb. cbn [bind].
  eexists. split; [reflexivity|].
  cbn [Encode.index Encode.bit Encode.geohash]. rewrite Hv, Hg.
  repeat split.
Qed.

Lemma accumulated_bits (d4 d3 d2 d1 d0 : bool) :
  let idx := ((((0 * 2 + Z.b2z d4) * 2 + Z.b2z d3) * 2 + Z.b2z d2) * 2
              + Z.b2z d1) * 2 + Z.b2z d0 in
  0 <= idx < 32 /\
  (Z.land (Z.shiftr idx 4) 1 =? 1) = d4 /\
  (Z.land (Z.shiftr idx 3) 1 =? 1) = d3 /\
  (Z.land (Z.shiftr idx 2) 1 =? 1) = d2 /\
  (Z.land (Z.shiftr idx 1) 1 =? 1) = d1 /\
  (Z.land (Z.shiftr idx 0) 1 =? 1) = d0.
Proof. destruct d4, d3, d2, d1, d0; vm_compute; intuition congruence. Qed.

(** Five iterations from a character boundary emit one character of the
    alphabet, and [get_bounds] reading that character reaches the very box
    that [encode] holds. *)
Lemma encode_character (latitude longitude : float) (st : Encode.state) :
  Encode.bit st = 0 -> Encode.index st = 0 ->
  exists st1 st2 st3 st4 st5 c,
    Encode.body latitude longitude st = Ok st1 /\
    Encode.body latitude longitude st1 = Ok st2 /\
    Encode.body latitude longitude st2 = Ok st3 /\
    Encode.body latitude longitude st3 = Ok st4 /\
    Encode.body latitude longitude st4 = Ok st5 /\
    Encode.geohash st1 = Encode.geohash st /\
    Encode.geohash st2 = Encode.geohash st /\
    Encode.geohash st3 = Encode.geohash st /\
    Encode.geohash st4 = Encode.geohash st /\
    Encode.geohash st5 = (Encode.geohash st ++ [c]) /\
    Encode.bit st5 = 0 /\ Encode.index st5 = 0 /\
    in_alphabet c /\
    GetBounds.character_step (view st) c = Ok (view st5) /\
    (forall P : GetBounds.state -> Prop,
       (forall g, P g -> P (narrow (decide latitude longitude g) g)) ->
       P (view st) -> P (view st5)).
Proof.
  intros Hk Hi.
  destruct (body_count latitude longitude st) as (st1 & B1 & I1 & K1 & G1 & V1); [lia|].
  destruct (body_count latitude longitude st1) as (st2 & B2 & I2 & K2 & G2 & V2); [lia|].
  destruct (body_count latitude longitude st2) as (st3 & B3 & I3 & K3 & G3 & V3); [lia|].
  destruct (body_count latitude longitude st3) as (st4 & B4 & I4 & K4 & G4 & V4); [lia|].
  set (d4 := decide latitude longitude (view st)) in *.
  set (d3 := decide latitude longitude (view st1)) in *.
  set (d2 := decide latitude longitude (view st2)) in *.
  set (d1 := decide latitude longitude (view st3)) in *.
  set (d0 := decide latitude longitude (view st4)).
  destruct (accumulated_bits d4 d3 d2 d1 d0) as (Hidx & A4 & A3 & A2 & A1 & A0).
  destruct (getitem_alphabet _ Hidx) as (c & Hget & Hc & Hfind).
  destruct (body_emit latitude longitude st4 c) as (st5 & B5 & I5 & K5 & G5 & V5);
    [lia | fold d0; rewrite I4, I3, I2, I1, Hi; exact Hget |].
  fold d0 in V5.
  exists st1, st2, st3, st4, st5, c.
  repeat (split; [first [assumption | congruence]|]).
  split.
  - unfold GetBounds.character_step. rewrite Hfind.
    destruct (Z.eqb_spec
      (((((0 * 2 + Z.b2z d4) * 2 + Z.b2z d3) * 2 + Z.b2z d2) * 2 + Z.b2z d1) * 2
       + Z.b2z d0) (-1)) as [Hm|_]; [lia|].
    change GetBounds.nvals with [4; 3; 2; 1; 0]. cbn [fold_left].
    rewrite !bisect_narrow, A4, A3, A2, A1, A0.
    now rewrite V5, V4, V3, V2, V1.
  - intros P Hstep H0.
    assert (P1 : P (view st1)) by (rewrite V1; apply Hstep, H0).
    assert (P2 : P (view st2)) by (rewrite V2; apply Hstep, P1).
    assert (P3 : P (view st3)) by (rewrite V3; apply Hstep, P2).
    assert (P4 : P (view st4)) by (rewrite V4; apply Hstep, P3).
    rewrite V5. apply Hstep, P4.
Qed.

Lemma string_length_app (s1 s2 : str) :
  List.length (s1 ++ s2) = (List.length s1 + List.length s2)%nat.
Proof. apply length_app. Qed.

Lemma string_app_assoc (s1 s2 s3 : str) : (s1 ++ s2) ++ s3 = s1 ++ (s2 ++ s3).
Proof. symmetry. apply app_assoc. Qed.

Lemma string_app_empty (s : str) : s ++ [] = s.
Proof. apply app_nil_r. Qed.

Lemma while_step {S : Type} (cond : S -> bool) (body : S -> result S)
    (fuel : nat) (s s' : S) :
  cond s = true -> body s = Ok s' ->
  while cond body (Datatypes.S fuel) s = while cond body fuel s'.
Proof. intros Hc Hb. cbn [while]. now rewrite Hc, Hb. Qed.

Lemma while_done {S : Type} (cond : S -> bool) (body : S -> result S)
    (fuel : nat) (s : S) :
  cond s = false -> while cond body fuel s = Some (Ok s).
Proof. intros Hc. destruct fuel; cbn [while]; now rewrite Hc. Qed.

(** From a character boundary with [n] characters to go, [5 * n]
    iterations finish the loop; the characters emitted are in the alphabet
    and drive [get_bounds] to the box [encode] ends with. *)
Lemma encode_loop (latitude longitude : float) (precision : Z) (n : nat) :
  forall (fuel : nat) (st : Encode.state),
    Encode.bit st = 0 -> Encode.index st = 0 ->
    Z.of_nat (List.length (Encode.geohash st)) + Z.of_nat n = precision ->
    (5 * n <= fuel)%nat ->
    exists st' cs,
      while (Encode.cond precision) (Encode.body latitude longitude) fuel st
        = Some (Ok st') /\
      Encode.geohash st' = (Encode.geohash st ++ cs) /\
      List.length cs = n /\
      alphabet_string cs /\
      GetBounds.for_characters cs (view st) = Ok (view st') /\
      (forall P : GetBounds.state -> Prop,
         (forall g, P g -> P (narrow (decide latitude longitude g) g)) ->
         P (view st) -> P (view st')).
Proof.
  induction n as [|n IH]; intros fuel st Hk Hi Hlen Hfuel.
  - exists st, []. rewrite string_app_empty. repeat split.
    + apply while_done. unfold Encode.cond. apply Z.ltb_ge. lia.
    + constructor.
    + auto.
  - destruct (encode_character latitude longitude st Hk Hi)
      as (st1 & st2 & st3 & st4 & st5 & c & B1 & B2 & B3 & B4 & B5
          & G1 & G2 & G3 & G4 & G5 & K5 & I5 & Hc & Hstep & Hinv).
    assert (Hcond : forall s, Encode.geohash s = Encode.geohash st ->
                              Encode.cond precision s = true).
    { intros s Hs. unfold Encode.cond. rewrite Hs. apply Z.ltb_lt. lia. }
    do 5 (destruct fuel as [|fuel]; [lia|]).
    rewrite (while_step _ _ _ st st1), (while_step _ _ _ st1 st2),
            (while_step _ _ _ st2 st3), (while_step _ _ _ st3 st4),
            (while_step _ _ _ st4 st5) by auto.
    destruct (IH fuel st5 K5 I5) as (st' & cs & Hw & Hg & Hl & Ha & Hf & HP).
    { rewrite G5, string_length_app. simpl. lia. }
    { lia. }
    exists st', (c :: cs). split; [exact Hw|]. split.
    { rewrite Hg, G5, string_app_assoc. reflexivity. }
    split; [simpl; now rewrite Hl|].
    split; [apply alphabet_string_cons; now split|].
    split.
    { cbn [GetBounds.for_characters]. rewrite Hstep. exact Hf. }
    intros P Hclosed H0. apply HP; [assumption|]. now apply Hinv.
Qed.

Lemma encode_ok (latitude longitude : float) (precision : Z) (fuel : nat) :
  1 <= precision <= 12 -> 5 * precision <= Z.of_nat fuel ->
  exists g st,
    encode fuel latitude longitude precision = Some (Ok g) /\
    Z.of_nat (List.length g) = precision /\
    alphabet_string g /\
    GetBounds.for_characters g GetBounds.init = Ok st /\
    get_bounds g = Ok (GetBounds.box st) /\
    (forall P : GetBounds.state -> Prop,
       (forall g, P g -> P (narrow (decide latitude longitude g) g)) ->
       P GetBounds.init -> P st).
Proof.
  intros Hp Hfuel.
  destruct (encode_loop latitude longitude precision (Z.to_nat precision)
              fuel Encode.init eq_refl eq_refl)
    as (st' & cs & Hw & Hg & Hl & Ha & Hf & HP).
  { simpl. lia. }
  { lia. }
  cbn [Encode.init Encode.geohash app] in Hg.
  exists cs, (view st'). unfold encode.
  replace ((precision <? 1) || (precision >? 12)) with false
    by (symmetry; apply orb_false_iff; split;
        [apply Z.ltb_ge | rewrite Z.gtb_ltb; apply Z.ltb_ge]; lia).
  rewrite Hw, Hg. repeat split; try assumption.
  - lia.
  - unfold get_bounds. rewrite (lower_alphabet cs Ha).
    change GetBounds.init with (view Encode.init). now rewrite Hf.
Qed.

(** Every iteration succeeds and keeps the accumulator within its five
    bits; the index handed to the alphabet is in range. *)
Lemma body_ok (latitude longitude : float) (st : Encode.state) :
  accumulator_ok st ->
  exists st',
    Encode.body latitude longitude st = Ok st' /\ accumulator_ok st' /\
    (Encode.bit st = 4 ->
     0 <= Encode.index (Encode.bisect latitude longitude st) <= 31).
Proof.
  intros [Hk Hi].
  destruct (bisect_view latitude longitude st) as (Hi1 & _).
  assert (Hd : 0 <= Z.b2z (decide latitude longitude (view st)) <= 1)
    by (destruct (decide latitude longitude (view st)); simpl; lia).
  destruct (Z_lt_ge_dec (Encode.bit st) 4) as [Hlt|Hge].
  - destruct (body_count latitude longitude st Hlt) as (st' & B & I & K & _).
    exists st'. split; [exact B|]. split; [|lia].
    unfold accumulator_ok. rewrite K, I.
    replace (Encode.bit st + 1) with (Z.succ (Encode.bit st)) by lia.
    rewrite Z.pow_succ_r by lia. lia.
  - assert (Hk4 : Encode.bit st = 4) by lia. rewrite Hk4 in Hi.
    change (2 ^ 4) with 16 in Hi.
    destruct (getitem_alphabet
                (Encode.index st * 2 + Z.b2z (decide latitude longitude (view st))))
      as (c & Hget & _); [lia|].
    destruct (body_emit latitude longitude st c) as (st' & B & I & K & _);
      [lia | exact Hget |].
    exists st'. split; [exact B|]. split; [|lia].
    unfold accumulator_ok. rewrite K, I. simpl. lia.
Qed.

Lemma init_accumulator_ok : accumulator_ok Encode.init.
Proof. unfold accumulator_ok. simpl. lia. Qed.

Lemma iterate_ok (latitude longitude : float) (n : nat) (st : Encode.state) :
  accumulator_ok st ->
  exists st',
    iterate n (Encode.body latitude longitude) st = Ok st' /\ accumulator_ok st'.
Proof.
  revert st. induction n as [|n IH]; intros st Hst; cbn [iterate].
  - eauto.
  - destruct (body_ok latitude longitude st Hst) as (st1 & -> & H1 & _).
    cbn [bind]. auto.
Qed.

Lemma while_no_raise (latitude longitude : float) (precision : Z)
    (fuel : nat) (st : Encode.state) (e : exn) :
  accumulator_ok st ->
  while (Encode.cond precision) (Encode.body latitude longitude) fuel st
    <> Some (Raise e).
Proof.
  revert st. induction fuel as [|fuel IH]; intros st Hst; cbn [while].
  - destruct (Encode.cond precision st); discriminate.
  - destruct (Encode.cond precision st); [|discriminate].
    destruct (body_ok latitude longitude st Hst) as (st1 & -> & H1 & _).
    now apply IH.
Qed.

Lemma while_fuel_mono {S : Type} (cond : S -> bool) (body : S -> result S)
    (fuel : nat) :
  forall (s : S) (r : result S) (fuel' : nat),
    while cond body fuel s = Some r -> (fuel <= fuel')%nat ->
    while cond body fuel' s = Some r.
Proof.
  induction fuel as [|fuel IH]; intros s r fuel' H Hle.
  - cbn [while] in H. destruct (cond s) eqn:Hc; [discriminate|].
    inversion H; subst. now apply while_done.
  - destruct fuel' as [|fuel']; [lia|]. cbn [while] in *.
    destruct (cond s); [|exact H].
    destruct (body s); [|exact H]. apply IH; [exact H | lia].
Qed.

Lemma encode_fuel_mono (latitude longitude : float) (precision : Z)
    (fuel fuel' : nat) (r : result str) :
  encode fuel latitude longitude precision = Some r -> (fuel <= fuel')%nat ->
  encode fuel' latitude longitude precision = Some r.
Proof.
  unfold encode. intros H Hle.
  destruct ((precision <? 1) || (precision >? 12)); [exact H|].
  destruct (while _ _ fuel _) as [w|] eqn:Hw; [|discriminate].
  now rewrite (while_fuel_mono _ _ fuel _ w fuel' Hw Hle).
Qed.

(* ================================================================== *)
(** * Containment along the loop of [encode] *)
(* ================================================================== *)

Lemma interval_midpoint_good (W : Z) (lo hi : float) :
  W < 2 ^ 2095 -> interval W lo hi -> exists v, F64.good (midpoint lo hi) v.
Proof.
  intros HW H. destruct (interval_midpoint W lo hi true HW H)
    as (v & _ & Hv & _). eauto.
Qed.

Lemma decide_edge (x lo hi : float) (W : Z) :
  W < 2 ^ 2095 -> interval W lo hi ->
  F64.le lo x = true -> F64.le x hi = true ->
  let d := F64.ge x (midpoint lo hi) in
  F64.le (if d then midpoint lo hi else lo) x = true /\
  F64.le x (if d then hi else midpoint lo hi) = true.
Proof.
  intros HW Hint Hlo Hhi d.
  destruct (interval_midpoint_good W lo hi HW Hint) as (v & Hv).
  destruct d eqn:Hd; subst d; split; try assumption.
  apply le_total; [eapply good_not_nan; eassumption | | exact Hd].
  now destruct (le_defined _ _ Hlo).
Qed.

Lemma decide_contains (latitude longitude : float) (g : GetBounds.state) :
  Within g /\ contains (GetBounds.box g) latitude longitude ->
  Within (narrow (decide latitude longitude g) g) /\
  contains (GetBounds.box (narrow (decide latitude longitude g) g))
           latitude longitude.
Proof.
  intros [HW (C1 & C2 & C3 & C4)]. split; [now apply narrow_within|].
  destruct HW as [Hlat Hlon]. destruct globe_small as [H90 H180].
  unfold contains, decide in *. cbn [GetBounds.box sw ne lat lon] in *.
  destruct (GetBounds.even_bit g) eqn:He.
  - destruct (narrow_longitude
                (F64.ge longitude (midpoint (GetBounds.longitude_min g)
                                            (GetBounds.longitude_max g))) g He)
      as (-> & -> & -> & ->).
    destruct (decide_edge longitude _ _ _ H180 Hlon C3 C4). auto.
  - destruct (narrow_latitude
                (F64.ge latitude (midpoint (GetBounds.latitude_min g)
                                           (GetBounds.latitude_max g))) g He)
      as (-> & -> & -> & ->).
    destruct (decide_edge latitude _ _ _ H90 Hlat C1 C2). auto.
Qed.

(* ================================================================== *)
(** * The properties of the specification *)
(* ================================================================== *)

(** C1 — Round-trip containment: for every latitude in [-90, 90], longitude
    in [-180, 180] and precision in [1, 12], [encode] returns a geohash
    whose [get_bounds] box contains the point, edges included
    ([sw.lat <= latitude <= ne.lat] and [sw.lon <= longitude <= ne.lon]). *)
Theorem C1_round_trip_containment
    (latitude longitude : float) (precision : Z) (fuel : nat) :
  F64.le (F64.neg f90) latitude = true -> F64.le latitude f90 = true ->
  F64.le (F64.neg f180) longitude = true -> F64.le longitude f180 = true ->
  1 <= precision <= 12 -> 5 * precision <= Z.of_nat fuel ->
  exists g box,
    encode fuel latitude longitude precision = Some (Ok g) /\
    get_bounds g = Ok box /\
    contains box latitude longitude.
Proof.
  intros H1 H2 H3 H4 Hp Hfuel.
  destruct (encode_ok latitude longitude precision fuel Hp Hfuel)
    as (g & st & Henc & _ & _ & _ & Hb & HP).
  exists g, (GetBounds.box st). split; [exact Henc|]. split; [exact Hb|].
  apply (HP (fun g => Within g /\ contains (GetBounds.box g) latitude longitude)).
  - apply decide_contains.
  - split; [exact init_within|]. repeat split; assumption.
Qed.

Lemma C1_round_trip_containment_witness :
  exists g box,
    encode 30 (decimal 5764911 5) (decimal 1040744 5) 6 = Some (Ok g) /\
    get_bounds g = Ok box /\
    contains box (decimal 5764911 5) (decimal 1040744 5).
Proof.
  apply (C1_round_trip_containment (decimal 5764911 5) (decimal 1040744 5) 6 30).
  - vm_compute; reflexivity.
  - vm_compute; reflexivity.
  - vm_compute; reflexivity.
  - vm_compute; reflexivity.
  - lia.
  - simpl; lia.
Defined.

(** C2 — Tie-break consistency: when the coordinate on the active axis
    equals the midpoint of that axis' range, [encode] takes the
    greater-or-equal branch (bit 1, lower bound := midpoint); [get_bounds]
    does the same on a 1 bit, so both hold the same box afterwards.  This
    holds in any state of the loops, hence at every bisection step. *)
Theorem C2_tie_break
    (latitude longitude : float) (st : Encode.state) (index n : Z) :
  let even := Encode.even_bit st in
  let coordinate := if even then longitude else latitude in
  let lo := if even then Encode.lon_min st else Encode.lat_min st in
  let hi := if even then Encode.lon_max st else Encode.lat_max st in
  F64.eq coordinate (midpoint lo hi) = true ->
  Z.land (Z.shiftr index n) 1 = 1 ->
  let st' := Encode.bisect latitude longitude st in
  let g' := GetBounds.bisect index n (view st) in
  Encode.index st' = Encode.index st * 2 + 1 /\
  (if even then Encode.lon_min st' else Encode.lat_min st') = midpoint lo hi /\
  (if even then Encode.lon_max st' else Encode.lat_max st') = hi /\
  (if even then GetBounds.longitude_min g' else GetBounds.latitude_min g')
    = midpoint lo hi /\
  (if even then GetBounds.longitude_max g' else GetBounds.latitude_max g')
    = hi /\
  GetBounds.box g' = GetBounds.box (view st').
Proof.
  destruct st as [i k e g a b c d]. cbv zeta.
  cbn [Encode.index Encode.bit Encode.even_bit Encode.geohash Encode.lat_min
       Encode.lat_max Encode.lon_min Encode.lon_max].
  intros Heq Hbit. apply eq_ge in Heq.
  unfold Encode.bisect, GetBounds.bisect, view.
  cbn [Encode.index Encode.bit Encode.even_bit Encode.geohash Encode.lat_min
       Encode.lat_max Encode.lon_min Encode.lon_max GetBounds.even_bit
       GetBounds.latitude_min GetBounds.latitude_max GetBounds.longitude_min
       GetBounds.longitude_max].
  rewrite Hbit. unfold midpoint in *.
  destruct e; rewrite Heq; cbn; repeat split.
Qed.

Lemma C2_tie_break_witness :
  let st' := Encode.bisect (S754_zero false) (S754_zero false) Encode.init in
  let g' := GetBounds.bisect 16 4 (view Encode.init) in
  Encode.index st' = 0 * 2 + 1 /\
  Encode.lon_min st' = midpoint (F64.neg f180) f180 /\
  Encode.lon_max st' = f180 /\
  GetBounds.longitude_min g' = midpoint (F64.neg f180) f180 /\
  GetBounds.longitude_max g' = f180 /\
  GetBounds.box g' = GetBounds.box (view st').
Proof.
  apply (C2_tie_break (S754_zero false) (S754_zero false) Encode.init 16 4).
  - vm_compute; reflexivity.
  - reflexivity.
Defined.

Lemma bind_raise {A B : Type} (r : result A) (f : A -> B) (e : exn) :
  (x <- r ;; Ok (f x)) = Raise e <-> r = Raise e.
Proof. destruct r; simpl; split; congruence. Qed.

Lemma get_bounds_lower (g : str) : get_bounds (lower g) = get_bounds g.
Proof. unfold get_bounds. now rewrite lower_idempotent. Qed.

Lemma get_bounds_raise (g : str) :
  (get_bounds g = Raise InvalidCharacter <->
   exists c, In c (chars (lower g)) /\ ~ in_alphabet c) /\
  (forall e, get_bounds g = Raise e -> e = InvalidCharacter).
Proof.
  destruct (for_characters_raise (lower g) GetBounds.init) as (Hiff & Herr & _).
  unfold get_bounds. split.
  - rewrite <- Hiff. apply (bind_raise _ GetBounds.box).
  - intros e H. apply (bind_raise _ GetBounds.box) in H. now apply Herr.
Qed.

Lemma mapping_accepted :
  forallb
    (fun kv =>
       implb (forallb (fun x => negb (find geohash_base32 x =? -1)) (snd kv))
             (existsb (N.eqb (fst kv))
                (chars geohash_base32 ++ text "BCDEFGHJKMNPQRSTUVWXYZ"
                 ++ [kelvin_sign])))
    Unicode.lowercase_mapping = true.
Proof. vm_compute. reflexivity. Qed.

(** The accepted code points are those, other than the capital sigma,
    whose lower-case mapping is made of alphabet symbols. *)
Lemma accepted_spec (c : codepoint) :
  accepted c <->
  (c =? Unicode.capital_sigma)%N = false /\
  Forall in_alphabet (Unicode.to_lower_full c).
Proof.
  split.
  - unfold accepted, chars. intros H. vm_compute in H.
    repeat (destruct H as [<-|H];
            [split; [reflexivity|];
             unfold in_alphabet, chars; vm_compute;
             constructor; [tauto | constructor] |]).
    contradiction.
  - intros [Hne Hall]. unfold accepted. unfold Unicode.to_lower_full in Hall.
    destruct (Unicode.assoc c Unicode.lowercase_mapping) as [mapped|] eqn:E.
    + apply assoc_in in E.
      pose proof (proj1 (forallb_forall _ _) mapping_accepted (c, mapped) E) as H.
      cbn [fst snd] in H.
      replace (forallb (fun x => negb (find geohash_base32 x =? -1)) mapped)
        with true in H.
      * cbn [implb] in H. apply existsb_exists in H.
        destruct H as (y & Hy & Heq). apply N.eqb_eq in Heq. now subst y.
      * symmetry. apply forallb_forall. intros x Hx.
        apply negb_true_iff, Z.eqb_neq, find_alphabet.
        apply (proj1 (Forall_forall _ _) Hall x Hx).
    + apply in_or_app. left. now inversion Hall.
Qed.

(** The lower-cased string has a character outside the alphabet exactly
    when the string itself has a character that is not accepted. *)
Lemma bad_input (g : str) :
  (exists x, In x (chars (lower g)) /\ ~ in_alphabet x) <->
  (exists c, In c (chars g) /\ ~ accepted c).
Proof.
  unfold chars, lower. split.
  - intros (x & Hx & Hbad).
    destruct (lower_from_origin g x [] Hx) as (c & Hc & Hxc).
    exists c. split; [exact Hc|]. intros Hacc.
    apply accepted_spec in Hacc. destruct Hacc as [Hne Hall].
    rewrite Hne in Hxc. apply Hbad.
    apply (proj1 (Forall_forall _ _) Hall x Hxc).
  - intros (c & Hc & Hbad).
    destruct (N.eqb_spec c Unicode.capital_sigma) as [->|Hne].
    + now apply lower_from_sigma.
    + apply N.eqb_neq in Hne.
      assert (Hex : Exists (fun x => ~ in_alphabet x) (Unicode.to_lower_full c)).
      { apply neg_Forall_Exists_neg.
        - intros x. destruct (in_alphabet_dec x); [now left | now right].
        - intros Hall. apply Hbad, accepted_spec. now split. }
      apply Exists_exists in Hex. destruct Hex as (x & Hx & Hxbad).
      exists x. split; [|exact Hxbad].
      apply (lower_from_in g c x []); [exact Hc | now rewrite Hne | exact Hne].
Qed.

(** C4 — Errors of [encode]: it raises [InvalidPrecision] exactly when the
    precision is outside [1, 12], and nothing else; latitude and longitude
    are never checked, so for any two floats (NaN, infinities and
    out-of-range values included) and a precision in [1, 12] the loop
    finishes within [5 * precision] iterations with a string of
    exactly [precision] characters, the same whatever the iteration
    bound. *)
Theorem C4_encode_errors
    (latitude longitude : float) (precision : Z) (fuel : nat) :
  (encode fuel latitude longitude precision = Some (Raise InvalidPrecision)
   <-> precision < 1 \/ 12 < precision) /\
  (forall e, encode fuel latitude longitude precision = Some (Raise e) ->
             e = InvalidPrecision) /\
  (1 <= precision <= 12 -> 5 * precision <= Z.of_nat fuel ->
   exists g,
     encode fuel latitude longitude precision = Some (Ok g) /\
     Z.of_nat (List.length g) = precision /\
     forall fuel', 5 * precision <= Z.of_nat fuel' ->
       encode fuel' latitude longitude precision = Some (Ok g)).
Proof.
  assert (Hin : 1 <= precision <= 12 ->
                forall e, encode fuel latitude longitude precision
                          <> Some (Raise e)).
  { intros Hp e. unfold encode.
    replace ((precision <? 1) || (precision >? 12)) with false
      by (symmetry; apply orb_false_iff; split;
          [apply Z.ltb_ge | rewrite Z.gtb_ltb; apply Z.ltb_ge]; lia).
    pose proof (while_no_raise latitude longitude precision fuel Encode.init)
      as Hw.
    destruct (while _ _ fuel _) as [[st|e']|]; try discriminate.
    intros H. inversion H; subst. now apply (Hw e init_accumulator_ok). }
  assert (Hout : precision < 1 \/ 12 < precision ->
                 encode fuel latitude longitude precision
                 = Some (Raise InvalidPrecision)).
  { intros Hp. unfold encode.
    replace ((precision <? 1) || (precision >? 12)) with true; [reflexivity|].
    symmetry. apply orb_true_iff. rewrite Z.gtb_ltb, !Z.ltb_lt. lia. }
  split; [|split].
  - split; [|exact Hout]. intros H.
    destruct (Z_lt_ge_dec precision 1); [now left|].
    destruct (Z_lt_ge_dec 12 precision); [now right|].
    exfalso. apply (Hin ltac:(lia) _ H).
  - intros e H.
    destruct (Z_lt_ge_dec precision 1) as [Hlt|Hge1];
      [rewrite Hout in H by lia; congruence|].
    destruct (Z_lt_ge_dec 12 precision) as [Hgt|Hle];
      [rewrite Hout in H by lia; congruence|].
    exfalso. apply (Hin ltac:(lia) _ H).
  - intros Hp Hfuel.
    destruct (encode_ok latitude longitude precision
                (Z.to_nat (5 * precision)) Hp ltac:(lia))
      as (g & _ & Henc & Hlen & _).
    exists g. split; [|split; [exact Hlen|]].
    + apply (encode_fuel_mono _ _ _ _ _ _ Henc). lia.
    + intros fuel' Hf. apply (encode_fuel_mono _ _ _ _ _ _ Henc). lia.
Qed.

Lemma C4_encode_errors_witness :
  exists g,
    encode 5 S754_nan (S754_infinity false) 1 = Some (Ok g) /\
    Z.of_nat (List.length g) = 1 /\
    forall fuel', 5 * 1 <= Z.of_nat fuel' ->
      encode fuel' S754_nan (S754_infinity false) 1 = Some (Ok g).
Proof.
  destruct (C4_encode_errors S754_nan (S754_infinity false) 1 5) as (_ & _ & H).
  apply H; [lia | simpl; lia].
Defined.

(** C5 — Alphabet closure: [get_bounds], and with it [decode],
    [get_polygon] and [get_geojson], raise [InvalidCharacter] exactly when
    the lower-cased input has a character outside the 32-symbol alphabet,
    and raise nothing else; so they fail on [a], [i], [l], [o] and on
    symbols, and succeed on every string of alphabet characters.  In terms
    of the input itself: they succeed exactly on the strings made of the
    32 symbols, their capital letters, and U+212A KELVIN SIGN, which
    [str.lower] turns into [k]. *)
Theorem C5_alphabet_closure
    (V : Type) (props : list (string * V)) (g : str) :
  let bad := exists c, In c (chars (lower g)) /\ ~ in_alphabet c in
  (get_bounds g = Raise InvalidCharacter <-> bad) /\
  (decode g = Raise InvalidCharacter <-> bad) /\
  (get_polygon g = Raise InvalidCharacter <-> bad) /\
  (get_geojson g props = Raise InvalidCharacter <-> bad) /\
  (forall e, get_bounds g = Raise e -> e = InvalidCharacter) /\
  (alphabet_string g -> exists b, get_bounds g = Ok b) /\
  (forall c, In c (chars g) ->
     In c (chars (text "ailoAILO !#$%&()*+,-./:;<=>?@[]^_{|}~")) ->
     get_bounds g = Raise InvalidCharacter) /\
  (bad <-> exists c, In c (chars g) /\ ~ accepted c) /\
  ((exists b, get_bounds g = Ok b) <-> Forall accepted (chars g)).
Proof.
  cbv zeta. destruct (get_bounds_raise g) as [Hiff Herr].
  split; [exact Hiff|].
  split; [|split; [|split; [|split; [exact Herr|split; [|split; [|split]]]]]].
  - rewrite <- Hiff. unfold decode. apply bind_raise.
  - rewrite <- Hiff. unfold get_polygon. apply bind_raise.
  - rewrite <- Hiff. unfold get_geojson, get_polygon.
    rewrite get_bounds_lower. destruct (get_bounds g); simpl; split; congruence.
  - intros Hg. destruct (get_bounds_alphabet g Hg) as (st & _ & ->). eauto.
  - intros c Hin Hsym. apply Hiff, bad_input. exists c. split; [exact Hin|].
    unfold accepted, chars in *. vm_compute in Hsym.
    repeat (destruct Hsym as [<-|Hsym];
            [vm_compute; intuition discriminate|]).
    contradiction.
  - apply bad_input.
  - rewrite Forall_forall. split.
    + intros [b Hb] c Hc.
      destruct (in_dec N.eq_dec c
                  (chars geohash_base32 ++ text "BCDEFGHJKMNPQRSTUVWXYZ"
                   ++ [kelvin_sign])) as [Hacc|Hacc]; [exact Hacc|].
      exfalso. assert (Hr : get_bounds g = Raise InvalidCharacter).
      { apply Hiff, bad_input. exists c. now split. }
      congruence.
    + intros Hall. destruct (get_bounds g) as [b|e] eqn:Hb; [eauto|].
      exfalso. pose proof (Herr e eq_refl) as ->.
      destruct (proj1 (bad_input g) (proj1 Hiff eq_refl)) as (c & Hc & Hbad).
      apply Hbad, Hall, Hc.
Qed.

Lemma C5_alphabet_closure_witness :
  (exists b, get_bounds (text "u4pruy") = Ok b) /\
  get_bounds (text "u4pruya") = Raise InvalidCharacter /\
  (exists b, get_bounds (text "U4" ++ [kelvin_sign]) = Ok b).
Proof.
  split; [|split].
  - destruct (C5_alphabet_closure unit [] (text "u4pruy"))
      as (_ & _ & _ & _ & _ & H & _).
    apply H. literal_alphabet.
  - destruct (C5_alphabet_closure unit [] (text "u4pruya"))
      as (_ & _ & _ & _ & _ & _ & H & _).
    apply (H 97%N); unfold chars; vm_compute; tauto.
  - destruct (C5_alphabet_closure unit [] (text "U4" ++ [kelvin_sign]))
      as (_ & _ & _ & _ & _ & _ & _ & _ & H).
    apply H. unfold accepted, chars. vm_compute.
    repeat (constructor; [tauto|]). constructor.
Defined.

(** C6 — [decode] is the midpoint of [get_bounds]: it returns
    [((sw.lat + ne.lat) / 2, (sw.lon + ne.lon) / 2)], latitude first, each
    computed by one binary64 addition and one binary64 division by two,
    and fails exactly as [get_bounds] does. *)
Theorem C6_decode_midpoint (g : str) :
  decode g =
    (b <- get_bounds g ;;
     Ok (F64.div (F64.add (lat (sw b)) (lat (ne b))) (F64.of_Z 2),
         F64.div (F64.add (lon (sw b)) (lon (ne b))) (F64.of_Z 2))) /\
  (alphabet_string g ->
   exists b,
     get_bounds g = Ok b /\
     decode g = Ok (midpoint (lat (sw b)) (lat (ne b)),
                    midpoint (lon (sw b)) (lon (ne b)))).
Proof.
  split; [reflexivity|].
  intros Hg. destruct (get_bounds_alphabet g Hg) as (st & _ & Hb).
  exists (GetBounds.box st). split; [exact Hb|].
  unfold decode. now rewrite Hb.
Qed.

Lemma C6_decode_midpoint_witness :
  exists b,
    get_bounds (text "u4pruy") = Ok b /\
    decode (text "u4pruy") = Ok (midpoint (lat (sw b)) (lat (ne b)),
                          midpoint (lon (sw b)) (lon (ne b))).
Proof.
  destruct (C6_decode_midpoint (text "u4pruy")) as [_ H]. apply H.
  literal_alphabet.
Defined.

(** C7 — Known vector: with the float64 values nearest to the decimal
    literals 57.64911 and 10.40744, [encode] at precision 6 returns
    ["u4pruy"]. *)
Theorem C7_known_vector (fuel : nat) :
  (30 <= fuel)%nat ->
  let latitude := S754_finite false 8113390947320023 (-47) in
  let longitude := S754_finite false 5858867863235099 (-49) in
  (* the two floats are the members of the format nearest to the literals *)
  F64.valid latitude = true /\ F64.valid longitude = true /\
  2 * Z.abs (8113390947320023 * 10 ^ 5 - 5764911 * 2 ^ 47) <= 10 ^ 5 /\
  2 * Z.abs (5858867863235099 * 10 ^ 5 - 1040744 * 2 ^ 49) <= 10 ^ 5 /\
  latitude = decimal 5764911 5 /\ longitude = decimal 1040744 5 /\
  encode fuel latitude longitude 6 = Some (Ok (text "u4pruy")).
Proof.
  intros Hfuel. cbv zeta.
  repeat (split; [vm_compute; first [reflexivity | discriminate]|]).
  apply (encode_fuel_mono _ _ _ 30); [vm_compute; reflexivity | exact Hfuel].
Qed.

Lemma C7_known_vector_witness :
  encode 30 (S754_finite false 8113390947320023 (-47))
            (S754_finite false 5858867863235099 (-49)) 6
  = Some (Ok (text "u4pruy")).
Proof.
  apply (C7_known_vector 30). lia.
Defined.

(** C8 — Polygon ring: for a string of alphabet characters [get_polygon]
    returns exactly five [[longitude, latitude]] pairs, in the order SW,
    NW, NE, SE, SW of the corners of [get_bounds], first equal to last. *)
Theorem C8_polygon_ring (g : str) :
  alphabet_string g ->
  exists b p,
    get_bounds g = Ok b /\ get_polygon g = Ok p /\
    p = [ [lon (sw b); lat (sw b)];
          [lon (sw b); lat (ne b)];
          [lon (ne b); lat (ne b)];
          [lon (ne b); lat (sw b)];
          [lon (sw b); lat (sw b)] ] /\
    List.length p = 5%nat /\
    Forall (fun vertex => List.length vertex = 2%nat) p /\
    nth_error p 0 = nth_error p 4.
Proof.
  intros Hg. destruct (get_bounds_alphabet g Hg) as (st & _ & Hb).
  exists (GetBounds.box st). eexists. split; [exact Hb|].
  unfold get_polygon. rewrite Hb. cbn [bind].
  split; [reflexivity|]. split; [reflexivity|]. split; [reflexivity|].
  split; [repeat constructor | reflexivity].
Qed.

Lemma C8_polygon_ring_witness :
  exists b p,
    get_bounds (text "u4pruy") = Ok b /\ get_polygon (text "u4pruy") = Ok p /\
    p = [ [lon (sw b); lat (sw b)];
          [lon (sw b); lat (ne b)];
          [lon (ne b); lat (ne b)];
          [lon (ne b); lat (sw b)];
          [lon (sw b); lat (sw b)] ] /\
    List.length p = 5%nat /\
    Forall (fun vertex => List.length vertex = 2%nat) p /\
    nth_error p 0 = nth_error p 4.
Proof.
  apply (C8_polygon_ring (text "u4pruy")).
  literal_alphabet.
Defined.

(** C9 — Bounding-box invariant: for every string of alphabet characters,
    of any length, the empty string included, [get_bounds] returns a box
    with [sw.lat <= ne.lat], [sw.lon <= ne.lon] that lies within
    [[-90, 90] x [-180, 180]]; the same holds of the four range variables
    after every single bisection, whatever bits were read. *)
Theorem C9_box_invariant (g : str) :
  alphabet_string g ->
  (exists b, get_bounds g = Ok b /\ ordered b /\ on_globe b) /\
  (forall steps : list (Z * Z),
     let st := fold_left (fun st p => GetBounds.bisect (fst p) (snd p) st)
                         steps GetBounds.init in
     ordered (GetBounds.box st) /\ on_globe (GetBounds.box st)) /\
  (forall g' b, get_bounds g' = Ok b -> ordered b /\ on_globe b).
Proof.
  intros Hg. split; [|split].
  - destruct (get_bounds_alphabet g Hg) as (st & Hst & Hb).
    exists (GetBounds.box st). split; [exact Hb|].
    apply within_box. apply (for_characters_within g GetBounds.init st);
      [exact init_within | exact Hst].
  - intros steps. cbv zeta. apply within_box, bisections_within, init_within.
  - intros g' b. unfold get_bounds.
    destruct (GetBounds.for_characters (lower g') GetBounds.init) as [st|e] eqn:Hst;
      simpl; [|discriminate].
    intros H. inversion H; subst. apply within_box.
    apply (for_characters_within (lower g') GetBounds.init st);
      [exact init_within | exact Hst].
Qed.

Lemma C9_box_invariant_witness :
  exists b, get_bounds (text "u4pruy") = Ok b /\ ordered b /\ on_globe b.
Proof.
  destruct (C9_box_invariant (text "u4pruy")) as [H _]; [literal_alphabet | exact H].
Defined.

(** C10 — The output of [encode] is a valid geohash: whatever the floats,
    the accumulator [index] is within [0, 31] when a character is emitted
    (after every number of iterations the bit counter is in [0, 4] and
    [index] is below [2 ^ bit]), every character of the result is in the
    alphabet, and [get_bounds] and [decode] succeed on it. *)
Theorem C10_encode_output_valid
    (latitude longitude : float) (precision : Z) (fuel : nat) :
  1 <= precision <= 12 -> 5 * precision <= Z.of_nat fuel ->
  (forall n, exists st,
     iterate n (Encode.body latitude longitude) Encode.init = Ok st /\
     accumulator_ok st /\
     (Encode.bit st = 4 ->
      0 <= Encode.index (Encode.bisect latitude longitude st) <= 31)) /\
  exists g,
    encode fuel latitude longitude precision = Some (Ok g) /\
    alphabet_string g /\
    (exists b, get_bounds g = Ok b) /\
    (exists p, decode g = Ok p) /\
    get_bounds g <> Raise InvalidCharacter /\
    decode g <> Raise InvalidCharacter.
Proof.
  intros Hp Hfuel. split.
  - intros n.
    destruct (iterate_ok latitude longitude n Encode.init init_accumulator_ok)
      as (st & Hit & Hacc).
    exists st. split; [exact Hit|]. split; [exact Hacc|].
    destruct (body_ok latitude longitude st Hacc) as (_ & _ & _ & H). exact H.
  - destruct (encode_ok latitude longitude precision fuel Hp Hfuel)
      as (g & st & Henc & _ & Ha & _ & Hb & _).
    exists g. split; [exact Henc|]. split; [exact Ha|].
    assert (Hd : decode g = Ok (np_mean [lat (sw (GetBounds.box st));
                                         lat (ne (GetBounds.box st))],
                                np_mean [lon (sw (GetBounds.box st));
                                         lon (ne (GetBounds.box st))]))
      by (unfold decode; now rewrite Hb).
    rewrite Hb, Hd. repeat split; eauto; discriminate.
Qed.

Lemma C10_encode_output_valid_witness :
  exists g,
    encode 60 S754_nan (S754_infinity true) 12 = Some (Ok g) /\
    alphabet_string g /\
    (exists b, get_bounds g = Ok b) /\
    (exists p, decode g = Ok p) /\
    get_bounds g <> Raise InvalidCharacter /\
    decode g <> Raise InvalidCharacter.
Proof.
  destruct (C10_encode_output_valid S754_nan (S754_infinity true) 12 60)
    as [_ H]; [lia | simpl; lia | exact H].
Defined.

(* ================================================================== *)
(** * Exact bisection down to twelve characters *)
(* ================================================================== *)

Lemma good_ival (x : float) (v : Z) : F64.good x v -> F64.good x (F64.ival x).
Proof. intros (Hv & Hf & _). repeat split; assumption. Qed.

Lemma good_ival_eq (x : float) (v : Z) : F64.good x v -> F64.ival x = v.
Proof. now intros (_ & _ & H). Qed.

(** While the step is a multiple of [2^-1074] that leaves room in the
    mantissa, the midpoint is computed without rounding: it is the middle
    grid point, strictly between the two ends. *)
Lemma grid_midpoint (E d : Z) (lo hi : float) :
  0 <= d <= 29 -> 1075 <= E <= 1076 -> grid E d lo hi ->
  F64.ival lo < F64.ival (midpoint lo hi) < F64.ival hi /\
  grid E (d + 1) lo (midpoint lo hi) /\
  grid E (d + 1) (midpoint lo hi) hi.
Proof.
  intros Hd HE (j & Hlo & Hhi & Hj & Hj2).
  set (P' := 45 * 2 ^ (E - (d + 1))).
  assert (HP' : 0 < P') by (pose proof (pow2_pos (E - (d + 1))); lia).
  assert (HP : 45 * 2 ^ (E - d) = 2 * P').
  { unfold P'. replace (E - d) with (Z.succ (E - (d + 1))) by lia.
    rewrite Z.pow_succ_r by lia. ring. }
  rewrite HP in Hlo, Hhi.
  assert (H2d : 0 < 2 ^ d) by (apply pow2_pos; lia).
  assert (H2d1 : 2 ^ (d + 1) = 2 * 2 ^ d)
    by (replace (d + 1) with (Z.succ d) by lia; apply Z.pow_succ_r; lia).
  assert (Hd30 : 2 ^ d <= 2 ^ 29) by (apply pow2_le; lia).
  assert (HPd : P' * 2 ^ (d + 1) = 45 * 2 ^ E).
  { unfold P'. rewrite <- Z.mul_assoc, <- Z.pow_add_r by lia.
    do 2 f_equal. lia. }
  assert (HE' : 45 * 2 ^ E < 2 ^ 2095).
  { apply Z.le_lt_trans with (45 * 2 ^ 1076).
    - apply Z.mul_le_mono_nonneg_l; [lia | apply pow2_le; lia].
    - apply Z.ltb_lt. vm_compute. reflexivity. }
  assert (Hbound : forall i, Z.abs i <= 2 ^ d -> Z.abs (2 * P' * i) < 2 ^ 2095).
  { intros i Hi. rewrite Z.abs_mul, (Z.abs_eq (2 * P')) by lia.
    apply Z.le_lt_trans with (2 * P' * 2 ^ d); [|rewrite H2d1 in HPd; lia].
    apply Z.mul_le_mono_nonneg_l; lia. }
  destruct (midpoint_spec lo hi _ _ Hlo Hhi (Hbound _ Hj) (Hbound _ Hj2))
    as (v & Hv & _ & Hexact); [nia|].
  assert (Hv2 : 2 * v = 2 * P' * j + 2 * P' * (j + 2)).
  { apply Hexact.
    - exists (45 * (2 * j + 2)), (E - d). split; [lia|]. split.
      + change (2 ^ 29) with 536870912 in Hd30.
        change (2 ^ 53) with 9007199254740992. lia.
      + rewrite <- HP. ring.
    - replace (2 * P' * j + 2 * P' * (j + 2)) with (2 * (P' * (2 * j + 2))) by ring.
      rewrite Z.even_mul. reflexivity. }
  assert (Hmid : v = P' * (2 * j + 2)) by lia.
  rewrite (good_ival_eq _ _ Hlo), (good_ival_eq _ _ Hv), (good_ival_eq _ _ Hhi).
  split; [nia|]. split.
  - exists (2 * j). split; [|split].
    + replace (45 * 2 ^ (E - (d + 1)) * (2 * j)) with (2 * P' * j)
        by (unfold P'; ring). exact Hlo.
    + fold P'. rewrite <- Hmid. exact Hv.
    + rewrite H2d1. lia.
  - exists (2 * j + 2). split; [|split].
    + fold P'. rewrite <- Hmid. exact Hv.
    + replace (45 * 2 ^ (E - (d + 1)) * (2 * j + 2 + 2)) with (2 * P' * (j + 2))
        by (unfold P'; ring). exact Hhi.
    + rewrite H2d1. lia.
Qed.

Lemma init_aligned : Aligned GetBounds.init 0.
Proof.
  exists 0, 0. split; [lia|]. split; [lia|]. split; [reflexivity|].
  split; exists (-1); cbn [GetBounds.init GetBounds.longitude_min
    GetBounds.longitude_max GetBounds.latitude_min GetBounds.latitude_max].
  - replace (45 * 2 ^ (1076 - 0) * -1) with (- F64.ival f180)
      by (rewrite ival_f180; simpl (1076 - 0); ring).
    replace (45 * 2 ^ (1076 - 0) * (-1 + 2)) with (F64.ival f180)
      by (rewrite ival_f180; simpl (1076 - 0); ring).
    split; [exact good_neg_f180|]. split; [exact good_f180|]. simpl; lia.
  - replace (45 * 2 ^ (1075 - 0) * -1) with (- F64.ival f90)
      by (rewrite ival_f90; simpl (1075 - 0); ring).
    replace (45 * 2 ^ (1075 - 0) * (-1 + 2)) with (F64.ival f90)
      by (rewrite ival_f90; simpl (1075 - 0); ring).
    split; [exact good_neg_f90|]. split; [exact good_f90|]. simpl; lia.
Qed.

Lemma narrow_aligned (b : bool) (g : GetBounds.state) (t : Z) :
  Aligned g t -> t < 60 ->
  Aligned (narrow b g) (t + 1) /\
  nested g (narrow b g) /\
  (if GetBounds.even_bit g
   then width_lon (narrow b g) < width_lon g /\
        width_lat (narrow b g) = width_lat g
   else width_lat (narrow b g) < width_lat g /\
        width_lon (narrow b g) = width_lon g).
Proof.
  intros (dl & da & Hda & Hsum & Hrel & Glon & Glat) Ht.
  unfold Aligned, nested, width_lon, width_lat.
  rewrite narrow_even_bit.
  destruct (GetBounds.even_bit g) eqn:He; cbn [negb].
  - destruct (narrow_longitude b g He) as (-> & -> & -> & ->).
    destruct (grid_midpoint 1076 dl _ _ ltac:(lia) ltac:(lia) Glon)
      as (Hlt & G1 & G2).
    split; [|destruct b; lia].
    exists (dl + 1), da. repeat (split; [lia|]).
    split; [destruct b; assumption | exact Glat].
  - destruct (narrow_latitude b g He) as (-> & -> & -> & ->).
    destruct (grid_midpoint 1075 da _ _ ltac:(lia) ltac:(lia) Glat)
      as (Hlt & G1 & G2).
    split; [|destruct b; lia].
    exists dl, (da + 1). repeat (split; [lia|]).
    split; [exact Glon | destruct b; assumption].
Qed.

(** The five bisections of one character shrink both axes. *)
Lemma character_aligned (b4 b3 b2 b1 b0 : bool) (g : GetBounds.state) (t : Z) :
  Aligned g t -> t + 5 <= 60 ->
  let g5 := narrow b0 (narrow b1 (narrow b2 (narrow b3 (narrow b4 g)))) in
  Aligned g5 (t + 5) /\ nested g g5 /\
  width_lat g5 < width_lat g /\ width_lon g5 < width_lon g.
Proof.
  intros H0 Ht. cbv zeta.
  destruct (narrow_aligned b4 g t H0 ltac:(lia)) as (H1 & N1 & W1).
  destruct (narrow_aligned b3 _ _ H1 ltac:(lia)) as (H2 & N2 & W2).
  destruct (narrow_aligned b2 _ _ H2 ltac:(lia)) as (H3 & N3 & W3).
  destruct (narrow_aligned b1 _ _ H3 ltac:(lia)) as (H4 & N4 & W4).
  destruct (narrow_aligned b0 _ _ H4 ltac:(lia)) as (H5 & N5 & W5).
  rewrite !narrow_even_bit in *.
  replace (t + 5) with (t + 1 + 1 + 1 + 1 + 1) by lia.
  split; [exact H5|].
  unfold nested in *.
  destruct (GetBounds.even_bit g); cbn [negb] in *; lia.
Qed.

Lemma aligned_good (g : GetBounds.state) (t : Z) :
  Aligned g t ->
  F64.good (GetBounds.latitude_min g) (F64.ival (GetBounds.latitude_min g)) /\
  F64.good (GetBounds.latitude_max g) (F64.ival (GetBounds.latitude_max g)) /\
  F64.good (GetBounds.longitude_min g) (F64.ival (GetBounds.longitude_min g)) /\
  F64.good (GetBounds.longitude_max g) (F64.ival (GetBounds.longitude_max g)).
Proof.
  intros (dl & da & _ & _ & _ & (j & A & B & _) & (i & C & D & _)).
  repeat split; eapply good_ival; eassumption.
Qed.

Lemma for_characters_aligned (g : str) :
  forall (st : GetBounds.state) (t : Z),
    Aligned st t -> alphabet_string g ->
    t + 5 * Z.of_nat (List.length g) <= 60 ->
    exists st',
      GetBounds.for_characters g st = Ok st' /\
      Aligned st' (t + 5 * Z.of_nat (List.length g)).
Proof.
  induction g as [|c g IH]; intros st t Hst Hg Ht.
  - exists st. split; [reflexivity|]. simpl. now rewrite Z.add_0_r.
  - apply alphabet_string_cons in Hg. destruct Hg as [Hc Hg].
    cbn [List.length] in *. rewrite Nat2Z.inj_succ in *.
    destruct (character_step_alphabet st c Hc) as (b4 & b3 & b2 & b1 & b0 & Hstep).
    destruct (character_aligned b4 b3 b2 b1 b0 st t Hst ltac:(lia)) as (H5 & _).
    destruct (IH _ _ H5 Hg ltac:(lia)) as (st' & Hfor & Hal).
    exists st'. cbn [GetBounds.for_characters]. rewrite Hstep. cbn [bind].
    split; [exact Hfor|].
    replace (t + 5 * Z.succ (Z.of_nat (List.length g)))
      with (t + 5 + 5 * Z.of_nat (List.length g)) by lia.
    exact Hal.
Qed.

Lemma strict_from_aligned (st st5 : GetBounds.state) (t t5 : Z) :
  Aligned st t -> Aligned st5 t5 -> nested st st5 ->
  width_lat st5 < width_lat st -> width_lon st5 < width_lon st ->
  strictly_inside (GetBounds.box st5) (GetBounds.box st).
Proof.
  intros Hal Hal5 Hn Wlat Wlon.
  destruct (aligned_good _ _ Hal) as (A1 & A2 & A3 & A4).
  destruct (aligned_good _ _ Hal5) as (B1 & B2 & B3 & B4).
  destruct Hn as (N1 & N2 & N3 & N4).
  unfold width_lat, width_lon in *.
  unfold strictly_inside, inside. cbn [GetBounds.box sw ne lat lon].
  rewrite (le_spec _ _ _ _ A1 B1), (le_spec _ _ _ _ B2 A2),
          (le_spec _ _ _ _ A3 B3), (le_spec _ _ _ _ B4 A4),
          (lt_spec _ _ _ _ A1 B1), (lt_spec _ _ _ _ B2 A2),
          (lt_spec _ _ _ _ A3 B3), (lt_spec _ _ _ _ B4 A4).
  rewrite !Z.leb_le, !Z.ltb_lt. lia.
Qed.

(** C3 — Monotonic precision refinement: for every geohash [g] of fewer
    than 12 alphabet characters and every alphabet character [c], the box
    of [g + c] lies in the box of [g] and is strictly smaller along both
    axes, in binary64 arithmetic. *)
Theorem C3_monotonic_refinement (g : str) (c : codepoint) :
  alphabet_string g -> in_alphabet c -> (List.length g < 12)%nat ->
  exists parent child,
    get_bounds g = Ok parent /\
    get_bounds (g ++ [c]) = Ok child /\
    strictly_inside child parent.
Proof.
  intros Hg Hc Hlen.
  destruct (for_characters_aligned g GetBounds.init 0 init_aligned Hg ltac:(lia))
    as (st & Hfor & Hal).
  destruct (character_step_alphabet st c Hc) as (b4 & b3 & b2 & b1 & b0 & Hstep).
  destruct (character_aligned b4 b3 b2 b1 b0 st _ Hal ltac:(lia))
    as (Hal5 & Hn & Wlat & Wlon).
  exists (GetBounds.box st),
         (GetBounds.box (narrow b0 (narrow b1 (narrow b2 (narrow b3 (narrow b4 st)))))).
  assert (Hgc : alphabet_string (g ++ [c])).
  { apply alphabet_string_app. split; [exact Hg|].
    apply alphabet_string_cons. split; [exact Hc | constructor]. }
  split; [|split].
  - unfold get_bounds. rewrite (lower_alphabet g Hg), Hfor. reflexivity.
  - unfold get_bounds.
    rewrite (lower_alphabet _ Hgc), for_characters_app, Hfor.
    cbn [bind GetBounds.for_characters]. rewrite Hstep. reflexivity.
  - eapply strict_from_aligned; eassumption.
Qed.

Lemma C3_monotonic_refinement_witness :
  exists parent child,
    get_bounds (text "u4pru") = Ok parent /\
    get_bounds (text "u4pru" ++ text "y") = Ok child /\
    strictly_inside child parent.
Proof.
  apply (C3_monotonic_refinement (text "u4pru") 121%N).
  - literal_alphabet.
  - unfold in_alphabet, chars. vm_compute. tauto.
  - simpl. lia.
Defined.

(* ================================================================== *)
(** * [encode] spells the path of its comparisons *)
(* ================================================================== *)

Lemma follow_app (xs ys : list bool) (g : GetBounds.state) :
  follow (xs ++ ys) g = follow ys (follow xs g).
Proof. unfold follow. apply fold_left_app. Qed.

Lemma decisions_length (latitude longitude : float) (n : nat) :
  forall g, List.length (decisions latitude longitude n g) = n.
Proof. induction n as [|n IH]; intros g; simpl; [reflexivity | now rewrite IH]. Qed.

Lemma decisions_app (latitude longitude : float) (a b : nat) :
  forall g,
    decisions latitude longitude (a + b) g =
    (decisions latitude longitude a g ++
     decisions latitude longitude b
       (follow (decisions latitude longitude a g) g))%list.
Proof.
  induction a as [|a IH]; intros g; [reflexivity|].
  cbn [Nat.add decisions app]. cbv zeta. f_equal. rewrite IH. reflexivity.
Qed.

Lemma encode_character_path (latitude longitude : float) (st : Encode.state) :
  Encode.bit st = 0 -> Encode.index st = 0 ->
  exists st1 st2 st3 st4 st5,
    Encode.body latitude longitude st = Ok st1 /\
    Encode.body latitude longitude st1 = Ok st2 /\
    Encode.body latitude longitude st2 = Ok st3 /\
    Encode.body latitude longitude st3 = Ok st4 /\
    Encode.body latitude longitude st4 = Ok st5 /\
    Encode.geohash st1 = Encode.geohash st /\
    Encode.geohash st2 = Encode.geohash st /\
    Encode.geohash st3 = Encode.geohash st /\
    Encode.geohash st4 = Encode.geohash st /\
    Encode.geohash st5 =
      (Encode.geohash st ++
       [alphabet_char
          (index_of_bits (decisions latitude longitude 5 (view st)))]) /\
    Encode.bit st5 = 0 /\ Encode.index st5 = 0 /\
    view st5 = follow (decisions latitude longitude 5 (view st)) (view st).
Proof.
  intros Hk Hi.
  destruct (body_count latitude longitude st) as (st1 & B1 & I1 & K1 & G1 & V1); [lia|].
  destruct (body_count latitude longitude st1) as (st2 & B2 & I2 & K2 & G2 & V2); [lia|].
  destruct (body_count latitude longitude st2) as (st3 & B3 & I3 & K3 & G3 & V3); [lia|].
  destruct (body_count latitude longitude st3) as (st4 & B4 & I4 & K4 & G4 & V4); [lia|].
  assert (Hds : decisions latitude longitude 5 (view st) =
                [decide latitude longitude (view st);
                 decide latitude longitude (view st1);
                 decide latitude longitude (view st2);
                 decide latitude longitude (view st3);
                 decide latitude longitude (view st4)]).
  { cbn [decisions]. cbv zeta. rewrite <- V1, <- V2, <- V3, <- V4. reflexivity. }
  set (d4 := decide latitude longitude (view st)) in *.
  set (d3 := decide latitude longitude (view st1)) in *.
  set (d2 := decide latitude longitude (view st2)) in *.
  set (d1 := decide latitude longitude (view st3)) in *.
  set (d0 := decide latitude longitude (view st4)) in *.
  destruct (accumulated_bits d4 d3 d2 d1 d0) as (Hidx & _).
  destruct (getitem_alphabet _ Hidx) as (c & Hget & _).
  assert (Hc : alphabet_char (index_of_bits [d4; d3; d2; d1; d0]) = c).
  { unfold alphabet_char, index_of_bits. cbn [fold_left]. now rewrite Hget. }
  destruct (body_emit latitude longitude st4 c) as (st5 & B5 & I5 & K5 & G5 & V5);
    [lia | fold d0; rewrite I4, I3, I2, I1, Hi; exact Hget |].
  fold d0 in V5.
  exists st1, st2, st3, st4, st5. rewrite Hds, Hc.
  repeat (split; [first [assumption | congruence]|]).
  unfold follow. cbn [fold_left]. now rewrite V5, V4, V3, V2, V1.
Qed.

Lemma encode_loop_path (latitude longitude : float) (precision : Z) (n : nat) :
  forall (fuel : nat) (st : Encode.state),
    Encode.bit st = 0 -> Encode.index st = 0 ->
    Z.of_nat (List.length (Encode.geohash st)) + Z.of_nat n = precision ->
    (5 * n <= fuel)%nat ->
    exists st',
      while (Encode.cond precision) (Encode.body latitude longitude) fuel st
        = Some (Ok st') /\
      Encode.geohash st' =
        (Encode.geohash st ++
         string_of_bits n (decisions latitude longitude (5 * n) (view st))) /\
      view st' = follow (decisions latitude longitude (5 * n) (view st)) (view st).
Proof.
  induction n as [|n IH]; intros fuel st Hk Hi Hlen Hfuel.
  - exists st. cbn [string_of_bits Nat.mul decisions]. rewrite string_app_empty.
    repeat split. apply while_done. unfold Encode.cond. apply Z.ltb_ge. lia.
  - destruct (encode_character_path latitude longitude st Hk Hi)
      as (st1 & st2 & st3 & st4 & st5 & B1 & B2 & B3 & B4 & B5
          & G1 & G2 & G3 & G4 & G5 & K5 & I5 & V5).
    assert (Hcond : forall s, Encode.geohash s = Encode.geohash st ->
                              Encode.cond precision s = true).
    { intros s Hs. unfold Encode.cond. rewrite Hs. apply Z.ltb_lt. lia. }
    do 5 (destruct fuel as [|fuel]; [lia|]).
    rewrite (while_step _ _ _ st st1), (while_step _ _ _ st1 st2),
            (while_step _ _ _ st2 st3), (while_step _ _ _ st3 st4),
            (while_step _ _ _ st4 st5) by auto.
    destruct (IH fuel st5 K5 I5) as (st' & Hw & Hg & Hv).
    { rewrite G5, string_length_app. simpl. lia. }
    { lia. }
    exists st'. split; [exact Hw|].
    replace (5 * S n)%nat with (5 + 5 * n)%nat by lia.
    rewrite decisions_app, follow_app, <- V5.
    split; [|exact Hv].
    rewrite Hg, G5, string_app_assoc. f_equal.
Qed.

Lemma encode_spells_path (latitude longitude : float) (precision : Z) (fuel : nat) :
  1 <= precision <= 12 -> 5 * precision <= Z.of_nat fuel ->
  encode fuel latitude longitude precision =
  Some (Ok (string_of_bits (Z.to_nat precision)
              (decisions latitude longitude (5 * Z.to_nat precision)
                         GetBounds.init))).
Proof.
  intros Hp Hfuel.
  destruct (encode_loop_path latitude longitude precision (Z.to_nat precision)
              fuel Encode.init eq_refl eq_refl)
    as (st' & Hw & Hg & _).
  { simpl. lia. }
  { lia. }
  unfold encode.
  replace ((precision <? 1) || (precision >? 12)) with false
    by (symmetry; apply orb_false_iff; split;
        [apply Z.ltb_ge | rewrite Z.gtb_ltb; apply Z.ltb_ge]; lia).
  rewrite Hw, Hg. reflexivity.
Qed.

(* ================================================================== *)
(** * [get_bounds] follows the bits of its string *)
(* ================================================================== *)

Lemma character_step_bits (st : GetBounds.state) (c : codepoint) :
  in_alphabet c ->
  GetBounds.character_step st c =
  Ok (follow (bits_of_index (find geohash_base32 c)) st).
Proof.
  intros Hc. apply find_alphabet in Hc. unfold GetBounds.character_step.
  apply Z.eqb_neq in Hc. rewrite Hc. f_equal.
  unfold follow, bits_of_index. generalize GetBounds.nvals as l. intros l.
  revert st. induction l as [|n l IH]; intros st; [reflexivity|].
  cbn [map fold_left]. rewrite bisect_narrow. apply IH.
Qed.

Lemma for_characters_path (g : str) :
  forall st, alphabet_string g ->
    GetBounds.for_characters g st = Ok (follow (bits_of_string g) st).
Proof.
  induction g as [|c g IH]; intros st Hg; [reflexivity|].
  apply alphabet_string_cons in Hg. destruct Hg as [Hc Hg].
  cbn [GetBounds.for_characters]. rewrite (character_step_bits st c Hc).
  cbn [bind]. rewrite (IH _ Hg). unfold bits_of_string.
  change (chars (c :: g)) with (c :: chars g).
  cbn [flat_map]. now rewrite follow_app.
Qed.

Lemma bits_of_string_length (g : str) :
  List.length (bits_of_string g) = (5 * List.length g)%nat.
Proof.
  induction g as [|c g IH]; [reflexivity|].
  unfold bits_of_string in *. change (chars (c :: g)) with (c :: chars g).
  cbn [flat_map]. rewrite length_app, IH. cbn [List.length]. unfold bits_of_index.
  rewrite length_map. change (List.length GetBounds.nvals) with 5%nat. lia.
Qed.

Lemma alphabet_char_bits (c : codepoint) :
  in_alphabet c ->
  alphabet_char (index_of_bits (bits_of_index (find geohash_base32 c))) = c.
Proof.
  unfold in_alphabet, chars. simpl. intros H.
  repeat (destruct H as [<-|H]; [vm_compute; reflexivity|]). contradiction.
Qed.

Lemma string_of_bits_of_string (g : str) :
  alphabet_string g -> string_of_bits (List.length g) (bits_of_string g) = g.
Proof.
  induction g as [|c g IH]; intros Hg; [reflexivity|].
  apply alphabet_string_cons in Hg. destruct Hg as [Hc Hg].
  unfold bits_of_string in *. change (chars (c :: g)) with (c :: chars g).
  cbn [flat_map List.length string_of_bits].
  assert (H5 : List.length (bits_of_index (find geohash_base32 c)) = 5%nat)
    by (unfold bits_of_index; now rewrite length_map).
  rewrite firstn_app, skipn_app, H5, Nat.sub_diag, firstn_O, skipn_O, app_nil_r.
  rewrite firstn_all2, skipn_all2 by lia.
  cbn [app]. now rewrite (alphabet_char_bits c Hc), (IH Hg).
Qed.

(* ================================================================== *)
(** * Exact paths: which cell a point falls in *)
(* ================================================================== *)

Lemma nested_refl (g : GetBounds.state) : nested g g.
Proof. unfold nested. lia. Qed.

Lemma nested_trans (g1 g2 g3 : GetBounds.state) :
  nested g1 g2 -> nested g2 g3 -> nested g1 g3.
Proof. unfold nested. lia. Qed.

Lemma follow_aligned (bits : list bool) :
  forall (g : GetBounds.state) (t : Z),
    Aligned g t -> t + Z.of_nat (List.length bits) <= 60 ->
    Aligned (follow bits g) (t + Z.of_nat (List.length bits)) /\
    nested g (follow bits g).
Proof.
  induction bits as [|b bits IH]; intros g t Hg Ht.
  - cbn. rewrite Z.add_0_r. split; [exact Hg | apply nested_refl].
  - cbn [List.length] in *. rewrite Nat2Z.inj_succ in *.
    destruct (narrow_aligned b g t Hg ltac:(lia)) as (H1 & N1 & _).
    destruct (IH (narrow b g) (t + 1) H1 ltac:(lia)) as (H2 & N2).
    change (follow (b :: bits) g) with (follow bits (narrow b g)).
    replace (t + Z.succ (Z.of_nat (List.length bits)))
      with (t + 1 + Z.of_nat (List.length bits)) by lia.
    split; [exact H2 | eapply nested_trans; eassumption].
Qed.

(** At an exact bisection, a point of the target box is on the side of
    the midpoint that the bit names. *)
Lemma decide_in_cell (latitude longitude : float) (vla vlo : Z) (b : bool)
    (g fin : GetBounds.state) (t : Z) :
  Aligned g t -> t < 60 ->
  F64.good latitude vla -> F64.good longitude vlo ->
  nested (narrow b g) fin ->
  F64.ival (GetBounds.latitude_min fin) <= vla < F64.ival (GetBounds.latitude_max fin) ->
  F64.ival (GetBounds.longitude_min fin) <= vlo < F64.ival (GetBounds.longitude_max fin) ->
  decide latitude longitude g = b.
Proof.
  intros Hg Ht Hla Hlo (N1 & N2 & N3 & N4) Cla Clo.
  destruct (narrow_aligned b g t Hg Ht) as (H1 & _ & _).
  destruct (aligned_good _ _ H1) as (A1 & A2 & A3 & A4).
  assert (Hge : forall x y, F64.ge x y = F64.le y x) by reflexivity.
  unfold decide. rewrite !Hge. destruct (GetBounds.even_bit g) eqn:He.
  - destruct (narrow_longitude b g He) as (_ & _ & E3 & E4).
    rewrite E3 in A3, N3. rewrite E4 in A4, N4.
    destruct b; cbv beta iota in A3, A4, N3, N4.
    + rewrite (le_spec _ _ _ _ A3 Hlo). apply Z.leb_le. lia.
    + rewrite (le_spec _ _ _ _ A4 Hlo). apply Z.leb_gt. lia.
  - destruct (narrow_latitude b g He) as (_ & _ & E3 & E4).
    rewrite E3 in A1, N1. rewrite E4 in A2, N2.
    destruct b; cbv beta iota in A1, A2, N1, N2.
    + rewrite (le_spec _ _ _ _ A1 Hla). apply Z.leb_le. lia.
    + rewrite (le_spec _ _ _ _ A2 Hla). apply Z.leb_gt. lia.
Qed.

Lemma decisions_in_cell (latitude longitude : float) (vla vlo : Z)
    (bits : list bool) :
  forall (g : GetBounds.state) (t : Z),
    Aligned g t -> t + Z.of_nat (List.length bits) <= 60 ->
    F64.good latitude vla -> F64.good longitude vlo ->
    F64.ival (GetBounds.latitude_min (follow bits g)) <= vla
      < F64.ival (GetBounds.latitude_max (follow bits g)) ->
    F64.ival (GetBounds.longitude_min (follow bits g)) <= vlo
      < F64.ival (GetBounds.longitude_max (follow bits g)) ->
    decisions latitude longitude (List.length bits) g = bits.
Proof.
  induction bits as [|b bits IH]; intros g t Hg Ht Hla Hlo Cla Clo;
    [reflexivity|].
  cbn [List.length] in *. rewrite Nat2Z.inj_succ in Ht.
  change (follow (b :: bits) g) with (follow bits (narrow b g)) in Cla, Clo.
  destruct (narrow_aligned b g t Hg ltac:(lia)) as (H1 & _ & _).
  destruct (follow_aligned bits (narrow b g) (t + 1) H1 ltac:(lia)) as (_ & N).
  assert (Hd : decide latitude longitude g = b)
    by (eapply decide_in_cell with (t := t); try eassumption; lia).
  cbn [decisions]. cbv zeta. rewrite Hd. f_equal.
  apply (IH (narrow b g) (t + 1)); try assumption. lia.
Qed.

(** A member of the format between two finite ones is finite. *)
Lemma good_between (x lo hi : float) (vlo vhi : Z) :
  F64.valid x = true -> F64.good lo vlo -> F64.good hi vhi ->
  F64.le lo x = true -> F64.lt x hi = true ->
  F64.good x (F64.ival x) /\ vlo <= F64.ival x < vhi.
Proof.
  intros Hv Hlo Hhi Hle Hlt.
  assert (Hx : F64.good x (F64.ival x)).
  { destruct x as [s|s| |s m e]; try (repeat split; assumption).
    exfalso. unfold F64.le, F64.lt, SFleb, SFltb in *.
    destruct (good_zero_or_finite _ _ Hlo) as [(s1 & -> & _)|(s1 & m1 & e1 & ->)];
    destruct (good_zero_or_finite _ _ Hhi) as [(s2 & -> & _)|(s2 & m2 & e2 & ->)];
    destruct s; simpl in *; discriminate. }
  split; [exact Hx|].
  rewrite (le_spec _ _ _ _ Hlo Hx) in Hle. rewrite (lt_spec _ _ _ _ Hx Hhi) in Hlt.
  apply Z.leb_le in Hle. apply Z.ltb_lt in Hlt. lia.
Qed.

Lemma init_follow_aligned (g : str) :
  (List.length g <= 12)%nat ->
  Aligned (follow (bits_of_string g) GetBounds.init)
          (5 * Z.of_nat (List.length g)).
Proof.
  intros Hlen.
  destruct (follow_aligned (bits_of_string g) GetBounds.init 0 init_aligned)
    as [H _]; rewrite bits_of_string_length in *; [lia|].
  replace (5 * Z.of_nat (List.length g))
    with (0 + Z.of_nat (5 * List.length g)) by lia.
  exact H.
Qed.

Lemma encode_cell_core (g : str) (latitude longitude : float)
    (vla vlo : Z) (fuel : nat) :
  alphabet_string g -> (1 <= List.length g <= 12)%nat ->
  F64.good latitude vla -> F64.good longitude vlo ->
  let fin := follow (bits_of_string g) GetBounds.init in
  F64.ival (GetBounds.latitude_min fin) <= vla
    < F64.ival (GetBounds.latitude_max fin) ->
  F64.ival (GetBounds.longitude_min fin) <= vlo
    < F64.ival (GetBounds.longitude_max fin) ->
  (5 * List.length g <= fuel)%nat ->
  encode fuel latitude longitude (Z.of_nat (List.length g)) = Some (Ok g).
Proof.
  intros Hg Hlen Hla Hlo fin Cla Clo Hfuel.
  assert (Hd : decisions latitude longitude (5 * List.length g) GetBounds.init
               = bits_of_string g).
  { rewrite <- bits_of_string_length.
    apply (decisions_in_cell latitude longitude vla vlo _ GetBounds.init 0);
      try assumption.
    - exact init_aligned.
    - rewrite bits_of_string_length. lia. }
  rewrite encode_spells_path by lia.
  rewrite Nat2Z.id, Hd, (string_of_bits_of_string g Hg). reflexivity.
Qed.

Lemma encode_in_cell (g : str) (b : bounds)
    (latitude longitude : float) (fuel : nat) :
  alphabet_string g -> (1 <= List.length g <= 12)%nat ->
  get_bounds g = Ok b ->
  F64.valid latitude = true -> F64.valid longitude = true ->
  in_cell b latitude longitude ->
  (5 * List.length g <= fuel)%nat ->
  encode fuel latitude longitude (Z.of_nat (List.length g)) = Some (Ok g).
Proof.
  intros Hg Hlen Hb Vla Vlo (C1 & C2 & C3 & C4) Hfuel.
  unfold get_bounds in Hb.
  rewrite (lower_alphabet g Hg), (for_characters_path g _ Hg) in Hb.
  cbn [bind] in Hb. inversion Hb; subst b; clear Hb.
  cbn [GetBounds.box sw ne lat lon] in *.
  destruct (aligned_good _ _ (init_follow_aligned g ltac:(lia)))
    as (A1 & A2 & A3 & A4).
  destruct (good_between _ _ _ _ _ Vla A1 A2 C1 C2) as [Hla Rla].
  destruct (good_between _ _ _ _ _ Vlo A3 A4 C3 C4) as [Hlo Rlo].
  now apply (encode_cell_core g latitude longitude _ _ fuel Hg Hlen Hla Hlo).
Qed.


(** X1 — [encode] finds the cell: if a point lies in the box of a geohash
    of 1 to 12 characters, south and west edges included and north and
    east edges excluded, then encoding the point at that precision returns
    that geohash. *)
Theorem X1_encode_finds_cell (g : str) (b : bounds)
    (latitude longitude : float) (fuel : nat) :
  alphabet_string g -> (1 <= List.length g <= 12)%nat ->
  get_bounds g = Ok b ->
  F64.valid latitude = true -> F64.valid longitude = true ->
  in_cell b latitude longitude ->
  (5 * List.length g <= fuel)%nat ->
  encode fuel latitude longitude (Z.of_nat (List.length g)) = Some (Ok g).
Proof. apply encode_in_cell. Qed.

Lemma X1_encode_finds_cell_witness :
  encode 30 (decimal 5764911 5) (decimal 1040744 5)
         (Z.of_nat (List.length (text "u4pruy"))) = Some (Ok (text "u4pruy")).
Proof.
  eapply (X1_encode_finds_cell (text "u4pruy")).
  - literal_alphabet.
  - simpl; lia.
  - vm_compute; reflexivity.
  - vm_compute; reflexivity.
  - vm_compute; reflexivity.
  - vm_compute. repeat split.
  - simpl; lia.
Defined.

(** The centre of an exactly bisected axis, down to depth 30. *)
Lemma grid_centre (E d : Z) (lo hi : float) :
  0 <= d <= 30 -> 1075 <= E <= 1076 -> grid E d lo hi ->
  exists v,
    F64.good (midpoint lo hi) v /\
    F64.ival lo < v < F64.ival hi /\
    2 * v = F64.ival lo + F64.ival hi /\
    F64.ival hi - F64.ival lo = 45 * 2 ^ (E + 1 - d).
Proof.
  intros Hd HE (j & Hlo & Hhi & Hj & Hj2).
  set (P := 45 * 2 ^ (E - d)) in *.
  assert (HP : 0 < P) by (pose proof (pow2_pos (E - d)); lia).
  assert (H2d : 0 < 2 ^ d) by (apply pow2_pos; lia).
  assert (Hd30 : 2 ^ d <= 2 ^ 30) by (apply pow2_le; lia).
  assert (HPd : P * 2 ^ d = 45 * 2 ^ E).
  { unfold P. rewrite <- Z.mul_assoc, <- Z.pow_add_r by lia.
    do 2 f_equal. lia. }
  assert (HE' : 45 * 2 ^ E < 2 ^ 2095).
  { apply Z.le_lt_trans with (45 * 2 ^ 1076).
    - apply Z.mul_le_mono_nonneg_l; [lia | apply pow2_le; lia].
    - apply Z.ltb_lt. vm_compute. reflexivity. }
  assert (Hbound : forall i, Z.abs i <= 2 ^ d -> Z.abs (P * i) < 2 ^ 2095).
  { intros i Hi. rewrite Z.abs_mul, (Z.abs_eq P) by lia.
    apply Z.le_lt_trans with (P * 2 ^ d); [|lia].
    apply Z.mul_le_mono_nonneg_l; lia. }
  destruct (midpoint_spec lo hi _ _ Hlo Hhi (Hbound _ Hj) (Hbound _ Hj2))
    as (v & Hv & _ & Hexact); [nia|].
  assert (Hv2 : 2 * v = P * j + P * (j + 2)).
  { apply Hexact.
    - exists (45 * (2 * j + 2)), (E - d). split; [lia|]. split.
      + change (2 ^ 30) with 1073741824 in Hd30.
        change (2 ^ 53) with 9007199254740992. lia.
      + unfold P. ring.
    - replace (P * j + P * (j + 2)) with (2 * (P * (j + 1))) by ring.
      rewrite Z.even_mul. reflexivity. }
  exists v. rewrite (good_ival_eq _ _ Hlo), (good_ival_eq _ _ Hhi).
  split; [exact Hv|]. split; [nia|]. split; [exact Hv2|].
  unfold P. replace (E + 1 - d) with (Z.succ (E - d)) by lia.
  rewrite Z.pow_succ_r by lia. ring.
Qed.

(** The depths of the two axes after [t] bits. *)
Lemma aligned_depths (g : GetBounds.state) (t : Z) :
  Aligned g t -> 0 <= t ->
  grid 1076 ((t + 1) / 2) (GetBounds.longitude_min g) (GetBounds.longitude_max g) /\
  grid 1075 (t / 2) (GetBounds.latitude_min g) (GetBounds.latitude_max g).
Proof.
  intros (dl & da & Hda & Hsum & Hrel & Glon & Glat) Ht.
  assert (da = t / 2 /\ dl = (t + 1) / 2) as [<- <-]
    by (destruct (GetBounds.even_bit g); cbv beta iota in Hrel;
        Z.div_mod_to_equations; lia).
  split; assumption.
Qed.

(** The centre of the box of a geohash of at most 12 characters. *)
Lemma centre_exact (g : str) :
  (List.length g <= 12)%nat ->
  let fin := follow (bits_of_string g) GetBounds.init in
  let n := Z.of_nat (List.length g) in
  exists vla vlo,
    F64.good (midpoint (GetBounds.latitude_min fin) (GetBounds.latitude_max fin)) vla /\
    F64.good (midpoint (GetBounds.longitude_min fin) (GetBounds.longitude_max fin)) vlo /\
    F64.ival (GetBounds.latitude_min fin) < vla < F64.ival (GetBounds.latitude_max fin) /\
    F64.ival (GetBounds.longitude_min fin) < vlo < F64.ival (GetBounds.longitude_max fin) /\
    2 * vla = F64.ival (GetBounds.latitude_min fin) + F64.ival (GetBounds.latitude_max fin) /\
    2 * vlo = F64.ival (GetBounds.longitude_min fin) + F64.ival (GetBounds.longitude_max fin) /\
    F64.ival (GetBounds.latitude_max fin) - F64.ival (GetBounds.latitude_min fin)
      = 45 * 2 ^ (1076 - (5 * n) / 2) /\
    F64.ival (GetBounds.longitude_max fin) - F64.ival (GetBounds.longitude_min fin)
      = 45 * 2 ^ (1077 - (5 * n + 1) / 2).
Proof.
  intros Hlen fin n.
  destruct (aligned_depths fin (5 * n) (init_follow_aligned g Hlen) ltac:(lia))
    as [Glon Glat].
  assert (Hdl : 0 <= (5 * n + 1) / 2 <= 30)
    by (unfold n; Z.div_mod_to_equations; lia).
  assert (Hda : 0 <= (5 * n) / 2 <= 30)
    by (unfold n; Z.div_mod_to_equations; lia).
  destruct (grid_centre 1076 _ _ _ Hdl ltac:(lia) Glon)
    as (vlo & G1 & G2 & G3 & G4).
  destruct (grid_centre 1075 _ _ _ Hda ltac:(lia) Glat)
    as (vla & H1 & H2 & H3 & H4).
  exists vla, vlo.
  change (1076 + 1) with 1077 in G4. change (1075 + 1) with 1076 in H4.
  repeat (split; [first [assumption | lia]|]). assumption.
Qed.

Lemma decode_alphabet (g : str) :
  alphabet_string g ->
  let fin := follow (bits_of_string g) GetBounds.init in
  get_bounds g = Ok (GetBounds.box fin) /\
  decode g =
    Ok (midpoint (GetBounds.latitude_min fin) (GetBounds.latitude_max fin),
        midpoint (GetBounds.longitude_min fin) (GetBounds.longitude_max fin)).
Proof.
  intros Hg fin.
  assert (Hb : get_bounds g = Ok (GetBounds.box fin)).
  { unfold get_bounds.
    now rewrite (lower_alphabet g Hg), (for_characters_path g _ Hg). }
  split; [exact Hb|]. unfold decode. now rewrite Hb.
Qed.

Lemma encode_centre (g : str) (latitude longitude : float) (fuel : nat) :
  alphabet_string g -> (1 <= List.length g <= 12)%nat ->
  decode g = Ok (latitude, longitude) ->
  (5 * List.length g <= fuel)%nat ->
  encode fuel latitude longitude (Z.of_nat (List.length g)) = Some (Ok g).
Proof.
  intros Hg Hlen Hd Hfuel.
  destruct (decode_alphabet g Hg) as [_ Hd']. rewrite Hd' in Hd.
  inversion Hd; subst latitude longitude; clear Hd.
  destruct (centre_exact g ltac:(lia))
    as (vla & vlo & G1 & G2 & R1 & R2 & _).
  apply (encode_cell_core g _ _ vla vlo fuel Hg Hlen G1 G2); [lia | lia | exact Hfuel].
Qed.

(** X2 — Round trip through [decode]: for a geohash of 1 to 12 alphabet
    characters, encoding the centre that [decode] returns, at the length
    of the geohash, gives the geohash back. *)
Theorem X2_encode_decode_round_trip (g : str)
    (latitude longitude : float) (fuel : nat) :
  alphabet_string g -> (1 <= List.length g <= 12)%nat ->
  decode g = Ok (latitude, longitude) ->
  (5 * List.length g <= fuel)%nat ->
  encode fuel latitude longitude (Z.of_nat (List.length g)) = Some (Ok g).
Proof. apply encode_centre. Qed.

Lemma X2_encode_decode_round_trip_witness :
  encode 30 (S754_finite false 8113236171816960 (-47))
            (S754_finite false 5860053378662400 (-49))
            (Z.of_nat (List.length (text "u4pruy"))) = Some (Ok (text "u4pruy")).
Proof.
  apply (X2_encode_decode_round_trip (text "u4pruy")).
  - literal_alphabet.
  - simpl; lia.
  - vm_compute; reflexivity.
  - simpl; lia.
Defined.

(** X3 — Cell size: the box of a geohash of [n <= 12] alphabet characters
    measures exactly [180 / 2^(5n/2)] degrees of latitude by
    [360 / 2^((5n+1)/2)] degrees of longitude (integer divisions), whatever
    its characters; its four bounds are finite members of the format. *)
Theorem X3_cell_size (g : str) (b : bounds) :
  alphabet_string g -> (List.length g <= 12)%nat -> get_bounds g = Ok b ->
  let n := Z.of_nat (List.length g) in
  (F64.ival (lat (ne b)) - F64.ival (lat (sw b))) * 2 ^ ((5 * n) / 2)
    = F64.ival f180 /\
  (F64.ival (lon (ne b)) - F64.ival (lon (sw b))) * 2 ^ ((5 * n + 1) / 2)
    = 2 * F64.ival f180 /\
  Forall (fun x => F64.valid x = true /\ F64.finite x = true)
         [lat (sw b); lat (ne b); lon (sw b); lon (ne b)].
Proof.
  intros Hg Hlen Hb n.
  destruct (decode_alphabet g Hg) as [Hb' _]. rewrite Hb' in Hb.
  inversion Hb; subst b; clear Hb. cbn [GetBounds.box sw ne lat lon].
  destruct (centre_exact g Hlen) as (_ & _ & _ & _ & _ & _ & _ & _ & Wla & Wlo).
  destruct (aligned_good _ _ (init_follow_aligned g Hlen)) as (A1 & A2 & A3 & A4).
  fold n in Wla, Wlo. rewrite Wla, Wlo, ival_f180.
  assert (Hdl : 0 <= (5 * n + 1) / 2 <= 30)
    by (unfold n; Z.div_mod_to_equations; lia).
  assert (Hda : 0 <= (5 * n) / 2 <= 30)
    by (unfold n; Z.div_mod_to_equations; lia).
  split; [|split].
  - rewrite <- Z.mul_assoc, <- Z.pow_add_r by lia. do 2 f_equal. lia.
  - rewrite <- Z.mul_assoc, <- Z.pow_add_r by lia.
    replace (1077 - (5 * n + 1) / 2 + (5 * n + 1) / 2) with (Z.succ 1076) by lia.
    rewrite Z.pow_succ_r by lia. ring.
  - repeat constructor;
      first [apply A1 | apply A2 | apply A3 | apply A4].
Qed.

Lemma X3_cell_size_witness :
  exists b, get_bounds (text "u4pruy") = Ok b /\
    (F64.ival (lat (ne b)) - F64.ival (lat (sw b))) * 2 ^ 15 = F64.ival f180 /\
    (F64.ival (lon (ne b)) - F64.ival (lon (sw b))) * 2 ^ 15 = 2 * F64.ival f180.
Proof.
  destruct (get_bounds (text "u4pruy")) as [b|e] eqn:Hb; [|vm_compute in Hb; discriminate].
  exists b. split; [reflexivity|].
  destruct (X3_cell_size (text "u4pruy") b) as (H1 & H2 & _).
  - literal_alphabet.
  - simpl; lia.
  - exact Hb.
  - split; [exact H1 | exact H2].
Defined.

(** X4 — Distinct geohashes name distinct boxes: on strings of at most 12
    alphabet characters, [get_bounds] is injective. *)
Theorem X4_bounds_injective (g1 g2 : str) :
  alphabet_string g1 -> alphabet_string g2 ->
  (List.length g1 <= 12)%nat -> (List.length g2 <= 12)%nat ->
  get_bounds g1 = get_bounds g2 -> g1 = g2.
Proof.
  intros Hg1 Hg2 L1 L2 Heq.
  destruct (decode_alphabet g1 Hg1) as [B1 D1].
  destruct (decode_alphabet g2 Hg2) as [B2 D2].
  rewrite B1, B2 in Heq. inversion Heq as [[E1 E2 E3 E4]]. clear Heq.
  destruct (centre_exact g1 L1) as (vla & vlo & G1 & G2 & R1 & R2 & _ & _ & Wla & Wlo).
  destruct (centre_exact g2 L2) as (_ & _ & _ & _ & _ & _ & _ & _ & Wla2 & Wlo2).
  rewrite <- E1, <- E3, Wla in Wla2. rewrite <- E2, <- E4, Wlo in Wlo2.
  set (n1 := Z.of_nat (List.length g1)) in *.
  set (n2 := Z.of_nat (List.length g2)) in *.
  assert (Ha : 1076 - 5 * n1 / 2 = 1076 - 5 * n2 / 2).
  { apply (Z.pow_inj_r 2); [lia | | | lia];
      unfold n1, n2; Z.div_mod_to_equations; lia. }
  assert (Hb : 1077 - (5 * n1 + 1) / 2 = 1077 - (5 * n2 + 1) / 2).
  { apply (Z.pow_inj_r 2); [lia | | | lia];
      unfold n1, n2; Z.div_mod_to_equations; lia. }
  assert (Hn : List.length g1 = List.length g2)
    by (unfold n1, n2 in *; Z.div_mod_to_equations; lia).
  destruct (List.length g1) as [|k] eqn:Hk.
  - destruct g1; [|discriminate]. destruct g2; [reflexivity|discriminate].
  - assert (Some (Ok g1) = Some (Ok g2)) as Hr; [|now inversion Hr].
    rewrite <- (encode_centre g1 _ _ (5 * List.length g1)
                  Hg1 ltac:(lia) D1 ltac:(lia)).
    rewrite <- (encode_centre g2 _ _ (5 * List.length g1)
                  Hg2 ltac:(lia) D2 ltac:(lia)).
    rewrite E1, E2, E3, E4, Hk, <- Hn. reflexivity.
Qed.

Lemma X4_bounds_injective_witness : (text "u4pruy") = (text "u4pruy").
Proof.
  apply (X4_bounds_injective (text "u4pruy") (text "u4pruy")).
  - literal_alphabet.
  - literal_alphabet.
  - simpl; lia.
  - simpl; lia.
  - reflexivity.
Defined.

Lemma string_of_bits_app (a b : nat) :
  forall xs ys : list bool,
    List.length xs = (5 * a)%nat ->
    string_of_bits (a + b) (xs ++ ys) =
    (string_of_bits a xs ++ string_of_bits b ys).
Proof.
  induction a as [|a IH]; intros xs ys Hlen.
  - destruct xs; [reflexivity | discriminate].
  - cbn [Nat.add string_of_bits app].
    rewrite firstn_app, skipn_app.
    replace (5 - List.length xs)%nat with 0%nat by lia.
    rewrite firstn_O, skipn_O, app_nil_r. f_equal.
    apply IH. rewrite length_skipn. lia.
Qed.

Lemma string_of_bits_length (n : nat) (bits : list bool) :
  List.length (string_of_bits n bits) = n.
Proof.
  revert bits. induction n as [|n IH]; intros bits; simpl; [reflexivity|].
  now rewrite IH.
Qed.

(** X5 — Prefix property of [encode]: with [p <= q] both in [1, 12], the
    geohash at precision [p] is the first [p] characters of the geohash of
    the same point at precision [q], for any two floats. *)
Theorem X5_encode_prefix (latitude longitude : float) (p q : Z) (fuel : nat) :
  1 <= p -> p <= q -> q <= 12 -> 5 * q <= Z.of_nat fuel ->
  exists gp suffix,
    encode fuel latitude longitude p = Some (Ok gp) /\
    encode fuel latitude longitude q = Some (Ok (gp ++ suffix)) /\
    Z.of_nat (List.length gp) = p /\
    Z.of_nat (List.length suffix) = q - p.
Proof.
  intros Hp Hpq Hq Hfuel.
  rewrite !encode_spells_path by lia.
  replace (Z.to_nat q) with (Z.to_nat p + Z.to_nat (q - p))%nat by lia.
  replace (5 * (Z.to_nat p + Z.to_nat (q - p)))%nat
    with (5 * Z.to_nat p + 5 * Z.to_nat (q - p))%nat by lia.
  rewrite decisions_app, string_of_bits_app by apply decisions_length.
  do 2 eexists. split; [reflexivity|]. split; [reflexivity|].
  rewrite !string_of_bits_length. lia.
Qed.

Lemma X5_encode_prefix_witness :
  exists gp suffix,
    encode 60 (decimal 5764911 5) (decimal 1040744 5) 6 = Some (Ok gp) /\
    encode 60 (decimal 5764911 5) (decimal 1040744 5) 12
      = Some (Ok (gp ++ suffix)) /\
    Z.of_nat (List.length gp) = 6 /\
    Z.of_nat (List.length suffix) = 12 - 6.
Proof.
  apply (X5_encode_prefix (decimal 5764911 5) (decimal 1040744 5) 6 12 60);
    simpl; lia.
Defined.

(* ================================================================== *)
(** * Boxes of any depth, rounding included *)
(* ================================================================== *)

Lemma interval_centre (W : Z) (lo hi : float) :
  W < 2 ^ 2095 -> interval W lo hi ->
  exists v,
    F64.good (midpoint lo hi) v /\
    F64.good lo (F64.ival lo) /\ F64.good hi (F64.ival hi) /\
    F64.ival lo <= v <= F64.ival hi.
Proof.
  intros HW (vlo & vhi & Hlo & Hhi & H1 & H2 & H3).
  destruct (midpoint_spec lo hi vlo vhi Hlo Hhi) as (v & Hv & Hbetween & _);
    try lia.
  exists v. rewrite (good_ival_eq _ _ Hlo), (good_ival_eq _ _ Hhi).
  repeat split; try apply Hlo; try apply Hhi; try apply Hv; lia.
Qed.

Lemma within_good (g : GetBounds.state) :
  Within g ->
  F64.good (GetBounds.latitude_min g) (F64.ival (GetBounds.latitude_min g)) /\
  F64.good (GetBounds.latitude_max g) (F64.ival (GetBounds.latitude_max g)) /\
  F64.good (GetBounds.longitude_min g) (F64.ival (GetBounds.longitude_min g)) /\
  F64.good (GetBounds.longitude_max g) (F64.ival (GetBounds.longitude_max g)).
Proof.
  intros [(a & b & Ha & Hb & _) (c & d & Hc & Hd & _)].
  repeat split; first [apply Ha | apply Hb | apply Hc | apply Hd].
Qed.

Lemma narrow_nested_within (b : bool) (g : GetBounds.state) :
  Within g -> nested g (narrow b g).
Proof.
  intros [Hlat Hlon]. destruct globe_small as [H90 H180]. unfold nested.
  destruct (GetBounds.even_bit g) eqn:He.
  - destruct (narrow_longitude b g He) as (-> & -> & -> & ->).
    destruct (interval_centre _ _ _ H180 Hlon) as (v & Hv & _ & _ & Hb).
    rewrite <- (good_ival_eq _ _ Hv) in Hb. destruct b; lia.
  - destruct (narrow_latitude b g He) as (-> & -> & -> & ->).
    destruct (interval_centre _ _ _ H90 Hlat) as (v & Hv & _ & _ & Hb).
    rewrite <- (good_ival_eq _ _ Hv) in Hb. destruct b; lia.
Qed.

Lemma for_characters_nested (s : str) :
  forall st st',
    Within st -> GetBounds.for_characters s st = Ok st' ->
    Within st' /\ nested st st'.
Proof.
  induction s as [|c s IH]; intros st st' Hst; simpl.
  - intros H. inversion H; subst. split; [assumption | apply nested_refl].
  - destruct (in_alphabet_dec c) as [Hc|Hc].
    + destruct (character_step_alphabet st c Hc) as (b4 & b3 & b2 & b1 & b0 & ->).
      simpl. intros H.
      pose proof (narrow_within b4 _ Hst) as W4.
      pose proof (narrow_within b3 _ W4) as W3.
      pose proof (narrow_within b2 _ W3) as W2.
      pose proof (narrow_within b1 _ W2) as W1.
      pose proof (narrow_within b0 _ W1) as W0.
      destruct (IH _ _ W0 H) as [Hw Hn]. split; [exact Hw|].
      pose proof (narrow_nested_within b4 _ Hst).
      pose proof (narrow_nested_within b3 _ W4).
      pose proof (narrow_nested_within b2 _ W3).
      pose proof (narrow_nested_within b1 _ W2).
      pose proof (narrow_nested_within b0 _ W1).
      unfold nested in *. lia.
    + rewrite (character_step_invalid st c Hc). discriminate.
Qed.

(** [lower] distributes over concatenation away from the capital sigma,
    whose lower-case form depends on its neighbours. *)
Lemma lower_app (s1 s2 : str) :
  ~ In Unicode.capital_sigma (s1 ++ s2) ->
  lower (s1 ++ s2) = (lower s1 ++ lower s2).
Proof.
  intros H. unfold lower.
  rewrite !lower_from_sigma_free.
  - apply flat_map_app.
  - intros Hin. apply H, in_or_app. now right.
  - intros Hin. apply H, in_or_app. now left.
  - exact H.
Qed.

(** A string that [get_bounds] accepts has no capital sigma. *)
Lemma get_bounds_sigma_free (g : str) (b : bounds) :
  get_bounds g = Ok b -> ~ In Unicode.capital_sigma g.
Proof.
  intros Hb Hin.
  assert (Hr : get_bounds g = Raise InvalidCharacter).
  { apply (proj1 (get_bounds_raise g)). unfold chars, lower.
    now apply lower_from_sigma. }
  congruence.
Qed.

(** X6 — A longer geohash stays in the box of its prefix: whenever
    [get_bounds] succeeds on [g + s], it succeeds on [g] and the box of
    [g + s] lies in the box of [g]; for strings of any length and any
    case, rounding included. *)
Theorem X6_extension_inside (g s : str) (child : bounds) :
  get_bounds (g ++ s) = Ok child ->
  exists parent, get_bounds g = Ok parent /\ inside child parent.
Proof.
  intros H. pose proof (get_bounds_sigma_free _ _ H) as Hsigma. revert H.
  unfold get_bounds. rewrite (lower_app g s Hsigma), for_characters_app.
  destruct (GetBounds.for_characters (lower g) GetBounds.init) as [st|e] eqn:Hg;
    cbn [bind]; [|discriminate].
  destruct (GetBounds.for_characters (lower s) st) as [st'|e] eqn:Hs;
    cbn [bind]; [|discriminate].
  intros H. inversion H; subst child; clear H.
  exists (GetBounds.box st). split; [reflexivity|].
  destruct (for_characters_nested _ _ _ init_within Hg) as [Wst _].
  destruct (for_characters_nested _ _ _ Wst Hs) as [Wst' (N1 & N2 & N3 & N4)].
  destruct (within_good _ Wst) as (A1 & A2 & A3 & A4).
  destruct (within_good _ Wst') as (B1 & B2 & B3 & B4).
  unfold inside. cbn [GetBounds.box sw ne lat lon].
  rewrite (le_spec _ _ _ _ A1 B1), (le_spec _ _ _ _ B2 A2),
          (le_spec _ _ _ _ A3 B3), (le_spec _ _ _ _ B4 A4).
  rewrite !Z.leb_le. lia.
Qed.

Lemma X6_extension_inside_witness :
  exists parent, get_bounds (text "u4") = Ok parent /\
    inside (GetBounds.box (follow (bits_of_string (text "u4pruy")) GetBounds.init))
           parent.
Proof.
  apply (X6_extension_inside (text "u4") (text "pruy")). vm_compute. reflexivity.
Defined.

(** X7 — The decoded point lies in the box: whenever [decode] succeeds,
    the point it returns is between the south-west and north-east corners
    of [get_bounds], edges included, for strings of any length. *)
Theorem X7_decode_in_box (g : str) (latitude longitude : float) :
  decode g = Ok (latitude, longitude) ->
  exists b, get_bounds g = Ok b /\ contains b latitude longitude.
Proof.
  unfold decode, get_bounds.
  destruct (GetBounds.for_characters (lower g) GetBounds.init) as [st|e] eqn:Hg;
    cbn [bind]; [|discriminate].
  intros H.
  injection H as H1 H2.
  assert (Hla : latitude = midpoint (GetBounds.latitude_min st)
                                    (GetBounds.latitude_max st))
    by (symmetry; exact H1).
  assert (Hlo : longitude = midpoint (GetBounds.longitude_min st)
                                     (GetBounds.longitude_max st))
    by (symmetry; exact H2).
  clear H1 H2.
  subst latitude longitude.
  exists (GetBounds.box st). split; [reflexivity|].
  destruct (for_characters_nested _ _ _ init_within Hg) as [[Hlat Hlon] _].
  destruct globe_small as [H90 H180].
  destruct (interval_centre _ _ _ H90 Hlat) as (vla & Gla & A1 & A2 & Rla).
  destruct (interval_centre _ _ _ H180 Hlon) as (vlo & Glo & A3 & A4 & Rlo).
  unfold contains. cbn [GetBounds.box sw ne lat lon].
  rewrite (le_spec _ _ _ _ A1 Gla), (le_spec _ _ _ _ Gla A2),
          (le_spec _ _ _ _ A3 Glo), (le_spec _ _ _ _ Glo A4).
  rewrite !Z.leb_le. lia.
Qed.

Lemma X7_decode_in_box_witness :
  exists b, get_bounds (text "U4pruy") = Ok b /\
    contains b (S754_finite false 8113236171816960 (-47))
               (S754_finite false 5860053378662400 (-49)).
Proof.
  apply (X7_decode_in_box (text "U4pruy")). vm_compute. reflexivity.
Defined.

Lemma good_between_closed (x lo hi : float) (vlo vhi : Z) :
  F64.valid x = true -> F64.good lo vlo -> F64.good hi vhi ->
  F64.le lo x = true -> F64.le x hi = true ->
  F64.good x (F64.ival x) /\ vlo <= F64.ival x <= vhi.
Proof.
  intros Hv Hlo Hhi Hle Hle2.
  assert (Hx : F64.good x (F64.ival x)).
  { destruct x as [s|s| |s m e]; try (repeat split; assumption).
    exfalso. unfold F64.le, SFleb in *.
    destruct (good_zero_or_finite _ _ Hlo) as [(s1 & -> & _)|(s1 & m1 & e1 & ->)];
    destruct (good_zero_or_finite _ _ Hhi) as [(s2 & -> & _)|(s2 & m2 & e2 & ->)];
    destruct s; simpl in *; discriminate. }
  split; [exact Hx|].
  rewrite (le_spec _ _ _ _ Hlo Hx) in Hle. rewrite (le_spec _ _ _ _ Hx Hhi) in Hle2.
  apply Z.leb_le in Hle. apply Z.leb_le in Hle2. lia.
Qed.

(** X8 — Quantisation error: for a point of the globe and a precision [p]
    in [1, 12], decoding the geohash of the point gives a point within
    [90 / 2^(5p/2)] degrees of latitude and [180 / 2^((5p+1)/2)] degrees
    of longitude of it (integer divisions; values in units of
    [2^-1074]). *)
Theorem X8_round_trip_error
    (latitude longitude : float) (precision : Z) (fuel : nat) :
  F64.valid latitude = true -> F64.valid longitude = true ->
  F64.le (F64.neg f90) latitude = true -> F64.le latitude f90 = true ->
  F64.le (F64.neg f180) longitude = true -> F64.le longitude f180 = true ->
  1 <= precision <= 12 -> 5 * precision <= Z.of_nat fuel ->
  exists g centre_lat centre_lon,
    encode fuel latitude longitude precision = Some (Ok g) /\
    decode g = Ok (centre_lat, centre_lon) /\
    2 * Z.abs (F64.ival centre_lat - F64.ival latitude)
      * 2 ^ ((5 * precision) / 2) <= F64.ival f180 /\
    2 * Z.abs (F64.ival centre_lon - F64.ival longitude)
      * 2 ^ ((5 * precision + 1) / 2) <= 2 * F64.ival f180.
Proof.
  intros Vla Vlo H1 H2 H3 H4 Hp Hfuel.
  destruct (encode_ok latitude longitude precision fuel Hp Hfuel)
    as (g & st & Henc & Hlen & Ha & Hfor & _ & HP).
  rewrite (for_characters_path g _ Ha) in Hfor.
  injection Hfor as Hst. subst st.
  assert (Hc : Within (follow (bits_of_string g) GetBounds.init) /\
               contains (GetBounds.box (follow (bits_of_string g) GetBounds.init))
                        latitude longitude).
  { apply (HP (fun g => Within g /\ contains (GetBounds.box g) latitude longitude)).
    - apply decide_contains.
    - split; [exact init_within|]. repeat split; assumption. }
  destruct Hc as [_ (C1 & C2 & C3 & C4)].
  cbn [GetBounds.box sw ne lat lon] in *.
  assert (Hl12 : (List.length g <= 12)%nat) by lia.
  destruct (aligned_good _ _ (init_follow_aligned g Hl12)) as (A1 & A2 & A3 & A4).
  destruct (good_between_closed _ _ _ _ _ Vla A1 A2 C1 C2) as [_ Rla].
  destruct (good_between_closed _ _ _ _ _ Vlo A3 A4 C3 C4) as [_ Rlo].
  destruct (centre_exact g Hl12)
    as (vla & vlo & G1 & G2 & _ & _ & E1 & E2 & Wla & Wlo).
  rewrite Hlen in Wla, Wlo.
  destruct (decode_alphabet g Ha) as [_ Hd].
  do 3 eexists. split; [exact Henc|]. split; [exact Hd|].
  rewrite (good_ival_eq _ _ G1), (good_ival_eq _ _ G2), ival_f180.
  assert (Hdl : 0 <= (5 * precision + 1) / 2 <= 30)
    by (Z.div_mod_to_equations; lia).
  assert (Hda : 0 <= (5 * precision) / 2 <= 30)
    by (Z.div_mod_to_equations; lia).
  assert (P1 : 45 * 2 ^ 1076 =
               45 * 2 ^ (1076 - 5 * precision / 2) * 2 ^ (5 * precision / 2)).
  { rewrite <- Z.mul_assoc, <- Z.pow_add_r by lia. do 2 f_equal. lia. }
  assert (P2 : 2 * (45 * 2 ^ 1076) =
               45 * 2 ^ (1077 - (5 * precision + 1) / 2)
               * 2 ^ ((5 * precision + 1) / 2)).
  { rewrite <- Z.mul_assoc, <- Z.pow_add_r by lia.
    replace (1077 - (5 * precision + 1) / 2 + (5 * precision + 1) / 2)
      with (Z.succ 1076) by lia.
    rewrite Z.pow_succ_r by lia. ring. }
  rewrite P2, P1. rewrite <- Wla, <- Wlo.
  split; apply Z.mul_le_mono_nonneg_r;
    try (apply Z.pow_nonneg; lia); lia.
Qed.

Lemma X8_round_trip_error_witness :
  exists g centre_lat centre_lon,
    encode 30 (decimal 5764911 5) (decimal 1040744 5) 6 = Some (Ok g) /\
    decode g = Ok (centre_lat, centre_lon) /\
    2 * Z.abs (F64.ival centre_lat - F64.ival (decimal 5764911 5))
      * 2 ^ ((5 * 6) / 2) <= F64.ival f180 /\
    2 * Z.abs (F64.ival centre_lon - F64.ival (decimal 1040744 5))
      * 2 ^ ((5 * 6 + 1) / 2) <= 2 * F64.ival f180.
Proof.
  apply (X8_round_trip_error (decimal 5764911 5) (decimal 1040744 5) 6 30);
    try (vm_compute; reflexivity); simpl; lia.
Defined.

(* ================================================================== *)
(** * [get_geojson] and letter case *)
(* ================================================================== *)

Lemma copy_items {V : Type} (props : list (string * V)) :
  map (fun kv => (fst kv, snd kv)) props = props.
Proof.
  induction props as [|[k v] props IH]; simpl; [reflexivity | now rewrite IH].
Qed.

Lemma get_polygon_lower (g : str) : get_polygon (lower g) = get_polygon g.
Proof. unfold get_polygon. now rewrite get_bounds_lower. Qed.

(** X9 — The feature wraps the polygon: [get_geojson] fails exactly as
    [get_polygon] does on the same string, and otherwise returns a
    ["Feature"] whose geometry is a ["Polygon"] with the single ring
    [get_polygon(geohash)] and whose properties are the caller's items,
    unchanged and in order. *)
Theorem X9_geojson_wraps_polygon (V : Type) (g : str)
    (props : list (string * V)) :
  get_geojson g props =
  (polygon <- get_polygon g ;;
   Ok {| feature_type := "Feature";
         properties := props;
         feature_geometry :=
           {| geometry_type := "Polygon"; coordinates := [polygon] |} |}).
Proof.
  unfold get_geojson. rewrite get_polygon_lower, copy_items. reflexivity.
Qed.

(** X10 — Letter case is ignored: two strings with the same lower-case
    form, as [str.lower] computes it over all of Unicode, get the same
    result, value or error, from [get_bounds], [decode], [get_polygon]
    and [get_geojson]. *)
Theorem X10_case_insensitive (V : Type) (props : list (string * V))
    (g1 g2 : str) :
  lower g1 = lower g2 ->
  get_bounds g1 = get_bounds g2 /\
  decode g1 = decode g2 /\
  get_polygon g1 = get_polygon g2 /\
  get_geojson g1 props = get_geojson g2 props.
Proof.
  intros H.
  assert (Hb : get_bounds g1 = get_bounds g2)
    by (rewrite <- (get_bounds_lower g1), <- (get_bounds_lower g2); now rewrite H).
  assert (Hp : get_polygon g1 = get_polygon g2)
    by (unfold get_polygon; now rewrite Hb).
  repeat split; try assumption.
  - unfold decode. now rewrite Hb.
  - unfold get_geojson. now rewrite H.
Qed.

Lemma X10_case_insensitive_witness :
  let upper := text "9Q8YY" ++ [kelvin_sign] in
  get_bounds upper = get_bounds (text "9q8yyk") /\
  decode upper = decode (text "9q8yyk") /\
  get_polygon upper = get_polygon (text "9q8yyk") /\
  get_geojson upper [("name"%string, 1)]
    = get_geojson (text "9q8yyk") [("name"%string, 1)].
Proof.
  apply (X10_case_insensitive Z [("name"%string, 1)]
           (text "9Q8YY" ++ [kelvin_sign]) (text "9q8yyk")).
  vm_compute. reflexivity.
Defined.

(* ================================================================== *)
(** * Coordinates off the globe *)
(* ================================================================== *)

Lemma grid_range (E d : Z) (lo hi : float) :
  0 <= d <= E -> grid E d lo hi ->
  - (45 * 2 ^ E) <= F64.ival lo /\ F64.ival hi <= 45 * 2 ^ E.
Proof.
  intros Hd (j & Hlo & Hhi & Hj & Hj2).
  rewrite (good_ival_eq _ _ Hlo), (good_ival_eq _ _ Hhi).
  assert (HP : 45 * 2 ^ E = 45 * 2 ^ (E - d) * 2 ^ d).
  { rewrite <- Z.mul_assoc, <- Z.pow_add_r by lia. do 2 f_equal. lia. }
  pose proof (pow2_pos (E - d) ltac:(lia)). pose proof (pow2_pos d ltac:(lia)).
  rewrite HP. split; nia.
Qed.

Lemma valid_cases (x : float) :
  F64.valid x = true ->
  F64.good x (F64.ival x) \/ (exists s, x = S754_infinity s) \/ x = S754_nan.
Proof.
  intros Hv. destruct x; [left | right; left; eauto | right; now right | left];
    repeat split; assumption.
Qed.

Lemma le_infinity (y : float) (v : Z) :
  F64.good y v ->
  F64.le y (S754_infinity false) = true /\ F64.le y (S754_infinity true) = false.
Proof.
  intros H.
  destruct (good_zero_or_finite _ _ H) as [(s & -> & _)|(s & m & e & ->)];
    split; reflexivity.
Qed.

(** A comparison with a finite value strictly inside [(-W, W]] cannot tell
    a coordinate from its clamped value. *)
Lemma ge_clamp (W x mid : float) (Wv vm : Z) :
  F64.good W Wv -> F64.good (F64.neg W) (- Wv) -> F64.good mid vm ->
  - Wv < vm <= Wv -> F64.valid x = true ->
  F64.ge x mid = F64.ge (clamp W x) mid.
Proof.
  intros HW HnW Hm Hr Hv. unfold clamp, F64.ge.
  fold (F64.le (F64.neg W) x). fold (F64.le W x).
  fold (F64.le mid x).
  destruct (valid_cases x Hv) as [Hx|[[s ->]| ->]].
  - rewrite (le_spec _ _ _ _ HnW Hx), (le_spec _ _ _ _ HW Hx).
    destruct (Z.leb_spec (- Wv) (F64.ival x)); [destruct (Z.leb_spec Wv (F64.ival x))|].
    + fold (F64.le mid W). rewrite (le_spec _ _ _ _ Hm Hx), (le_spec _ _ _ _ Hm HW).
      transitivity true; [|symmetry]; apply Z.leb_le; lia.
    + reflexivity.
    + fold (F64.le mid (F64.neg W)).
      rewrite (le_spec _ _ _ _ Hm Hx), (le_spec _ _ _ _ Hm HnW).
      transitivity false; [|symmetry]; apply Z.leb_gt; lia.
  - destruct (le_infinity _ _ HW) as [W1 W2].
    destruct (le_infinity _ _ HnW) as [N1 N2].
    destruct (le_infinity _ _ Hm) as [M1 M2].
    destruct s.
    + rewrite N2, M2. fold (F64.le mid (F64.neg W)).
      rewrite (le_spec _ _ _ _ Hm HnW). symmetry. apply Z.leb_gt. lia.
    + rewrite N1, W1, M1. fold (F64.le mid W).
      rewrite (le_spec _ _ _ _ Hm HW). symmetry. apply Z.leb_le. lia.
  - replace (F64.le (F64.neg W) S754_nan) with false
      by (unfold F64.le, SFleb; now destruct W).
    replace (F64.le mid S754_nan) with false
      by (unfold F64.le, SFleb; now destruct mid).
    fold (F64.le mid (F64.neg W)). rewrite (le_spec _ _ _ _ Hm HnW).
    symmetry. apply Z.leb_gt. lia.
Qed.

Lemma decide_clamp (latitude longitude : float) (g : GetBounds.state) (t : Z) :
  Aligned g t -> t < 60 ->
  F64.valid latitude = true -> F64.valid longitude = true ->
  decide latitude longitude g =
  decide (clamp f90 latitude) (clamp f180 longitude) g.
Proof.
  intros Hg Ht Vla Vlo.
  assert (H0 : 0 <= t)
    by (destruct Hg as (dl & da & Hda' & Hsum & Hrel & _);
        destruct (GetBounds.even_bit g); cbv beta iota in Hrel; lia).
  destruct (aligned_depths g t Hg H0) as [Glon Glat].
  assert (Hdl : 0 <= (t + 1) / 2 <= 30) by (Z.div_mod_to_equations; lia).
  assert (Hda : 0 <= t / 2 <= 30) by (Z.div_mod_to_equations; lia).
  unfold decide. destruct (GetBounds.even_bit g).
  - destruct (grid_centre 1076 _ _ _ Hdl ltac:(lia) Glon) as (v & Hv & Hr & _).
    destruct (grid_range 1076 ((t + 1) / 2) _ _ ltac:(lia) Glon) as [R1 R2].
    apply (ge_clamp f180 longitude _ (F64.ival f180) v);
      [exact good_f180 | exact good_neg_f180 | exact Hv | | exact Vlo].
    rewrite ival_f180. lia.
  - destruct (grid_centre 1075 _ _ _ Hda ltac:(lia) Glat) as (v & Hv & Hr & _).
    destruct (grid_range 1075 (t / 2) _ _ ltac:(lia) Glat) as [R1 R2].
    apply (ge_clamp f90 latitude _ (F64.ival f90) v);
      [exact good_f90 | exact good_neg_f90 | exact Hv | | exact Vla].
    rewrite ival_f90. lia.
Qed.

Lemma decisions_clamp (latitude longitude : float) (n : nat) :
  forall (g : GetBounds.state) (t : Z),
    Aligned g t -> t + Z.of_nat n <= 60 ->
    F64.valid latitude = true -> F64.valid longitude = true ->
    decisions latitude longitude n g =
    decisions (clamp f90 latitude) (clamp f180 longitude) n g.
Proof.
  induction n as [|n IH]; intros g t Hg Ht Vla Vlo; [reflexivity|].
  cbn [decisions]. cbv zeta.
  rewrite <- (decide_clamp latitude longitude g t Hg ltac:(lia) Vla Vlo).
  f_equal. apply (IH _ (t + 1)); try assumption; [|lia].
  apply narrow_aligned; [assumption | lia].
Qed.

(** X11 — Coordinates off the globe saturate: for any two floats and a
    precision in [1, 12], [encode] returns what it returns for the
    coordinates clamped to [[-90, 90]] and [[-180, 180]]; a NaN is encoded
    as the south or west edge. *)
Theorem X11_encode_saturates
    (latitude longitude : float) (precision : Z) (fuel : nat) :
  F64.valid latitude = true -> F64.valid longitude = true ->
  1 <= precision <= 12 -> 5 * precision <= Z.of_nat fuel ->
  encode fuel latitude longitude precision =
  encode fuel (clamp f90 latitude) (clamp f180 longitude) precision.
Proof.
  intros Vla Vlo Hp Hfuel.
  rewrite !encode_spells_path by assumption.
  rewrite (decisions_clamp latitude longitude (5 * Z.to_nat precision)
             GetBounds.init 0 init_aligned ltac:(lia) Vla Vlo).
  reflexivity.
Qed.

Lemma X11_encode_saturates_witness :
  encode 60 (S754_infinity false) S754_nan 12 =
  encode 60 (clamp f90 (S754_infinity false)) (clamp f180 S754_nan) 12.
Proof.
  apply (X11_encode_saturates (S754_infinity false) S754_nan 12 60);
    try reflexivity; simpl; lia.
Defined.

(* ================================================================== *)
(** * The cells of one length tile the globe *)
(* ================================================================== *)

(** X12 — Cells of one length do not overlap: if a point lies in the boxes
    of two geohashes of the same length between 1 and 12, north and east
    edges excluded, the two geohashes are equal. *)
Theorem X12_cells_disjoint (g1 g2 : str) (b1 b2 : bounds)
    (latitude longitude : float) :
  alphabet_string g1 -> alphabet_string g2 ->
  (1 <= List.length g1 <= 12)%nat -> List.length g1 = List.length g2 ->
  get_bounds g1 = Ok b1 -> get_bounds g2 = Ok b2 ->
  F64.valid latitude = true -> F64.valid longitude = true ->
  in_cell b1 latitude longitude -> in_cell b2 latitude longitude ->
  g1 = g2.
Proof.
  intros Hg1 Hg2 L1 L2 B1 B2 Vla Vlo C1 C2.
  pose proof (encode_in_cell g1 b1 latitude longitude (5 * List.length g1)
                Hg1 L1 B1 Vla Vlo C1 ltac:(lia)) as E1.
  pose proof (encode_in_cell g2 b2 latitude longitude (5 * List.length g1)
                Hg2 ltac:(lia) B2 Vla Vlo C2 ltac:(lia)) as E2.
  rewrite <- L2, E1 in E2. now inversion E2.
Qed.

Lemma X12_cells_disjoint_witness : (text "u4pruy") = (text "u4pruy").
Proof.
  apply (X12_cells_disjoint (text "u4pruy") (text "u4pruy")
           (GetBounds.box (follow (bits_of_string (text "u4pruy")) GetBounds.init))
           (GetBounds.box (follow (bits_of_string (text "u4pruy")) GetBounds.init))
           (decimal 5764911 5) (decimal 1040744 5)).
  - literal_alphabet.
  - literal_alphabet.
  - simpl; lia.
  - reflexivity.
  - vm_compute; reflexivity.
  - vm_compute; reflexivity.
  - vm_compute; reflexivity.
  - vm_compute; reflexivity.
  - vm_compute. repeat split.
  - vm_compute. repeat split.
Defined.

Lemma lt_of_not_le (a b : float) :
  a <> S754_nan -> b <> S754_nan -> F64.le a b = false -> F64.lt b a = true.
Proof.
  intros Ha Hb. unfold F64.le, F64.lt, SFleb, SFltb.
  rewrite (SFcompare_antisym a b).
  destruct (SFcompare a b) as [[| |]|] eqn:Hc; simpl; try discriminate; try reflexivity.
  destruct a, b; simpl in Hc; congruence.
Qed.

Lemma lt_defined (a b : float) : F64.lt a b = true -> a <> S754_nan /\ b <> S754_nan.
Proof.
  unfold F64.lt, SFltb. destruct a, b; simpl; try discriminate;
    intros _; split; discriminate.
Qed.

Lemma decide_edge_open (x lo hi : float) (W : Z) :
  W < 2 ^ 2095 -> interval W lo hi ->
  F64.le lo x = true -> F64.lt x hi = true ->
  let d := F64.ge x (midpoint lo hi) in
  F64.le (if d then midpoint lo hi else lo) x = true /\
  F64.lt x (if d then hi else midpoint lo hi) = true.
Proof.
  intros HW Hint Hlo Hhi d.
  destruct (interval_midpoint_good W lo hi HW Hint) as (v & Hv).
  destruct d eqn:Hd; subst d; split; try assumption.
  apply lt_of_not_le; [eapply good_not_nan; eassumption | | exact Hd].
  now destruct (le_defined _ _ Hlo).
Qed.

Lemma decide_in_cell_step (latitude longitude : float) (g : GetBounds.state) :
  Within g /\ in_cell (GetBounds.box g) latitude longitude ->
  Within (narrow (decide latitude longitude g) g) /\
  in_cell (GetBounds.box (narrow (decide latitude longitude g) g))
          latitude longitude.
Proof.
  intros [HW (C1 & C2 & C3 & C4)]. split; [now apply narrow_within|].
  destruct HW as [Hlat Hlon]. destruct globe_small as [H90 H180].
  unfold in_cell, decide in *. cbn [GetBounds.box sw ne lat lon] in *.
  destruct (GetBounds.even_bit g) eqn:He.
  - destruct (narrow_longitude
                (F64.ge longitude (midpoint (GetBounds.longitude_min g)
                                            (GetBounds.longitude_max g))) g He)
      as (-> & -> & -> & ->).
    destruct (decide_edge_open longitude _ _ _ H180 Hlon C3 C4). auto.
  - destruct (narrow_latitude
                (F64.ge latitude (midpoint (GetBounds.latitude_min g)
                                           (GetBounds.latitude_max g))) g He)
      as (-> & -> & -> & ->).
    destruct (decide_edge_open latitude _ _ _ H90 Hlat C1 C2). auto.
Qed.

(** X13 — Every point has its cell: for a latitude in [[-90, 90)], a
    longitude in [[-180, 180)] and a precision in [1, 12], the point lies
    in the box of its geohash with the north and east edges excluded. *)
Theorem X13_encode_cell_half_open
    (latitude longitude : float) (precision : Z) (fuel : nat) :
  F64.le (F64.neg f90) latitude = true -> F64.lt latitude f90 = true ->
  F64.le (F64.neg f180) longitude = true -> F64.lt longitude f180 = true ->
  1 <= precision <= 12 -> 5 * precision <= Z.of_nat fuel ->
  exists g box,
    encode fuel latitude longitude precision = Some (Ok g) /\
    get_bounds g = Ok box /\
    in_cell box latitude longitude.
Proof.
  intros H1 H2 H3 H4 Hp Hfuel.
  destruct (encode_ok latitude longitude precision fuel Hp Hfuel)
    as (g & st & Henc & _ & _ & _ & Hb & HP).
  exists g, (GetBounds.box st). split; [exact Henc|]. split; [exact Hb|].
  apply (HP (fun g => Within g /\ in_cell (GetBounds.box g) latitude longitude)).
  - apply decide_in_cell_step.
  - split; [exact init_within|]. repeat split; assumption.
Qed.

Lemma X13_encode_cell_half_open_witness :
  exists g box,
    encode 5 (F64.neg f90) (F64.neg f180) 1 = Some (Ok g) /\
    get_bounds g = Ok box /\
    in_cell box (F64.neg f90) (F64.neg f180).
Proof.
  apply (X13_encode_cell_half_open (F64.neg f90) (F64.neg f180) 1 5);
    try reflexivity; simpl; lia.
Defined.

(* ================================================================== *)
(** * [dstkit.hexagon]: argument binding *)
(* ================================================================== *)

Lemma hexagon_fill_names (params : list Hexagon.parameter) (args : list Hexagon.value) :
  map fst (Hexagon.fill_positional params args) = map fst params.
Proof.
  revert args. induction params as [|[name d] params IH]; intros [|a args]; cbn; try reflexivity.
  - now rewrite map_map.
  - now rewrite IH.
Qed.

Lemma hexagon_set_keyword_names (f k : string) (v : Hexagon.value) slots slots' :
  Hexagon.set_keyword f k v slots = Hexagon.Return slots' ->
  map fst slots' = map fst slots.
Proof.
  revert slots'. induction slots as [|[name cur] rest IH]; intros slots' H; cbn in H.
  - discriminate.
  - destruct (String.eqb name k).
    + destruct cur; [discriminate|]. injection H as <-. reflexivity.
    + destruct (Hexagon.set_keyword f k v rest) as [r|e]; cbn in H; [|discriminate].
      injection H as <-. cbn. now rewrite (IH r eq_refl).
Qed.

Lemma hexagon_set_keywords_names (f : string) kws slots slots' :
  Hexagon.set_keywords f kws slots = Hexagon.Return slots' ->
  map fst slots' = map fst slots.
Proof.
  revert slots slots'. induction kws as [|[k v] kws IH]; intros slots slots' H; cbn in H.
  - now injection H as <-.
  - destruct (Hexagon.set_keyword f k v slots) as [r|e] eqn:E; cbn in H; [|discriminate].
    rewrite (IH _ _ H). eapply hexagon_set_keyword_names; eauto.
Qed.

Lemma hexagon_defaults_names (f : string) params slots env :
  List.length slots = List.length params ->
  Hexagon.apply_defaults f params slots = Hexagon.Return env ->
  map fst env = map fst params.
Proof.
  revert slots env. induction params as [|[name d] params IH]; intros [|[n cur] slots] env L H;
    cbn in *; try discriminate.
  - now injection H as <-.
  - injection L as L. destruct cur as [v|].
    + destruct (Hexagon.apply_defaults f params slots) as [r|e] eqn:E; cbn in H; [|discriminate].
      injection H as <-. cbn. f_equal. now apply (IH slots).
    + destruct d as [d|]; [|discriminate].
      destruct (Hexagon.apply_defaults f params slots) as [r|e] eqn:E; cbn in H; [|discriminate].
      injection H as <-. cbn. f_equal. now apply (IH slots).
Qed.

(** A successful binding gives every parameter a value, in the order of
    the parameter list. *)
Lemma hexagon_bind_names (f : string) params a env :
  Hexagon.bind_arguments f params a = Hexagon.Return env ->
  map fst env = map fst params.
Proof.
  unfold Hexagon.bind_arguments. intros H.
  destruct (Hexagon.set_keywords f _ _) as [slots|e] eqn:E;
    unfold Hexagon.and_then in H; [|discriminate].
  destruct (_ <? _)%nat; [discriminate|].
  apply hexagon_set_keywords_names in E. rewrite hexagon_fill_names in E.
  apply (hexagon_defaults_names f params slots env); [|exact H].
  rewrite <- (length_map fst slots), E. apply length_map.
Qed.

Lemma hexagon_set_keyword_error (f k : string) (v : Hexagon.value) slots e :
  Hexagon.set_keyword f k v slots = Hexagon.Throw e ->
  exists why, e = Hexagon.TypeError why.
Proof.
  induction slots as [|[name cur] rest IH]; intros H; cbn in H.
  - injection H as <-. eauto.
  - destruct (String.eqb name k).
    + destruct cur; [|discriminate]. injection H as <-. eauto.
    + destruct (Hexagon.set_keyword f k v rest) as [r|e']; cbn in H; [discriminate|].
      injection H as <-. now apply IH.
Qed.

Lemma hexagon_set_keywords_error (f : string) kws slots e :
  Hexagon.set_keywords f kws slots = Hexagon.Throw e ->
  exists why, e = Hexagon.TypeError why.
Proof.
  revert slots. induction kws as [|[k v] kws IH]; intros slots H; cbn in H.
  - discriminate.
  - destruct (Hexagon.set_keyword f k v slots) as [r|e'] eqn:E; cbn in H.
    + eapply IH; eauto.
    + injection H as <-. eapply hexagon_set_keyword_error; eauto.
Qed.

Lemma hexagon_defaults_error (f : string) params slots e :
  Hexagon.apply_defaults f params slots = Hexagon.Throw e ->
  exists why, e = Hexagon.TypeError why.
Proof.
  revert slots. induction params as [|[name d] params IH]; intros [|[n cur] slots] H;
    cbn in H; try discriminate.
  destruct cur as [v|]; [|destruct d as [d|]].
  - destruct (Hexagon.apply_defaults f params slots) as [r|e'] eqn:E; cbn in H; [discriminate|].
    injection H as <-. eapply IH; eauto.
  - destruct (Hexagon.apply_defaults f params slots) as [r|e'] eqn:E; cbn in H; [discriminate|].
    injection H as <-. eapply IH; eauto.
  - injection H as <-. eauto.
Qed.

(** Argument binding raises nothing but [TypeError]. *)
Lemma hexagon_bind_error (f : string) params a e :
  Hexagon.bind_arguments f params a = Hexagon.Throw e ->
  exists why, e = Hexagon.TypeError why.
Proof.
  unfold Hexagon.bind_arguments. intros H.
  destruct (Hexagon.set_keywords f _ _) as [slots|e'] eqn:E;
    unfold Hexagon.and_then in H.
  - destruct (_ <? _)%nat.
    + injection H as <-. eauto.
    + eapply hexagon_defaults_error; eauto.
  - injection H as <-. eapply hexagon_set_keywords_error; eauto.
Qed.

Lemma hexagon_three_names (env : list (string * Hexagon.value)) (n1 n2 n3 : string) :
  map fst env = [n1; n2; n3] ->
  exists v1 v2 v3, env = [(n1, v1); (n2, v2); (n3, v3)].
Proof.
  destruct env as [|[k1 v1] [|[k2 v2] [|[k3 v3] [|]]]]; cbn; intros H; try discriminate.
  injection H as -> -> ->. now exists v1, v2, v3.
Qed.

(** X14 — [hexagon_from_location] never returns.  Its call of [encode]
    passes the keyword [res], which [encode] does not have: whenever the
    function's own arguments bind, the call raises the [TypeError] for
    that unexpected keyword, whatever the h3 functions do, and otherwise
    the binding's own [TypeError] is raised. *)
Theorem X14_hexagon_from_location_raises
    (geo_to_h3 h3_to_geo_boundary : Hexagon.arguments -> Hexagon.outcome Hexagon.value)
    (a : Hexagon.arguments) :
  Hexagon.hexagon_from_location geo_to_h3 h3_to_geo_boundary a
    = match Hexagon.bind_arguments "hexagon_from_location"
              Hexagon.hexagon_from_location_parameters a with
      | Hexagon.Return _ =>
          Hexagon.Throw (Hexagon.TypeError (Hexagon.UnexpectedKeyword "encode" "res"))
      | Hexagon.Throw e => Hexagon.Throw e
      end /\
  exists why,
    Hexagon.hexagon_from_location geo_to_h3 h3_to_geo_boundary a
      = Hexagon.Throw (Hexagon.TypeError why).
Proof.
  unfold Hexagon.hexagon_from_location.
  destruct (Hexagon.bind_arguments "hexagon_from_location" _ a) as [env|e] eqn:E.
  - apply hexagon_bind_names in E. apply hexagon_three_names in E.
    destruct E as (v1 & v2 & v3 & ->). split; [reflexivity|].
    exists (Hexagon.UnexpectedKeyword "encode" "res"). reflexivity.
  - destruct (hexagon_bind_error _ _ _ _ E) as [why ->].
    split; [reflexivity|]. exists why. reflexivity.
Qed.

Lemma hexagon_encode_keywords (kws : list (string * Hexagon.value)) :
  forall (o1 o2 o3 : option Hexagon.value) slots,
    Hexagon.set_keywords "encode" kws
      [("lat"%string, o1); ("lon"%string, o2); ("resolution"%string, o3)]
      = Hexagon.Return slots ->
    let merge (o : option Hexagon.value) (name : string) :=
      match o with
      | Some v => Some v
      | None => Hexagon.keyword name kws
      end in
    slots = [("lat"%string, merge o1 "lat"%string);
             ("lon"%string, merge o2 "lon"%string);
             ("resolution"%string, merge o3 "resolution"%string)].
Proof.
  induction kws as [|[k v] kws IH]; intros o1 o2 o3 slots H; cbv zeta.
  - cbn in H. injection H as <-. destruct o1, o2, o3; reflexivity.
  - cbn [Hexagon.set_keywords Hexagon.set_keyword] in H.
    cbn [Hexagon.keyword].
    destruct (String.eqb_spec "lat" k) as [<-|N1].
    { destruct o1; cbn [Hexagon.and_then] in H; [discriminate|].
      apply IH in H. cbv zeta in H. subst slots.
      destruct o2, o3; reflexivity. }
    destruct (String.eqb_spec "lon" k) as [<-|N2].
    { destruct o2; cbn [Hexagon.and_then] in H; [discriminate|].
      apply IH in H. cbv zeta in H. subst slots.
      destruct o1, o3; reflexivity. }
    destruct (String.eqb_spec "resolution" k) as [<-|N3].
    { destruct o3; cbn [Hexagon.and_then] in H; [discriminate|].
      apply IH in H. cbv zeta in H. subst slots.
      destruct o1, o2; reflexivity. }
    cbn in H. discriminate.
Qed.

(** X15 — What [hexagon.encode] asks of h3, for every call: unless the
    arguments fail to bind, which raises [TypeError], the call passes a
    latitude and a longitude, by position or by keyword, and the function
    calls [h3.geo_to_h3] once with these two as positional arguments and
    with the keyword [res] set to the resolution passed, by position or
    as [resolution=...], and to 3 when none is passed; it returns what
    h3 returns or raises. *)
Theorem X15_hexagon_encode_resolution
    (geo_to_h3 : Hexagon.arguments -> Hexagon.outcome Hexagon.value)
    (a : Hexagon.arguments) :
  (exists why,
     Hexagon.bind_arguments "encode" Hexagon.encode_parameters a
       = Hexagon.Throw (Hexagon.TypeError why) /\
     Hexagon.encode geo_to_h3 a = Hexagon.Throw (Hexagon.TypeError why)) \/
  (exists lat lon,
     Hexagon.passed 0 "lat" a = Some lat /\
     Hexagon.passed 1 "lon" a = Some lon /\
     Hexagon.encode geo_to_h3 a =
     geo_to_h3
       {| Hexagon.positional := [lat; lon];
          Hexagon.keywords :=
            [("res"%string,
              match Hexagon.passed 2 "resolution" a with
              | Some resolution => resolution
              | None => Hexagon.VInt 3
              end)] |}).
Proof.
  unfold Hexagon.encode.
  destruct (Hexagon.bind_arguments "encode" Hexagon.encode_parameters a)
    as [env|e] eqn:E.
  - right. unfold Hexagon.bind_arguments in E.
    destruct (Hexagon.set_keywords "encode" (Hexagon.keywords a) _)
      as [slots|e] eqn:K; unfold Hexagon.and_then in E; [|discriminate].
    unfold Hexagon.passed. destruct a as [pos kws].
    cbn [Hexagon.positional Hexagon.keywords] in *.
    destruct pos as [|p0 [|p1 [|p2 [|p3 pos]]]];
      cbn [Hexagon.fill_positional Hexagon.encode_parameters map fst] in K;
      apply hexagon_encode_keywords in K; cbv zeta in K; subst slots;
      cbn [List.length Nat.ltb Nat.leb] in E; try discriminate;
      cbn [nth_error];
      cbn [Hexagon.apply_defaults Hexagon.encode_parameters] in E.
    + destruct (Hexagon.keyword "lat" kws) as [lat|]; [|discriminate].
      destruct (Hexagon.keyword "lon" kws) as [lon|]; [|discriminate].
      exists lat, lon.
      destruct (Hexagon.keyword "resolution" kws); injection E as <-;
        repeat split; reflexivity.
    + destruct (Hexagon.keyword "lon" kws) as [lon|]; [|discriminate].
      exists p0, lon.
      destruct (Hexagon.keyword "resolution" kws); injection E as <-;
        repeat split; reflexivity.
    + exists p0, p1.
      destruct (Hexagon.keyword "resolution" kws); injection E as <-;
        repeat split; reflexivity.
    + exists p0, p1. injection E as <-. repeat split; reflexivity.
  - left. destruct (hexagon_bind_error _ _ _ _ E) as [why ->].
    exists why. split; reflexivity.
Qed.
